(** * express-graphql-persisted-queries: a shallow embedding

    The development follows the TypeScript sources of the middleware:

    - typeguards.ts, assert.ts, constants.ts
    - parseOptions.ts                  [parseOptions]
    - parseRequestBodyIfNecessary.ts   [readRawBody],
                                       [parseRequestBodyIfNecessary]
    - getPersistedQuery.ts             [getPersistedQuery]
    - sendJson.ts                      [sendJson]
    - index.ts                         [persistedQueries],
                                       [persistedQueriesMiddleware]
    - ebp/...                          module [Ebp]: the body parser
    - index.ts over ebp                module [OverEbp]

    JavaScript strings are lists of UTF-16 code units and buffers are lists
    of bytes.  An object is the ordered list of its own properties together
    with the properties it inherits.  A thrown exception and a rejected
    promise are the [Throw] of an error monad.  The request with its
    mutable body slot, the response and the continuation are passed
    explicitly.

    The libraries the sources call are modelled as follows.  http-errors,
    get-stream, the string decoder, [URLSearchParams], [JSON.stringify] and
    the case mappings are defined here after their documented behaviour.
    The content-type parser, [JSON.parse], [querystring.parse] and the zlib
    transforms are the fields of the class [Runtime]; the theorems hold for
    every instance.

    Limits of the model: what is thrown is an [Error] object, with a
    message and possibly a numeric status, and without [extensions]; a
    number is an integer; a promise is settled; properties are data
    properties; the continuation returns. *)

From Stdlib Require Import List NArith ZArith Bool String Ascii Lia.
Import ListNotations.

Set Implicit Arguments.
Set Warnings "-register-all".

(* ===================================================================== *)
(** * JavaScript strings *)
(* ===================================================================== *)

(** A string is the list of its UTF-16 code units; [length] is the
    JavaScript [.length]. *)
Definition codeunit := N.
Definition jsstring := list codeunit.

(** A buffer is a list of bytes. *)
Definition byte := N.
Definition Buffer := list byte.

(** ASCII literals. *)
Definition js (s : string) : jsstring :=
  List.map N_of_ascii (list_ascii_of_string s).

(** The double quote character, U+0022. *)
Definition dquote : jsstring := [34%N].

Fixpoint jseqb (a b : jsstring) : bool :=
  match a, b with
  | [], [] => true
  | x :: a', y :: b' => N.eqb x y && jseqb a' b'
  | _, _ => false
  end.

(** [String.prototype.toLowerCase] and [toUpperCase] on the Latin-1 range,
    which is the range of the strings Node hands out for header values.
    Code units from 256 on are left as they are. *)
Definition lower_unit (c : codeunit) : codeunit :=
  if ((65 <=? c) && (c <=? 90))%N then (c + 32)%N
  else if ((192 <=? c) && (c <=? 222) && negb (c =? 215))%N then (c + 32)%N
  else c.

Definition upper_unit (c : codeunit) : jsstring :=
  if ((97 <=? c) && (c <=? 122))%N then [(c - 32)%N]
  else if ((224 <=? c) && (c <=? 254) && negb (c =? 247))%N then [(c - 32)%N]
  else if (c =? 181)%N then [924%N]        (* micro sign -> capital mu *)
  else if (c =? 223)%N then [83%N; 83%N]   (* sharp s -> SS *)
  else if (c =? 255)%N then [376%N]        (* y diaeresis -> U+0178 *)
  else [c].

Definition toLowerCase (s : jsstring) : jsstring := List.map lower_unit s.
Definition toUpperCase (s : jsstring) : jsstring := List.flat_map upper_unit s.

(** [s.split(sep)] for a one-unit separator. *)
Fixpoint split_go (sep : codeunit) (cur : jsstring) (s : jsstring) : list jsstring :=
  match s with
  | [] => [List.rev cur]
  | c :: s' =>
      if N.eqb c sep then List.rev cur :: split_go sep [] s'
      else split_go sep (c :: cur) s'
  end.

Definition split (sep : codeunit) (s : jsstring) : list jsstring :=
  split_go sep [] s.

(** [String(n)] for a non-negative integer: its decimal digits. *)
Fixpoint digits_go (fuel : nat) (n : N) (acc : jsstring) : jsstring :=
  match fuel with
  | O => acc
  | S fuel' =>
      let acc' := (48 + n mod 10)%N :: acc in
      if (n <? 10)%N then acc' else digits_go fuel' (n / 10)%N acc'
  end.

Definition String_of_N (n : N) : jsstring :=
  digits_go (S (N.to_nat (N.log2 n))) n [].

(* ===================================================================== *)
(** * UTF-8 and UTF-16LE *)
(* ===================================================================== *)

Definition REPLACEMENT : codeunit := 65533%N.   (* U+FFFD *)

Definition is_high_surrogate (c : codeunit) : bool :=
  ((55296 <=? c) && (c <=? 56319))%N.
Definition is_low_surrogate (c : codeunit) : bool :=
  ((56320 <=? c) && (c <=? 57343))%N.

(** The UTF-8 bytes of one code point. *)
Definition utf8_of_code_point (cp : N) : Buffer :=
  if (cp <? 128)%N then [cp]
  else if (cp <? 2048)%N then
    [N.lor 192 (N.shiftr cp 6); N.lor 128 (N.land cp 63)]
  else if (cp <? 65536)%N then
    [N.lor 224 (N.shiftr cp 12);
     N.lor 128 (N.land (N.shiftr cp 6) 63);
     N.lor 128 (N.land cp 63)]
  else
    [N.lor 240 (N.shiftr cp 18);
     N.lor 128 (N.land (N.shiftr cp 12) 63);
     N.lor 128 (N.land (N.shiftr cp 6) 63);
     N.lor 128 (N.land cp 63)].

(** [Buffer.from(s, 'utf8')]: surrogate pairs are combined, a lone
    surrogate is written as U+FFFD. *)
Fixpoint utf8_encode (s : jsstring) : Buffer :=
  match s with
  | [] => []
  | c :: rest =>
      if is_high_surrogate c then
        match rest with
        | d :: rest' =>
            if is_low_surrogate d then
              utf8_of_code_point
                (65536 + N.shiftl (c - 55296) 10 + (d - 56320))%N
              ++ utf8_encode rest'
            else utf8_of_code_point REPLACEMENT ++ utf8_encode rest
        | [] => utf8_of_code_point REPLACEMENT
        end
      else if is_low_surrogate c then
        utf8_of_code_point REPLACEMENT ++ utf8_encode rest
      else utf8_of_code_point c ++ utf8_encode rest
  end.

(** The code units of one code point. *)
Definition units_of_code_point (cp : N) : jsstring :=
  if (cp <? 65536)%N then [cp]
  else [(55296 + N.shiftr (cp - 65536) 10)%N;
        (56320 + N.land (cp - 65536) 1023)%N].

(** State of the UTF-8 decoder inside a multi-byte sequence: the bits read
    so far, the number of continuation bytes still needed, and the range
    allowed for the next byte. *)
Record utf8_pending : Type := mk_pending {
  pending_bits : N;
  pending_needed : nat;
  pending_lower : N;
  pending_upper : N
}.

(** A byte met outside a sequence: the units it yields at once and the
    sequence it opens. *)
Definition utf8_lead (b : byte) : jsstring * option utf8_pending :=
  if (b <=? 127)%N then ([b], None)
  else if ((194 <=? b) && (b <=? 223))%N then
    ([], Some (mk_pending (N.land b 31) 1 128 191))
  else if ((224 <=? b) && (b <=? 239))%N then
    ([], Some (mk_pending (N.land b 15) 2
                 (if (b =? 224)%N then 160 else 128)%N
                 (if (b =? 237)%N then 159 else 191)%N))
  else if ((240 <=? b) && (b <=? 244))%N then
    ([], Some (mk_pending (N.land b 7) 3
                 (if (b =? 240)%N then 144 else 128)%N
                 (if (b =? 244)%N then 143 else 191)%N))
  else ([REPLACEMENT], None).

(** [decoder.write(chunk)]: the text completed by the chunk and the state
    left.  An ill-formed sequence yields U+FFFD and the offending byte is
    read again as the start of a sequence. *)
Fixpoint utf8_write (st : option utf8_pending) (bs : Buffer)
  : jsstring * option utf8_pending :=
  match bs with
  | [] => ([], st)
  | b :: bs' =>
      match st with
      | None =>
          let '(out, st') := utf8_lead b in
          let '(rest, st'') := utf8_write st' bs' in
          (out ++ rest, st'')
      | Some p =>
          if ((pending_lower p <=? b) && (b <=? pending_upper p))%N then
            let bits := N.lor (N.shiftl (pending_bits p) 6) (N.land b 63) in
            match pending_needed p with
            | S (S n) =>
                utf8_write (Some (mk_pending bits (S n) 128 191)) bs'
            | _ =>
                let '(rest, st'') := utf8_write None bs' in
                (units_of_code_point bits ++ rest, st'')
            end
          else
            let '(out, st') := utf8_lead b in
            let '(rest, st'') := utf8_write st' bs' in
            (REPLACEMENT :: out ++ rest, st'')
      end
  end.

(** [decoder.end()]: an unfinished sequence yields U+FFFD. *)
Definition utf8_end (st : option utf8_pending) : jsstring :=
  match st with
  | None => []
  | Some _ => [REPLACEMENT]
  end.

(** [buffer.toString('utf8')]. *)
Definition utf8_decode (bs : Buffer) : jsstring :=
  let '(out, st) := utf8_write None bs in out ++ utf8_end st.

(** [buffer.toString('utf16le')]: pairs of bytes, low byte first; a
    trailing odd byte is dropped. *)
Fixpoint utf16le_decode (bs : Buffer) : jsstring :=
  match bs with
  | lo :: hi :: bs' => (lo + 256 * hi)%N :: utf16le_decode bs'
  | _ => []
  end.

(* ===================================================================== *)
(** * Errors and the error monad *)
(* ===================================================================== *)

Inductive errorClass : Type :=
| PlainError        (* new Error(...) *)
| TypeError         (* new TypeError(...) *)
| SyntaxError       (* thrown by JSON.parse *)
| HttpError.        (* created by http-errors *)

(** An [Error] object: its class, its [message], and its numeric [status]
    ([statusCode]) when it carries one. *)
Record error : Type := mk_error {
  err_class : errorClass;
  err_message : jsstring;
  err_status : option Z
}.

(** The outcome of a call that may throw, and of an awaited promise that
    may reject. *)
Inductive result (A : Type) : Type :=
| Ok (a : A)
| Throw (e : error).

Arguments Ok {A} a.
Arguments Throw {A} e.

Definition bind {A B : Type} (m : result A) (k : A -> result B) : result B :=
  match m with
  | Ok a => k a
  | Throw e => Throw e
  end.

Declare Scope js_scope.
Delimit Scope js_scope with jsm.
Notation "x <- m ;; k" := (bind m (fun x => k))
  (at level 61, m at next level, right associativity) : js_scope.
Notation "m ;;; k" := (bind m (fun _ => k))
  (at level 61, right associativity) : js_scope.

(** assert.ts *)
Definition assert (condition : bool) (msg : jsstring) : result unit :=
  if negb condition then Throw (mk_error TypeError msg None) else Ok tt.

(** constants.ts *)
Definition CONTENT_TYPE_FORM_URL_ENCODED : jsstring :=
  js "application/x-www-form-urlencoded".
Definition CONTENT_TYPE_JSON : jsstring := js "application/json".

Definition HTTP_STATUS_OK : Z := 200.
Definition HTTP_STATUS_BAD_REQUEST : Z := 400.
Definition HTTP_STATUS_PAYLOAD_TOO_LARGE : Z := 413.
Definition HTTP_STATUS_UNSUPPORTED_MEDIA_TYPE : Z := 415.
Definition HTTP_STATUS_INTERNAL_SERVER_ERROR : Z := 500.

Definition UNIT_KIB : Z := 1024.

(** ** http-errors

    The codes below 400 that the [statuses] table of http-errors 1.8 knows;
    every code from 400 to 599 is accepted as it is. *)
Definition statuses_known : list Z :=
  [100; 101; 102; 103;
   200; 201; 202; 203; 204; 205; 206; 207; 208; 226;
   300; 301; 302; 303; 304; 305; 306; 307; 308]%Z.

Definition status_accepted (status : Z) : bool :=
  existsb (Z.eqb status) statuses_known
  || ((400 <=? status) && (status <? 600))%Z.

Definition normalize_status (status : Z) : Z :=
  if status_accepted status then status else 500%Z.

(** [httpError(status, message)] *)
Definition httpError (status : Z) (message : jsstring) : error :=
  mk_error HttpError message (Some (normalize_status status)).

(** [httpError(status, err)] for an [Error] object: the object is returned
    with its own status when it has a truthy one, with [status] otherwise;
    its message stays. *)
Definition httpError_of (status : Z) (err : error) : error :=
  let own :=
    match err_status err with
    | Some s => if (s =? 0)%Z then status else s
    | None => status
    end in
  mk_error (err_class err) (err_message err) (Some (normalize_status own)).

Definition statusCode_of (e : error) : Z :=
  match err_status e with
  | Some s => s
  | None => 0%Z
  end.

(* ===================================================================== *)
(** * Values and objects *)
(* ===================================================================== *)

(** The values the middleware inspects.  An object is the ordered list of
    its own data properties and the list of the properties it sees through
    its prototype chain.  A function is applied to a query id and returns
    or throws.  A promise is settled: fulfilled with a value or rejected
    with an error; it is an object and can carry own properties. *)
Inductive value : Type :=
| VUndefined
| VNull
| VBool (b : bool)
| VNum (n : Z)
| VStr (s : jsstring)
| VObj (own inherited : list (jsstring * value))
| VFun (f : jsstring -> value + error)
| VPromise (settled : value + error) (own : list (jsstring * value)).

Definition props : Type := list (jsstring * value).

Fixpoint lookup {V : Type} (k : jsstring) (ps : list (jsstring * V)) : option V :=
  match ps with
  | [] => None
  | (k', v) :: ps' => if jseqb k k' then Some v else lookup k ps'
  end.

(** Assignment to a key: an existing entry keeps its place. *)
Fixpoint update {V : Type} (k : jsstring) (v : V) (ps : list (jsstring * V))
  : list (jsstring * V) :=
  match ps with
  | [] => [(k, v)]
  | (k', v') :: ps' =>
      if jseqb k k' then (k, v) :: ps' else (k', v') :: update k v ps'
  end.

Definition has_key {V : Type} (k : jsstring) (ps : list (jsstring * V)) : bool :=
  match lookup k ps with
  | Some _ => true
  | None => false
  end.

(** A built-in function, never applied by the middleware. *)
Definition native : value := VFun (fun _ => inl VUndefined).

(** What a plain object inherits from [Object.prototype]. *)
Definition ObjectPrototype : props :=
  [ (js "constructor", native);
    (js "__defineGetter__", native);
    (js "__defineSetter__", native);
    (js "hasOwnProperty", native);
    (js "__lookupGetter__", native);
    (js "__lookupSetter__", native);
    (js "isPrototypeOf", native);
    (js "propertyIsEnumerable", native);
    (js "toString", native);
    (js "valueOf", native);
    (js "__proto__", VObj [] []);
    (js "toLocaleString", native) ].

(** What a promise inherits. *)
Definition PromisePrototype : props :=
  [ (js "then", native); (js "catch", native); (js "finally", native) ]
  ++ ObjectPrototype.

(** An object literal [{ k1: v1, ... }]. *)
Definition object_literal (own : props) : value := VObj own ObjectPrototype.

(** The own and the inherited properties of a value that is an object. *)
Definition own_props (o : value) : props :=
  match o with
  | VObj own _ => own
  | VPromise _ own => own
  | _ => []
  end.

Definition inherited_props (o : value) : props :=
  match o with
  | VObj _ inherited => inherited
  | VPromise _ _ => PromisePrototype
  | _ => []
  end.

(** [Object.prototype.hasOwnProperty.call(o, k)] *)
Definition hasOwnProperty (o : value) (k : jsstring) : bool :=
  has_key k (own_props o).

(** [k in o] *)
Definition has_property (k : jsstring) (o : value) : bool :=
  has_key k (own_props o) || has_key k (inherited_props o).

(** [o[k]] *)
Definition get (o : value) (k : jsstring) : value :=
  match lookup k (own_props o) with
  | Some v => v
  | None =>
      match lookup k (inherited_props o) with
      | Some v => v
      | None => VUndefined
      end
  end.

(** [o[k] = v] on an object. *)
Definition set (o : value) (k : jsstring) (v : value) : value :=
  match o with
  | VObj own inherited => VObj (update k v own) inherited
  | VPromise settled own => VPromise settled (update k v own)
  | _ => o
  end.

(** ** typeguards.ts *)

Definition isObject (v : value) : bool :=
  match v with
  | VObj _ _ | VPromise _ _ => true
  | _ => false
  end.

Definition isNumber (v : value) : bool :=
  match v with
  | VNum _ => true
  | _ => false
  end.

Definition nonNull (v : value) : bool :=
  match v with
  | VUndefined | VNull => false
  | _ => true
  end.

(** [typeof value === 'string'] *)
Definition isString (v : value) : bool :=
  match v with
  | VStr _ => true
  | _ => false
  end.

(** [typeof value === 'function'] *)
Definition isFunction (v : value) : bool :=
  match v with
  | VFun _ => true
  | _ => false
  end.

(** [Boolean(v)] *)
Definition Boolean (v : value) : bool :=
  match v with
  | VUndefined | VNull => false
  | VBool b => b
  | VNum n => negb (n =? 0)%Z
  | VStr s => match s with [] => false | _ => true end
  | _ => true
  end.

(** [await v]: a fulfilled promise gives its value, a rejected one throws,
    anything else is itself. *)
Fixpoint await (v : value) : result value :=
  match v with
  | VPromise (inl v') _ => await v'
  | VPromise (inr e) _ => Throw e
  | _ => Ok v
  end.

(** The result of calling a function and awaiting what it returned. *)
Definition await_call (f : jsstring -> value + error) (arg : jsstring)
  : result value :=
  match f arg with
  | inl v => await v
  | inr e => Throw e
  end.

(* ===================================================================== *)
(** * JSON text of a payload *)
(* ===================================================================== *)

(** What [JSON.stringify] is given: a property whose value is [undefined]
    is [None] and is left out of the text. *)
Inductive json : Type :=
| JNull
| JBool (b : bool)
| JNum (n : Z)
| JString (s : jsstring)
| JArray (items : list json)
| JObject (fields : list (jsstring * option json)).

Definition hex_digit (n : N) : codeunit :=
  if (n <? 10)%N then (48 + n)%N else (87 + n)%N.

(** [\uXXXX] *)
Definition unicode_escape (c : codeunit) : jsstring :=
  [92; 117;
   hex_digit (N.land (N.shiftr c 12) 15);
   hex_digit (N.land (N.shiftr c 8) 15);
   hex_digit (N.land (N.shiftr c 4) 15);
   hex_digit (N.land c 15)]%N.

Definition quote_unit (c : codeunit) : jsstring :=
  if (c =? 8)%N then [92; 98]%N
  else if (c =? 9)%N then [92; 116]%N
  else if (c =? 10)%N then [92; 110]%N
  else if (c =? 12)%N then [92; 102]%N
  else if (c =? 13)%N then [92; 114]%N
  else if (c =? 34)%N then [92; 34]%N
  else if (c =? 92)%N then [92; 92]%N
  else if (c <? 32)%N then unicode_escape c
  else [c].

Fixpoint quote_units (s : jsstring) : jsstring :=
  match s with
  | [] => []
  | c :: rest =>
      if is_high_surrogate c then
        match rest with
        | d :: rest' =>
            if is_low_surrogate d then c :: d :: quote_units rest'
            else unicode_escape c ++ quote_units rest
        | [] => unicode_escape c
        end
      else if is_low_surrogate c then unicode_escape c ++ quote_units rest
      else quote_unit c ++ quote_units rest
  end.

(** The JSON text of a string. *)
Definition QuoteJSONString (s : jsstring) : jsstring :=
  dquote ++ quote_units s ++ dquote.

Fixpoint join (sep : jsstring) (parts : list jsstring) : jsstring :=
  match parts with
  | [] => []
  | [p] => p
  | p :: parts' => p ++ sep ++ join sep parts'
  end.

Definition String_of_Z (n : Z) : jsstring :=
  match n with
  | Zneg p => js "-" ++ String_of_N (Npos p)
  | _ => String_of_N (Z.to_N n)
  end.

Fixpoint JSON_stringify (j : json) : jsstring :=
  match j with
  | JNull => js "null"
  | JBool b => if b then js "true" else js "false"
  | JNum n => String_of_Z n
  | JString s => QuoteJSONString s
  | JArray items =>
      js "[" ++ join (js ",") (List.map JSON_stringify items) ++ js "]"
  | JObject fields =>
      js "{" ++
      join (js ",")
        ((fix members (fs : list (jsstring * option json)) : list jsstring :=
            match fs with
            | [] => []
            | (k, Some v) :: fs' =>
                (QuoteJSONString k ++ js ":" ++ JSON_stringify v) :: members fs'
            | (_, None) :: fs' => members fs'
            end) fields)
      ++ js "}"
  end.

(* ===================================================================== *)
(** * Requests, responses, streams *)
(* ===================================================================== *)

(** A readable byte stream: the chunks of its data events, then either its
    end or an error with a message. *)
Record Readable : Type := mk_Readable {
  chunks : list Buffer;
  failure : option jsstring
}.

(** The incoming request: target, header map with lower-cased names, the
    mutable [body] slot, the byte stream, and whether the stream has been
    put to flow (piped or read) yet. *)
Record Request : Type := mk_Request {
  url : jsstring;
  headers : list (jsstring * jsstring);
  body : value;
  readable : Readable;
  flowing : bool
}.

Definition set_body (req : Request) (b : value) : Request :=
  mk_Request (url req) (headers req) b (readable req) (flowing req).

Definition set_flowing (req : Request) : Request :=
  mk_Request (url req) (headers req) (body req) (readable req) true.

(** The response: status code, headers by lower-cased name, and the bytes
    written by [end], if it was called. *)
Record Response : Type := mk_Response {
  statusCode : Z;
  res_headers : list (jsstring * jsstring);
  sent : option Buffer
}.

Definition set_statusCode (res : Response) (code : Z) : Response :=
  mk_Response code (res_headers res) (sent res).

Definition setHeader (res : Response) (name val : jsstring) : Response :=
  mk_Response (statusCode res)
    (update (toLowerCase name) val (res_headers res)) (sent res).

Definition getHeader (res : Response) (name : jsstring) : option jsstring :=
  lookup (toLowerCase name) (res_headers res).

Definition res_end (res : Response) (buffer : Buffer) : Response :=
  mk_Response (statusCode res) (res_headers res) (Some buffer).

(** sendJson.ts *)
Definition sendJson (res : Response) (payload : json) : Response :=
  let json := JSON_stringify payload in
  let buffer := utf8_encode json in
  let res := setHeader res (js "Content-Type")
               (CONTENT_TYPE_JSON ++ js "; charset=utf-8") in
  let res := setHeader res (js "Content-Length")
               (String_of_N (N.of_nat (List.length buffer))) in
  res_end res buffer.

(** One exchange: the request, the response, and how many times the
    continuation [next] has been invoked. *)
Record Exchange : Type := mk_Exchange {
  req : Request;
  res : Response;
  next_calls : nat
}.

(* ===================================================================== *)
(** * get-stream *)
(* ===================================================================== *)

Inductive getStreamOutcome (A : Type) : Type :=
| Resolved (a : A)
| MaxBufferError
| StreamError (msg : jsstring).

Arguments Resolved {A} a.
Arguments MaxBufferError {A}.
Arguments StreamError {A} msg.

Definition is_empty {A : Type} (l : list A) : bool :=
  match l with
  | [] => true
  | _ => false
  end.

(** [getStream.buffer(stream, { maxBuffer })]: every data event adds the
    byte length of its chunk; the promise rejects with [MaxBufferError] as
    soon as the sum exceeds [maxBuffer]. *)
Fixpoint getStream_buffer_from (maxBuffer : Z) (buffered : Buffer)
    (cs : list Buffer) (fail_ : option jsstring) : getStreamOutcome Buffer :=
  match cs with
  | [] =>
      match fail_ with
      | Some msg => StreamError msg
      | None => Resolved buffered
      end
  | c :: cs' =>
      let buffered' := buffered ++ c in
      if negb (is_empty c) && (maxBuffer <? Z.of_nat (List.length buffered'))%Z
      then MaxBufferError
      else getStream_buffer_from maxBuffer buffered' cs' fail_
  end.

Definition getStream_buffer (stream : Readable) (maxBuffer : Z)
  : getStreamOutcome Buffer :=
  getStream_buffer_from maxBuffer [] (chunks stream) (failure stream).

(** The string decoder that [stream.setEncoding(charset)] installs. *)
Inductive StringDecoder : Type :=
| Utf8Decoder (st : option utf8_pending)
| Utf16Decoder (held : Buffer).

Fixpoint utf16le_write (bs : Buffer) : jsstring * Buffer :=
  match bs with
  | lo :: hi :: bs' =>
      let u := (lo + 256 * hi)%N in
      match bs' with
      | _ :: _ :: _ =>
          let '(out, held) := utf16le_write bs' in (u :: out, held)
      | _ =>
          if is_high_surrogate u then ([], bs) else ([u], bs')
      end
  | _ => ([], bs)
  end.

Definition StringDecoder_new (charset : jsstring) : StringDecoder :=
  if jseqb charset (js "utf16le") then Utf16Decoder [] else Utf8Decoder None.

Definition StringDecoder_write (d : StringDecoder) (chunk : Buffer)
  : jsstring * StringDecoder :=
  match d with
  | Utf8Decoder st =>
      let '(out, st') := utf8_write st chunk in (out, Utf8Decoder st')
  | Utf16Decoder held =>
      let '(out, held') := utf16le_write (held ++ chunk) in
      (out, Utf16Decoder held')
  end.

Definition StringDecoder_end (d : StringDecoder) : jsstring :=
  match d with
  | Utf8Decoder st => utf8_end st
  | Utf16Decoder held => utf16le_decode held
  end.

(** [buffer.toString(charset)] for a supported charset. *)
Definition Buffer_toString (buffer : Buffer) (charset : jsstring) : jsstring :=
  if jseqb charset (js "utf16le") then utf16le_decode buffer
  else utf8_decode buffer.

(** [getStream(stream, { encoding, maxBuffer })]: the chunks go through the
    string decoder, every data event adds the length of its string, that is
    its number of UTF-16 code units, and the promise rejects with
    [MaxBufferError] as soon as the sum exceeds [maxBuffer]. *)
Fixpoint getStream_text_from (maxBuffer : Z) (d : StringDecoder)
    (buffered : jsstring) (cs : list Buffer) (fail_ : option jsstring)
  : getStreamOutcome jsstring :=
  match cs with
  | [] =>
      match fail_ with
      | Some msg => StreamError msg
      | None =>
          let out := StringDecoder_end d in
          let buffered' := buffered ++ out in
          if negb (is_empty out) && (maxBuffer <? Z.of_nat (List.length buffered'))%Z
          then MaxBufferError
          else Resolved buffered'
      end
  | c :: cs' =>
      let '(out, d') := StringDecoder_write d c in
      let buffered' := buffered ++ out in
      if negb (is_empty out) && (maxBuffer <? Z.of_nat (List.length buffered'))%Z
      then MaxBufferError
      else getStream_text_from maxBuffer d' buffered' cs' fail_
  end.

Definition getStream_text (stream : Readable) (encoding : jsstring)
    (maxBuffer : Z) : getStreamOutcome jsstring :=
  getStream_text_from maxBuffer (StringDecoder_new encoding) []
    (chunks stream) (failure stream).

(* ===================================================================== *)
(** * The platform *)
(* ===================================================================== *)

(** The result of [contentType.parse]. *)
Record ParsedMediaType : Type := mk_ParsedMediaType {
  type : jsstring;
  parameters : list (jsstring * jsstring)
}.

(** What the middleware calls and does not define: the content-type
    parser, the two body syntaxes and the two zlib transforms.
    [contentType_parse] is given the Content-Type header and throws on a
    malformed one; [JSON_parse] is [None] where [JSON.parse] throws, and
    [JSON_parse_error] is then the SyntaxError it throws. *)
Class Runtime : Type := {
  contentType_parse : jsstring -> result ParsedMediaType;
  JSON_parse : jsstring -> option value;
  JSON_parse_error : jsstring -> error;
  querystring_parse : jsstring -> value;
  createInflate : Readable -> Readable;
  createGunzip : Readable -> Readable
}.

(* ===================================================================== *)
(** * URLSearchParams *)
(* ===================================================================== *)

Definition hex_value (b : byte) : option N :=
  if ((48 <=? b) && (b <=? 57))%N then Some (b - 48)%N
  else if ((65 <=? b) && (b <=? 70))%N then Some (b - 55)%N
  else if ((97 <=? b) && (b <=? 102))%N then Some (b - 87)%N
  else None.

Definition is_hex (c : codeunit) : bool :=
  match hex_value c with
  | Some _ => true
  | None => false
  end.

(** [toUSVString(s)]: a surrogate that is not part of a pair becomes
    U+FFFD. *)
Fixpoint toUSVString (s : jsstring) : jsstring :=
  match s with
  | [] => []
  | c :: rest =>
      if is_high_surrogate c then
        match rest with
        | d :: rest' =>
            if is_low_surrogate d then c :: d :: toUSVString rest'
            else REPLACEMENT :: toUSVString rest
        | [] => [REPLACEMENT]
        end
      else if is_low_surrogate c then REPLACEMENT :: toUSVString rest
      else c :: toUSVString rest
  end.

(** [decodeURIComponent(s)], [None] where it throws a URIError: every [%]
    must open an escape [%XY], and the bytes of consecutive escapes must be
    the UTF-8 encoding of code points; [st] is the sequence under way. *)
Fixpoint decodeURIComponent_from (st : option utf8_pending) (s : jsstring)
  : option jsstring :=
  match s with
  | [] =>
      match st with
      | None => Some []
      | Some _ => None
      end
  | c :: rest =>
      if (c =? 37)%N then
        match rest with
        | h :: l :: rest' =>
            match hex_value h, hex_value l with
            | Some x, Some y =>
                let b := (16 * x + y)%N in
                match st with
                | None =>
                    if (b <=? 127)%N
                    then option_map (cons b)
                           (decodeURIComponent_from None rest')
                    else
                      match snd (utf8_lead b) with
                      | Some p => decodeURIComponent_from (Some p) rest'
                      | None => None
                      end
                | Some p =>
                    if ((pending_lower p <=? b) && (b <=? pending_upper p))%N
                    then
                      let bits :=
                        N.lor (N.shiftl (pending_bits p) 6) (N.land b 63) in
                      match pending_needed p with
                      | S (S n) =>
                          decodeURIComponent_from
                            (Some (mk_pending bits (S n) 128 191)) rest'
                      | _ =>
                          option_map (app (units_of_code_point bits))
                            (decodeURIComponent_from None rest')
                      end
                    else None
                end
            | _, _ => None
            end
        | _ => None
        end
      else
        match st with
        | None => option_map (cons c) (decodeURIComponent_from None rest)
        | Some _ => None
        end
  end.

Definition decodeURIComponent (s : jsstring) : option jsstring :=
  decodeURIComponent_from None s.

(** [querystring.unescapeBuffer(s)]: every escape [%XY] becomes its byte,
    a [%] that opens none stays, and every other code unit is written as a
    byte, that is, cut to its low eight bits. *)
Fixpoint unescapeBuffer (s : jsstring) : Buffer :=
  match s with
  | [] => []
  | c :: rest =>
      if (c =? 37)%N then
        match rest with
        | h :: l :: rest' =>
            match hex_value h, hex_value l with
            | Some x, Some y => (16 * x + y)%N :: unescapeBuffer rest'
            | _, _ => 37%N :: unescapeBuffer rest
            end
        | _ => 37%N :: unescapeBuffer rest
        end
      else (c mod 256)%N :: unescapeBuffer rest
  end.

(** [querystring.unescape(s)]: [decodeURIComponent], and where that
    throws, the bytes of [unescapeBuffer] read as UTF-8. *)
Definition qsUnescape (s : jsstring) : jsstring :=
  match decodeURIComponent s with
  | Some decoded => decoded
  | None => utf8_decode (unescapeBuffer s)
  end.

(** Whether [parseParams] has met an escape [%XY] in a name or value:
    [encodeCheck] counts the [%] and the hexadecimal digits met in a row;
    a [+] is passed over. *)
Fixpoint has_escape_from (encodeCheck : nat) (s : jsstring) : bool :=
  match s with
  | [] => false
  | c :: rest =>
      if (c =? 43)%N then has_escape_from encodeCheck rest
      else if (c =? 37)%N then has_escape_from 1 rest
      else
        match encodeCheck with
        | O => has_escape_from 0 rest
        | S O =>
            if is_hex c then has_escape_from 2 rest
            else has_escape_from 0 rest
        | S (S _) =>
            if is_hex c then true else has_escape_from 0 rest
        end
  end.

(** The code units before and after the first [=]. *)
Fixpoint break_at_equals (bs : Buffer) : Buffer * Buffer :=
  match bs with
  | [] => ([], [])
  | b :: rest =>
      if (b =? 61)%N then ([], rest)
      else let '(name, val) := break_at_equals rest in (b :: name, val)
  end.

Definition plus_to_space (b : byte) : byte :=
  if (b =? 43)%N then 32%N else b.

(** A name or a value: every [+] is a space, and the escapes are undone
    when there is one. *)
Definition urlencoded_string (raw : jsstring) : jsstring :=
  let buf := List.map plus_to_space raw in
  if has_escape_from 0 raw then qsUnescape buf else buf.

Definition urlencoded_pair (piece : jsstring) : jsstring * jsstring :=
  let '(name, val) := break_at_equals piece in
  (urlencoded_string name, urlencoded_string val).

(** [new URLSearchParams(init)] in Node: no pair for [undefined]; a string
    is made well-formed, loses a leading [?], and is cut by [parseParams]
    at every [&], each piece that is not empty at its first [=]. *)
Definition URLSearchParams (init : option jsstring) : list (jsstring * jsstring) :=
  match init with
  | None => []
  | Some s =>
      let s' := match toUSVString s with
                | c :: rest => if (c =? 63)%N then rest else c :: rest
                | [] => []
                end in
      List.map urlencoded_pair
        (List.filter (fun piece => negb (is_empty piece))
           (split 38%N s'))
  end.

(** [searchParams.has(name)] and [searchParams.get(name)] *)
Definition searchParams_has (sp : list (jsstring * jsstring)) (name : jsstring)
  : bool := has_key name sp.

Definition searchParams_get (sp : list (jsstring * jsstring)) (name : jsstring)
  : option jsstring := lookup name sp.

(* ===================================================================== *)
(** * parseOptions.ts *)
(* ===================================================================== *)

(** The checked query map: a function from the query id, or a table with
    its own entries and what it inherits. *)
Inductive LooseQueryMap : Type :=
| QueryMapFn (f : jsstring -> value + error)
| QueryMapTable (own inherited : props).

Record ParsedOptions : Type := mk_ParsedOptions {
  queryIdKey : jsstring;
  queryMap : LooseQueryMap;
  strict : bool
}.

Definition OPTIONS_NOT_OBJECT : jsstring :=
  js "The options passed to persistedQueries must be an object or a promise that resolves with an object.".

Definition QUERY_MAP_INVALID : jsstring :=
  js "options.queryMap must be an object, a function, or a promise that resolves with an object or function.".

Definition parseOptions (promiseOrOptions : value) : result ParsedOptions :=
  (options <- await promiseOrOptions ;;
   assert (isObject options) OPTIONS_NOT_OBJECT ;;;
   queryMap <- await (get options (js "queryMap")) ;;
   assert (isObject queryMap || isFunction queryMap) QUERY_MAP_INVALID ;;;
   let queryIdKey :=
     match get options (js "queryIdKey") with
     | VStr s => s
     | _ => js "queryId"
     end in
   let strict := Boolean (get options (js "strict")) in
   match queryMap with
   | VFun f => Ok (mk_ParsedOptions queryIdKey (QueryMapFn f) strict)
   | _ =>
       Ok (mk_ParsedOptions queryIdKey
             (QueryMapTable (own_props queryMap) (inherited_props queryMap))
             strict)
   end)%jsm.

(* ===================================================================== *)
(** * parseRequestBodyIfNecessary.ts *)
(* ===================================================================== *)

Definition MAX_BUFFER_SIZE_KIB : Z := 100.

(** The test [/^[ \t\n\r]*{/] *)
Fixpoint starts_with_brace (json : jsstring) : bool :=
  match json with
  | [] => false
  | c :: rest =>
      if ((c =? 32) || (c =? 9) || (c =? 10) || (c =? 13))%N
      then starts_with_brace rest
      else (c =? 123)%N
  end.

Definition UNSUPPORTED_CHARSET (charset : jsstring) : jsstring :=
  js "Unsupported charset " ++ dquote ++ toUpperCase charset ++ dquote ++ js ".".

Definition UNSUPPORTED_ENCODING (encoding : jsstring) : jsstring :=
  js "Unsupported Content-Encoding: " ++ dquote ++ encoding ++ dquote ++ js ".".

Definition BODY_TOO_LARGE : jsstring := js "Request body too large.".

Definition INVALID_BODY (errorMessage : jsstring) : jsstring :=
  js "Invalid request body: " ++ errorMessage ++ js ".".

Definition NOT_JSON_OBJECT : jsstring :=
  js "Request body is not a valid JSON object.".

Section BodyParsing.

Context {rt : Runtime}.

Definition parseJsonObject (json : jsstring) : result value :=
  if negb (starts_with_brace json)
  then Throw (mk_error PlainError (js "Not a JSON object.") None)
  else
    match JSON_parse json with
    | Some v => Ok v
    | None => Throw (JSON_parse_error json)
    end.

Definition isCharsetSupported (charset : jsstring) : bool :=
  jseqb charset (js "utf8") || jseqb charset (js "utf-8")
  || jseqb charset (js "utf16le").

Definition getStreamFromRequest (req : Request) (encoding : jsstring)
  : result Readable :=
  if jseqb encoding (js "deflate") then Ok (createInflate (readable req))
  else if jseqb encoding (js "gzip") then Ok (createGunzip (readable req))
  else if jseqb encoding (js "identity") then Ok (readable req)
  else Throw (httpError HTTP_STATUS_UNSUPPORTED_MEDIA_TYPE
                (UNSUPPORTED_ENCODING encoding)).

(** The charset the body is read with:
    [parameters.charset?.toLowerCase() ?? 'utf-8'] *)
Definition charset_of (contentTypeInfo : ParsedMediaType) : jsstring :=
  match lookup (js "charset") (parameters contentTypeInfo) with
  | Some c => toLowerCase c
  | None => js "utf-8"
  end.

(** [req.headers['content-encoding']?.toLowerCase() ?? 'identity'] *)
Definition encoding_of (req : Request) : jsstring :=
  match lookup (js "content-encoding") (headers req) with
  | Some e => toLowerCase e
  | None => js "identity"
  end.

Definition readRawBody (req : Request) (contentTypeInfo : ParsedMediaType)
  : result jsstring * Request :=
  let charset := charset_of contentTypeInfo in
  if negb (isCharsetSupported charset) then
    (Throw (httpError HTTP_STATUS_UNSUPPORTED_MEDIA_TYPE
              (UNSUPPORTED_CHARSET charset)), req)
  else
    let encoding := encoding_of req in
    let maxBuffer := (MAX_BUFFER_SIZE_KIB * UNIT_KIB)%Z in
    match getStreamFromRequest req encoding with
    | Throw e => (Throw e, req)
    | Ok stream =>
        match getStream_text stream charset maxBuffer with
        | Resolved body => (Ok body, set_flowing req)
        | MaxBufferError =>
            (Throw (httpError HTTP_STATUS_PAYLOAD_TOO_LARGE BODY_TOO_LARGE),
             set_flowing req)
        | StreamError errorMessage =>
            (Throw (httpError HTTP_STATUS_BAD_REQUEST
                      (INVALID_BODY errorMessage)),
             set_flowing req)
        end
    end.

Definition parseRequestBodyIfNecessary (req : Request)
  : result unit * Request :=
  if nonNull (body req) then (Ok tt, req)
  else
    match lookup (js "content-type") (headers req) with
    | None => (Ok tt, req)
    | Some header =>
        match contentType_parse header with
        | Throw e => (Throw e, req)
        | Ok contentTypeInfo =>
            if jseqb (type contentTypeInfo) CONTENT_TYPE_JSON then
              match readRawBody req contentTypeInfo with
              | (Throw e, req') => (Throw e, req')
              | (Ok rawBody, req') =>
                  match parseJsonObject rawBody with
                  | Ok parsed => (Ok tt, set_body req' parsed)
                  | Throw _ =>
                      (Throw (httpError HTTP_STATUS_BAD_REQUEST
                                NOT_JSON_OBJECT), req')
                  end
              end
            else if jseqb (type contentTypeInfo) CONTENT_TYPE_FORM_URL_ENCODED
            then
              match readRawBody req contentTypeInfo with
              | (Throw e, req') => (Throw e, req')
              | (Ok rawBody, req') =>
                  (Ok tt, set_body req' (querystring_parse rawBody))
              end
            else (Ok tt, req)
        end
    end.

End BodyParsing.

(* ===================================================================== *)
(** * getPersistedQuery.ts *)
(* ===================================================================== *)

Definition SEARCH_PARAMS_HAVE_QUERY : jsstring :=
  js "Search params have " ++ dquote ++ js "query" ++ dquote
  ++ js " but only persisted queries are allowed.".

Definition BODY_HAS_QUERY : jsstring :=
  js "Request body has " ++ dquote ++ js "query" ++ dquote
  ++ js " but only persisted queries are allowed.".

Definition MUST_PROVIDE_QUERY_ID (queryIdKey : jsstring) : jsstring :=
  js "Request must provide a query ID under " ++ dquote ++ queryIdKey ++ dquote
  ++ js " key either in search params or request body.".

Definition QUERY_ID_NOT_FOUND (queryId : jsstring) : jsstring :=
  js "The provided query ID " ++ dquote ++ queryId ++ dquote
  ++ js " did not match any persisted query.".

(** [new URLSearchParams(req.url.split('?')[1])] *)
Definition searchParams_of (req : Request) : list (jsstring * jsstring) :=
  URLSearchParams (nth_error (split 63%N (url req)) 1).

(** [searchParams.get(queryIdKey) ?? (isObject(body) ? body[queryIdKey] : null)] *)
Definition queryId_of (queryIdKey : jsstring) (req : Request) : value :=
  match searchParams_get (searchParams_of req) queryIdKey with
  | Some s => VStr s
  | None => if isObject (body req) then get (body req) queryIdKey else VNull
  end.

(** The lookup of a query id: the awaited result of the function, or the
    entry of the table when the table has it as an own property, [null]
    otherwise. *)
Definition lookup_persistedQuery (queryMap : LooseQueryMap) (queryId : jsstring)
  : result value :=
  match queryMap with
  | QueryMapFn f => await_call f queryId
  | QueryMapTable own inherited =>
      if hasOwnProperty (VObj own inherited) queryId
      then Ok (get (VObj own inherited) queryId)
      else Ok VNull
  end.

Definition getPersistedQuery (queryIdKey : jsstring) (queryMap : LooseQueryMap)
    (req : Request) (strict : bool) : result (option jsstring) :=
  let searchParams := searchParams_of req in
  if strict && searchParams_has searchParams (js "query") then
    Throw (httpError HTTP_STATUS_BAD_REQUEST SEARCH_PARAMS_HAVE_QUERY)
  else
    let body := body req in
    if strict && isObject body && has_property (js "query") body then
      Throw (httpError HTTP_STATUS_BAD_REQUEST BODY_HAS_QUERY)
    else
      match queryId_of queryIdKey req with
      | VStr queryId =>
          (persistedQuery <- lookup_persistedQuery queryMap queryId ;;
           match persistedQuery with
           | VStr text => Ok (Some text)
           | _ =>
               Throw (httpError HTTP_STATUS_BAD_REQUEST
                        (QUERY_ID_NOT_FOUND queryId))
           end)%jsm
      | _ =>
          if strict then
            Throw (httpError HTTP_STATUS_BAD_REQUEST
                     (MUST_PROVIDE_QUERY_ID queryIdKey))
          else Ok None
      end.

(* ===================================================================== *)
(** * index.ts *)
(* ===================================================================== *)

(** [formatError(new GraphQLError(message, ..., error))]: the message, with
    [locations] and [path] undefined (and no [extensions], which the errors
    of this model do not carry). *)
Definition formatError (message : jsstring) : json :=
  JObject [ (js "message", Some (JString message));
            (js "locations", None);
            (js "path", None) ].

(** The [FormattedExecutionResult] of a failure. *)
Definition error_result (e : error) : json :=
  JObject [ (js "data", None);
            (js "errors", Some (JArray [formatError (err_message e)])) ].

(** The middleware function closes over the promise of the parsed options,
    which is settled once. *)
Record Middleware : Type := mk_Middleware {
  parsedOptions : result ParsedOptions
}.

(** What constructing the middleware leaves: the middleware and the errors
    passed to [console.error]. *)
Record Construction : Type := mk_Construction {
  middleware : Middleware;
  console_error : list error
}.

Definition OPTIONS_MISSING : jsstring :=
  js "You must provide options to the persistedQueries middleware.".

Definition persistedQueries (options : value) : result Construction :=
  (assert (nonNull options) OPTIONS_MISSING ;;;
   let parsedOptions := parseOptions options in
   let logged :=
     match parsedOptions with
     | Throw e => [e]
     | Ok _ => []
     end in
   Ok (mk_Construction (mk_Middleware parsedOptions) logged))%jsm.

(** [req.body.query = persistedQuery] or [req.body = { query: persistedQuery }] *)
Definition inject_query (req : Request) (persistedQuery : jsstring) : Request :=
  if isObject (body req)
  then set_body req (set (body req) (js "query") (VStr persistedQuery))
  else set_body req (object_literal [(js "query", VStr persistedQuery)]).

(** [next()]: the continuation runs on the exchange as it stands; the
    exchange counts the call. *)
Definition call_next (next : Exchange -> Exchange) (x : Exchange) : Exchange :=
  next (mk_Exchange (req x) (res x) (S (next_calls x))).

Definition with_req (x : Exchange) (r : Request) : Exchange :=
  mk_Exchange r (res x) (next_calls x).

(** From the call of [getPersistedQuery] to the call of [next]. *)
Definition resolve_and_delegate (options : ParsedOptions)
    (next : Exchange -> Exchange) (x : Exchange) : result unit * Exchange :=
  match getPersistedQuery (queryIdKey options) (queryMap options)
          (req x) (strict options) with
  | Throw e => (Throw e, x)
  | Ok persistedQuery =>
      let x' :=
        match persistedQuery with
        | Some text => with_req x (inject_query (req x) text)
        | None => x
        end in
      (Ok tt, call_next next x')
  end.

(** The [catch] block. *)
Definition handle_failure (unknownError : error) (x : Exchange) : Exchange :=
  let error := httpError_of HTTP_STATUS_INTERNAL_SERVER_ERROR unknownError in
  let res := set_statusCode (res x) (statusCode_of error) in
  mk_Exchange (req x) (sendJson res (error_result error)) (next_calls x).

Section Middleware.

Context {rt : Runtime}.

(** The [try] block. *)
Definition handle_request (m : Middleware) (next : Exchange -> Exchange)
    (x : Exchange) : result unit * Exchange :=
  match parsedOptions m with
  | Throw e => (Throw e, x)
  | Ok options =>
      match parseRequestBodyIfNecessary (req x) with
      | (Throw e, req') => (Throw e, with_req x req')
      | (Ok _, req') => resolve_and_delegate options next (with_req x req')
      end
  end.

Definition persistedQueriesMiddleware (m : Middleware)
    (next : Exchange -> Exchange) (x : Exchange) : Exchange :=
  match handle_request m next x with
  | (Ok _, x') => x'
  | (Throw e, x') => handle_failure e x'
  end.

End Middleware.

(* ===================================================================== *)
(** * index.ts: what a run does *)
(* ===================================================================== *)



Section Run.

Context {rt : Runtime}.



End Run.

(* ===================================================================== *)
(** * ebp: the body parser middleware *)
(* ===================================================================== *)

Module Ebp.

Record ParsedOptions : Type := mk_ParsedOptions {
  maxSize : Z
}.

Definition OPTIONS_NOT_OBJECT : jsstring :=
  js "The options passed to the bodyParser middleware must be an object.".

(** ebp/parseOptions.ts *)
Definition parseOptions (options : value) : result ParsedOptions :=
  (assert (isObject options) OPTIONS_NOT_OBJECT ;;;
   let maxSize :=
     match get options (js "maxSize") with
     | VNum n => n
     | _ => (100 * UNIT_KIB)%Z
     end in
   Ok (mk_ParsedOptions maxSize))%jsm.

Section BodyParser.

Context {rt : Runtime}.

Definition isCharsetSupported (charset : jsstring) : bool :=
  jseqb charset (js "utf-8") || jseqb charset (js "utf8")
  || jseqb charset (js "utf16le").

Definition getDecompressedStream (req : Request) (encoding : jsstring)
  : result Readable :=
  if jseqb encoding (js "deflate") then Ok (createInflate (readable req))
  else if jseqb encoding (js "gzip") then Ok (createGunzip (readable req))
  else if jseqb encoding (js "identity") then Ok (readable req)
  else Throw (httpError HTTP_STATUS_UNSUPPORTED_MEDIA_TYPE
                (UNSUPPORTED_ENCODING encoding)).

(** ebp/readRawBody.ts *)
Definition readRawBody (contentTypeInfo : ParsedMediaType) (maxSize : Z)
    (req : Request) : result jsstring * Request :=
  let charset := charset_of contentTypeInfo in
  if negb (isCharsetSupported charset) then
    (Throw (httpError HTTP_STATUS_UNSUPPORTED_MEDIA_TYPE
              (UNSUPPORTED_CHARSET charset)), req)
  else
    let encoding := encoding_of req in
    match getDecompressedStream req encoding with
    | Throw e => (Throw e, req)
    | Ok stream =>
        match getStream_buffer stream maxSize with
        | Resolved bodyBuffer =>
            (Ok (Buffer_toString bodyBuffer charset), set_flowing req)
        | MaxBufferError =>
            (Throw (httpError HTTP_STATUS_PAYLOAD_TOO_LARGE BODY_TOO_LARGE),
             set_flowing req)
        | StreamError errorMessage =>
            (Throw (httpError HTTP_STATUS_BAD_REQUEST
                      (INVALID_BODY errorMessage)),
             set_flowing req)
        end
    end.

(** The [try] block of [bodyParserMiddleware]; [next] is the
    continuation the middleware was given. *)
Definition parse_body (maxSize : Z) (next : Exchange -> Exchange)
    (x : Exchange) : result unit * Exchange :=
  let req := req x in
  if nonNull (body req) then (Ok tt, next x)
  else
    match lookup (js "content-type") (headers req) with
    | None => (Ok tt, next x)
    | Some header =>
        match contentType_parse header with
        | Throw e => (Throw e, x)
        | Ok contentTypeInfo =>
            if jseqb (type contentTypeInfo) CONTENT_TYPE_JSON then
              match readRawBody contentTypeInfo maxSize req with
              | (Throw e, req') =>
                  (Throw e, mk_Exchange req' (res x) (next_calls x))
              | (Ok rawBody, req') =>
                  match parseJsonObject rawBody with
                  | Ok parsed =>
                      (Ok tt,
                       next (mk_Exchange (set_body req' parsed)
                               (res x) (next_calls x)))
                  | Throw _ =>
                      (Throw (httpError HTTP_STATUS_BAD_REQUEST
                                NOT_JSON_OBJECT),
                       mk_Exchange req' (res x) (next_calls x))
                  end
              end
            else if jseqb (type contentTypeInfo)
                      CONTENT_TYPE_FORM_URL_ENCODED
            then
              match readRawBody contentTypeInfo maxSize req with
              | (Throw e, req') =>
                  (Throw e, mk_Exchange req' (res x) (next_calls x))
              | (Ok rawBody, req') =>
                  (Ok tt,
                   next
                     (mk_Exchange
                        (set_body req' (querystring_parse rawBody))
                        (res x) (next_calls x)))
              end
            else (Ok tt, next x)
        end
    end.

(** [{ errors: [{ message: error.message }] }] *)
Definition error_result (e : error) : json :=
  JObject [ (js "errors",
             Some (JArray [JObject [(js "message",
                                     Some (JString (err_message e)))]])) ].

Definition handle_failure (unknownError : error) (x : Exchange) : Exchange :=
  let error := httpError_of HTTP_STATUS_INTERNAL_SERVER_ERROR unknownError in
  let res := set_statusCode (res x) (statusCode_of error) in
  mk_Exchange (req x) (sendJson res (error_result error)) (next_calls x).

Definition bodyParserMiddleware (maxSize : Z) (next : Exchange -> Exchange)
    (x : Exchange) : Exchange :=
  match parse_body maxSize next x with
  | (Ok _, x') => x'
  | (Throw e, x') => handle_failure e x'
  end.

(** ebp/index.ts: [bodyParser(options = {})]; the middleware is the
    closure over [maxSize]. *)
Definition bodyParser (options : value)
  : result ((Exchange -> Exchange) -> Exchange -> Exchange) :=
  let options :=
    match options with
    | VUndefined => object_literal []
    | _ => options
    end in
  (parsed <- parseOptions options ;;
   Ok (bodyParserMiddleware (maxSize parsed)))%jsm.

End BodyParser.

End Ebp.

(* ===================================================================== *)
(** * index.ts over the body parser *)
(* ===================================================================== *)

(** The later [index.ts]: the body is materialized by [bodyParser()], and
    the continuation given to it resolves the query. *)
Module OverEbp.

Record Middleware : Type := mk_Middleware {
  parsedOptions : result ParsedOptions;
  bodyParserMiddleware : (Exchange -> Exchange) -> Exchange -> Exchange
}.

Record Construction : Type := mk_Construction {
  middleware : Middleware;
  console_error : list error
}.

Section Middleware.

Context {rt : Runtime}.

Definition persistedQueries (options : value) : result Construction :=
  (assert (nonNull options) OPTIONS_MISSING ;;;
   let parsedOptions := parseOptions options in
   let logged :=
     match parsedOptions with
     | Throw e => [e]
     | Ok _ => []
     end in
   bodyParserMiddleware <- Ebp.bodyParser VUndefined ;;
   Ok (mk_Construction (mk_Middleware parsedOptions bodyParserMiddleware)
         logged))%jsm.

(** The function handed to the body parser as its continuation. *)
Definition resolve (m : Middleware) (next : Exchange -> Exchange)
    (x : Exchange) : Exchange :=
  let attempt :=
    match parsedOptions m with
    | Throw e => (Throw e, x)
    | Ok options => resolve_and_delegate options next x
    end in
  match attempt with
  | (Ok _, x') => x'
  | (Throw e, x') => handle_failure e x'
  end.

Definition persistedQueriesMiddleware (m : Middleware)
    (next : Exchange -> Exchange) (x : Exchange) : Exchange :=
  bodyParserMiddleware m (resolve m next) x.

End Middleware.

End OverEbp.

(* ===================================================================== *)
(** * Fixtures for the examples *)
(* ===================================================================== *)

(** The platform on the inputs the examples use: the content-type parser
    on three headers (any other is taken as malformed), [JSON.parse] on one
    text (on any other it throws), [querystring.parse] on texts without
    repeated keys and without a leading question mark, and zlib on no
    input at all (every compressed stream is taken as corrupt). *)
Definition fixture_contentType_parse (header : jsstring)
  : result ParsedMediaType :=
  if jseqb header (js "application/json")
  then Ok (mk_ParsedMediaType CONTENT_TYPE_JSON [])
  else if jseqb header (js "application/json; charset=utf-18")
  then Ok (mk_ParsedMediaType CONTENT_TYPE_JSON [(js "charset", js "utf-18")])
  else if jseqb header (js "application/x-www-form-urlencoded")
  then Ok (mk_ParsedMediaType CONTENT_TYPE_FORM_URL_ENCODED [])
  else Throw (mk_error TypeError (js "invalid media type") None).

Definition missing_id_text : jsstring :=
  js "{" ++ dquote ++ js "queryId" ++ dquote ++ js ":"
  ++ dquote ++ js "missing" ++ dquote ++ js "}".

Definition fixture_JSON_parse (text : jsstring) : option value :=
  if jseqb text missing_id_text
  then Some (object_literal [(js "queryId", VStr (js "missing"))])
  else None.

Definition fixture_JSON_parse_error (text : jsstring) : error :=
  mk_error SyntaxError (js "Unexpected token in JSON") None.

Definition fixture_querystring_parse (text : jsstring) : value :=
  VObj (List.map (fun kv => (fst kv, VStr (snd kv)))
          (URLSearchParams (Some text))) [].

Definition fixture_zlib (input : Readable) : Readable :=
  mk_Readable [] (Some (js "incorrect header check")).

Definition fixture_runtime : Runtime := {|
  contentType_parse := fixture_contentType_parse;
  JSON_parse := fixture_JSON_parse;
  JSON_parse_error := fixture_JSON_parse_error;
  querystring_parse := fixture_querystring_parse;
  createInflate := fixture_zlib;
  createGunzip := fixture_zlib
|}.

(** The query map of the test suite, in part. *)
Definition fixture_queryMap : props :=
  [ (js "greetGuest", VStr (js "{ greet }"));
    (js "like", VStr (js "mutation LikeMutation { like }")) ].

Definition fixture_response : Response := mk_Response 200 [] None.

(** A request without a body stream of interest. *)
Definition fixture_request (target : jsstring) (b : value) : Request :=
  mk_Request target [] b (mk_Readable [] None) false.

Definition fixture_exchange (target : jsstring) (b : value) : Exchange :=
  mk_Exchange (fixture_request target b) fixture_response 0.

(** A form body of [2 + 3 * n] bytes and [2 + n] code units: [a=]
    followed by [n] times U+2665, three bytes each. *)
Definition heart : Buffer := [226; 153; 165]%N.

Definition hearts_payload (n : nat) : Buffer :=
  [97; 61]%N ++ List.concat (List.repeat heart n).

Definition hearts_text (n : nat) : jsstring :=
  [97; 61]%N ++ List.repeat 9829%N n.

Definition form_type : ParsedMediaType :=
  mk_ParsedMediaType CONTENT_TYPE_FORM_URL_ENCODED [].

Definition hearts_request (n : nat) : Request :=
  mk_Request (js "/graphql")
    [(js "content-type", js "application/x-www-form-urlencoded")]
    VUndefined (mk_Readable [hearts_payload n] None) false.

(** With 34133 hearts the body has 102401 bytes, one more than 100 KiB,
    and 34135 code units. *)
Definition oversized_payload : Buffer := hearts_payload (N.to_nat 34133).

Definition oversized_request : Request := hearts_request (N.to_nat 34133).

(* ===================================================================== *)
(** * The error envelope, as text *)
(* ===================================================================== *)

(** The number a string of decimal digits denotes. *)
Definition decimal_value (digits : jsstring) : N :=
  List.fold_left (fun n c => (10 * n + (c - 48))%N) digits 0%N.

(** The JSON text [{"errors":[{"message":<text>}]}], where [<text>] is the
    message as a JSON string. *)
Definition error_envelope (message : jsstring) : jsstring :=
  js "{" ++ dquote ++ js "errors" ++ dquote ++ js ":[{"
  ++ dquote ++ js "message" ++ dquote ++ js ":"
  ++ QuoteJSONString message ++ js "}]}".

(* ===================================================================== *)
(** * Further fixtures *)
(* ===================================================================== *)

(** The fixture platform with one more header known to the content-type
    parser: a GraphQL text declared with a charset the readers do not
    support. *)
Definition graphql_contentType_parse (header : jsstring)
  : result ParsedMediaType :=
  if jseqb header (js "application/graphql; charset=ascii")
  then Ok (mk_ParsedMediaType (js "application/graphql")
             [(js "charset", js "ascii")])
  else fixture_contentType_parse header.

Definition graphql_runtime : Runtime := {|
  contentType_parse := graphql_contentType_parse;
  JSON_parse := fixture_JSON_parse;
  JSON_parse_error := fixture_JSON_parse_error;
  querystring_parse := fixture_querystring_parse;
  createInflate := fixture_zlib;
  createGunzip := fixture_zlib
|}.

(** A request with headers and a body stream. *)
Definition stream_request (hs : list (jsstring * jsstring))
    (stream : Readable) : Request :=
  mk_Request (js "/graphql") hs VUndefined stream false.

(* ===================================================================== *)
(* ===================================================================== *)
(** * Properties *)
(* ===================================================================== *)
(* ===================================================================== *)

(** ** Strings and property lists *)

Lemma jseqb_refl (a : jsstring) : jseqb a a = true.
Proof.
  induction a as [|x a IH]; simpl; [reflexivity|].
  now rewrite N.eqb_refl, IH.
Qed.

Lemma jseqb_eq (a b : jsstring) : jseqb a b = true <-> a = b.
Proof.
  split.
  - revert b; induction a as [|x a IH]; intros [|y b]; simpl;
      try discriminate; [reflexivity|].
    intros H. apply andb_true_iff in H as [Hx Hab].
    apply N.eqb_eq in Hx. apply IH in Hab. now subst.
  - intros ->. apply jseqb_refl.
Qed.

Lemma jseqb_neq (a b : jsstring) : jseqb a b = false <-> a <> b.
Proof.
  split.
  - intros H E. apply jseqb_eq in E. congruence.
  - intros H. destruct (jseqb a b) eqn:E; [|reflexivity].
    apply jseqb_eq in E. contradiction.
Qed.

Lemma lookup_update_same {V : Type} (k : jsstring) (v : V) ps :
  lookup k (update k v ps) = Some v.
Proof.
  induction ps as [|[k' v'] ps IH]; simpl.
  - now rewrite jseqb_refl.
  - destruct (jseqb k k') eqn:E; simpl.
    + now rewrite jseqb_refl.
    + now rewrite E.
Qed.

Lemma lookup_update_other {V : Type} (k k' : jsstring) (v : V) ps :
  k <> k' -> lookup k (update k' v ps) = lookup k ps.
Proof.
  intros Hk. apply jseqb_neq in Hk.
  induction ps as [|[k0 v0] ps IH]; simpl.
  - now rewrite Hk.
  - destruct (jseqb k' k0) eqn:E; simpl.
    + apply jseqb_eq in E. subst k0. now rewrite Hk.
    + destruct (jseqb k k0); [reflexivity | exact IH].
Qed.

Lemma update_keys {V : Type} (k : jsstring) (v : V) ps :
  has_key k ps = true ->
  List.map fst (update k v ps) = List.map fst ps.
Proof.
  unfold has_key.
  induction ps as [|[k0 v0] ps IH]; simpl; [discriminate|].
  destruct (jseqb k k0) eqn:E; simpl.
  - apply jseqb_eq in E. now subst.
  - intros H. now rewrite IH.
Qed.

(** Boolean comparisons on [N] turned into propositions. *)
Ltac bool_to_prop :=
  repeat match goal with
         | H : (_ && _)%bool = true |- _ => apply andb_true_iff in H as [? ?]
         | H : (_ && _)%bool = false |- _ =>
             apply andb_false_iff in H; destruct H
         | H : (_ || _)%bool = true |- _ =>
             apply orb_true_iff in H; destruct H
         | H : (_ || _)%bool = false |- _ => apply orb_false_iff in H as [? ?]
         | H : negb _ = true |- _ => apply negb_true_iff in H
         | H : negb _ = false |- _ => apply negb_false_iff in H
         | H : (_ <=? _)%N = true |- _ => apply N.leb_le in H
         | H : (_ <=? _)%N = false |- _ => apply N.leb_gt in H
         | H : (_ <? _)%N = true |- _ => apply N.ltb_lt in H
         | H : (_ <? _)%N = false |- _ => apply N.ltb_ge in H
         | H : (_ =? _)%N = true |- _ => apply N.eqb_eq in H
         | H : (_ =? _)%N = false |- _ => apply N.eqb_neq in H
         end.

Ltac split_if :=
  match goal with
  | |- context [if ?b then _ else _] => destruct b eqn:?
  end;
  bool_to_prop; try lia.

(** Upper-casing a lower-cased string is upper-casing the string. *)
Lemma upper_lower_unit (c : codeunit) :
  upper_unit (lower_unit c) = upper_unit c.
Proof.
  unfold lower_unit.
  repeat split_if; unfold upper_unit; repeat split_if;
    try reflexivity; f_equal; lia.
Qed.

Lemma toUpperCase_toLowerCase (s : jsstring) :
  toUpperCase (toLowerCase s) = toUpperCase s.
Proof.
  unfold toUpperCase, toLowerCase.
  induction s as [|c s IH]; simpl; [reflexivity|].
  now rewrite upper_lower_unit, IH.
Qed.

(** [String(n)] denotes [n]. *)
Lemma digits_go_value (fuel : nat) :
  forall (n : N) (acc : jsstring),
    (n < 2 ^ N.of_nat fuel)%N ->
    List.fold_left (fun m c => (10 * m + (c - 48))%N) (digits_go fuel n acc) 0%N
    = List.fold_left (fun m c => (10 * m + (c - 48))%N) acc n.
Proof.
  induction fuel as [|fuel IH]; intros n acc Hn.
  - assert (n = 0%N) as -> by (change (2 ^ N.of_nat 0)%N with 1%N in Hn; lia).
    reflexivity.
  - cbn [digits_go].
    destruct (n <? 10)%N eqn:Hsmall.
    + apply N.ltb_lt in Hsmall. cbn [List.fold_left]. f_equal.
      rewrite N.mod_small by exact Hsmall. lia.
    + apply N.ltb_ge in Hsmall. rewrite IH.
      * cbn [List.fold_left]. f_equal.
        pose proof (N.div_mod n 10 ltac:(lia)) as Hdiv.
        revert Hdiv. generalize (n / 10)%N (n mod 10)%N. intros q r Hdiv.
        clear Hn. lia.
      * rewrite Nat2N.inj_succ, N.pow_succ_r' in Hn.
        apply N.Div0.div_lt_upper_bound. lia.
Qed.

Lemma decimal_value_String_of_N (n : N) :
  decimal_value (String_of_N n) = n.
Proof.
  unfold decimal_value, String_of_N.
  rewrite digits_go_value; [reflexivity|].
  rewrite Nat2N.inj_succ, N2Nat.id.
  destruct n as [|p]; [reflexivity|].
  apply N.log2_spec. lia.
Qed.

(** ** get-stream *)

(** In buffer mode the outcome depends on the total number of bytes only,
    whatever the chunking. *)
Lemma getStream_buffer_from_within (maxBuffer : Z) (cs : list Buffer) :
  forall buffered,
    (Z.of_nat (List.length buffered + List.length (List.concat cs)) <= maxBuffer)%Z ->
    getStream_buffer_from maxBuffer buffered cs None
    = Resolved (buffered ++ List.concat cs).
Proof.
  induction cs as [|c cs IH]; intros buffered Hle; simpl in *.
  - now rewrite app_nil_r.
  - rewrite length_app in Hle.
    replace (maxBuffer <? Z.of_nat (List.length (buffered ++ c)))%Z with false.
    + rewrite andb_false_r, IH, <- app_assoc; [reflexivity|].
      rewrite length_app. lia.
    + symmetry. apply Z.ltb_ge. rewrite length_app. lia.
Qed.

Lemma getStream_buffer_from_exceeded (maxBuffer : Z) (cs : list Buffer) :
  forall buffered fail_,
    (Z.of_nat (List.length buffered) <= maxBuffer)%Z ->
    (maxBuffer < Z.of_nat (List.length buffered + List.length (List.concat cs)))%Z ->
    getStream_buffer_from maxBuffer buffered cs fail_ = MaxBufferError.
Proof.
  induction cs as [|c cs IH]; intros buffered fail_ Hin Hout; simpl in *.
  - lia.
  - rewrite length_app in Hout.
    destruct (maxBuffer <? Z.of_nat (List.length (buffered ++ c)))%Z eqn:E.
    + destruct c as [|b c]; simpl.
      * rewrite app_nil_r in E. apply Z.ltb_lt in E. lia.
      * reflexivity.
    + rewrite andb_false_r. apply Z.ltb_ge in E.
      apply IH; [exact E|]. rewrite length_app. lia.
Qed.

(** ** The body parser measures bytes *)

Section EbpReadRawBody.

Context {rt : Runtime}.

Variables (contentTypeInfo : ParsedMediaType) (maxSize : Z) (req : Request).
Variable stream : Readable.

Hypothesis charset_supported :
  Ebp.isCharsetSupported (charset_of contentTypeInfo) = true.
Hypothesis decompressed :
  Ebp.getDecompressedStream req (encoding_of req) = Ok stream.

(** A decoded body of at most [maxSize] bytes is read and decoded. *)
Lemma Ebp_readRawBody_within :
  failure stream = None ->
  (Z.of_nat (List.length (List.concat (chunks stream))) <= maxSize)%Z ->
  Ebp.readRawBody contentTypeInfo maxSize req
  = (Ok (Buffer_toString (List.concat (chunks stream))
           (charset_of contentTypeInfo)),
     set_flowing req).
Proof.
  intros Hend Hle. unfold Ebp.readRawBody.
  rewrite charset_supported, decompressed. simpl.
  unfold getStream_buffer. rewrite Hend.
  now rewrite getStream_buffer_from_within.
Qed.

(** A decoded body of more than [maxSize] bytes is a 413 failure,
    whatever its text and however the stream ends. *)
Lemma Ebp_readRawBody_exceeded :
  (0 <= maxSize)%Z ->
  (maxSize < Z.of_nat (List.length (List.concat (chunks stream))))%Z ->
  Ebp.readRawBody contentTypeInfo maxSize req
  = (Throw (httpError HTTP_STATUS_PAYLOAD_TOO_LARGE BODY_TOO_LARGE),
     set_flowing req).
Proof.
  intros Hpos Hgt. unfold Ebp.readRawBody.
  rewrite charset_supported, decompressed. simpl.
  unfold getStream_buffer.
  now rewrite getStream_buffer_from_exceeded.
Qed.

End EbpReadRawBody.

(** The default ceiling of the body parser is 100 KiB. *)
Lemma Ebp_default_maxSize :
  Ebp.parseOptions (object_literal []) = Ok (Ebp.mk_ParsedOptions 102400).
Proof. reflexivity. Qed.

(** ** The text of the hearts payload *)

Lemma utf8_write_heart (tail : Buffer) :
  utf8_write None (226 :: 153 :: 165 :: tail)%N
  = (9829%N :: fst (utf8_write None tail), snd (utf8_write None tail)).
Proof.
  simpl. now destruct (utf8_write None tail).
Qed.

Lemma utf8_write_ascii (b : byte) (tail : Buffer) :
  (b <= 127)%N ->
  utf8_write None (b :: tail)
  = (b :: fst (utf8_write None tail), snd (utf8_write None tail)).
Proof.
  intros Hb. simpl. unfold utf8_lead.
  apply N.leb_le in Hb. rewrite Hb.
  now destruct (utf8_write None tail).
Qed.

Lemma utf8_write_hearts (n : nat) :
  utf8_write None (List.concat (List.repeat heart n))
  = (List.repeat 9829%N n, None).
Proof.
  induction n as [|n IH]; [reflexivity|].
  change (List.concat (List.repeat heart (S n)))
    with (226 :: 153 :: 165 :: List.concat (List.repeat heart n))%N.
  now rewrite utf8_write_heart, IH.
Qed.

Lemma utf8_write_hearts_payload (n : nat) :
  utf8_write None (hearts_payload n) = (hearts_text n, None).
Proof.
  unfold hearts_payload, hearts_text.
  change ([97; 61]%N ++ List.concat (List.repeat heart n))
    with (97 :: 61 :: List.concat (List.repeat heart n))%N.
  rewrite !utf8_write_ascii by lia.
  now rewrite utf8_write_hearts.
Qed.

Lemma hearts_payload_length (n : nat) :
  List.length (hearts_payload n) = (2 + 3 * n)%nat.
Proof.
  unfold hearts_payload. simpl. f_equal. f_equal.
  induction n as [|n IH]; simpl; [reflexivity | rewrite IH; lia].
Qed.

Lemma hearts_text_length (n : nat) :
  List.length (hearts_text n) = (2 + n)%nat.
Proof.
  unfold hearts_text. simpl. now rewrite repeat_length.
Qed.

Section HeartsRequests.

Context {rt : Runtime}.

(** The reader of parseRequestBodyIfNecessary.ts accepts the payload as
    long as its number of code units is within 100 KiB. *)
Lemma readRawBody_hearts (n : nat) :
  (Z.of_nat (2 + n) <= 102400)%Z ->
  readRawBody (hearts_request n) form_type
  = (Ok (hearts_text n), set_flowing (hearts_request n)).
Proof.
  intros Hle. unfold readRawBody.
  change (isCharsetSupported (charset_of form_type)) with true.
  change (encoding_of (hearts_request n)) with (js "identity").
  change (getStreamFromRequest (hearts_request n) (js "identity"))
    with (Ok (readable (hearts_request n))).
  cbv beta iota delta [negb].
  unfold getStream_text.
  change (StringDecoder_new (charset_of form_type)) with (Utf8Decoder None).
  change (chunks (readable (hearts_request n))) with [hearts_payload n].
  change (failure (readable (hearts_request n))) with (@None jsstring).
  unfold getStream_text_from, StringDecoder_write.
  rewrite utf8_write_hearts_payload.
  cbv beta iota. rewrite app_nil_l.
  replace ((MAX_BUFFER_SIZE_KIB * UNIT_KIB
            <? Z.of_nat (List.length (hearts_text n)))%Z) with false.
  - rewrite andb_false_r. simpl. now rewrite app_nil_r.
  - symmetry. apply Z.ltb_ge. rewrite hearts_text_length.
    change (MAX_BUFFER_SIZE_KIB * UNIT_KIB)%Z with 102400%Z. lia.
Qed.

(** The reader of the body parser rejects it as soon as its number of bytes
    exceeds the ceiling. *)
Lemma Ebp_readRawBody_hearts (n : nat) (maxSize : Z) :
  (0 <= maxSize < Z.of_nat (2 + 3 * n))%Z ->
  Ebp.readRawBody form_type maxSize (hearts_request n)
  = (Throw (httpError HTTP_STATUS_PAYLOAD_TOO_LARGE BODY_TOO_LARGE),
     set_flowing (hearts_request n)).
Proof.
  intros [Hpos Hlt].
  apply Ebp_readRawBody_exceeded with (stream := readable (hearts_request n));
    try reflexivity; try assumption.
  change (List.concat (chunks (readable (hearts_request n))))
    with (hearts_payload n ++ []).
  rewrite app_nil_r, hearts_payload_length. exact Hlt.
Qed.

End HeartsRequests.

(** ** The older reader measures code units *)

(** Decoding chunk by chunk is decoding the concatenation. *)
Lemma utf8_write_app (a b : Buffer) :
  forall st,
    utf8_write st (a ++ b)
    = (fst (utf8_write st a) ++ fst (utf8_write (snd (utf8_write st a)) b),
       snd (utf8_write (snd (utf8_write st a)) b)).
Proof.
  induction a as [|x a IH]; intros st.
  - simpl. now destruct (utf8_write st b).
  - simpl. destruct st as [p|].
    + destruct ((pending_lower p <=? x)%N && (x <=? pending_upper p)%N).
      * destruct (pending_needed p) as [|[|n]].
        -- rewrite IH. destruct (utf8_write None a). simpl.
           now rewrite <- app_assoc.
        -- rewrite IH. destruct (utf8_write None a). simpl.
           now rewrite <- app_assoc.
        -- now rewrite IH.
      * destruct (utf8_lead x) as [out st']. rewrite IH.
        destruct (utf8_write st' a). simpl. now rewrite <- app_assoc.
    + destruct (utf8_lead x) as [out st']. rewrite IH.
      destruct (utf8_write st' a). simpl. now rewrite <- app_assoc.
Qed.

(** In text mode with a UTF-8 decoder the outcome depends on the number of
    code units of the decoded text only, whatever the chunking. *)
Lemma getStream_text_from_utf8_within (maxBuffer : Z) (cs : list Buffer) :
  forall st buffered,
    (Z.of_nat
       (List.length
          (buffered ++ fst (utf8_write st (List.concat cs))
           ++ utf8_end (snd (utf8_write st (List.concat cs)))))
     <= maxBuffer)%Z ->
    getStream_text_from maxBuffer (Utf8Decoder st) buffered cs None
    = Resolved
        (buffered ++ fst (utf8_write st (List.concat cs))
         ++ utf8_end (snd (utf8_write st (List.concat cs)))).
Proof.
  induction cs as [|c cs IH]; intros st buffered Hle.
  - simpl in *.
    replace (maxBuffer <? Z.of_nat (List.length (buffered ++ utf8_end st)))%Z
      with false; [now rewrite andb_false_r|].
    symmetry. apply Z.ltb_ge. exact Hle.
  - simpl List.concat in *. rewrite utf8_write_app in Hle |- *.
    simpl fst in *. simpl snd in *.
    simpl getStream_text_from.
    destruct (utf8_write st c) as [out st'] eqn:Hc. simpl fst in *.
    simpl snd in *. rewrite <- !app_assoc in Hle.
    replace (maxBuffer <? Z.of_nat (List.length (buffered ++ out)))%Z
      with false.
    + rewrite andb_false_r. rewrite IH.
      * now rewrite <- !app_assoc.
      * now rewrite <- !app_assoc.
    + symmetry. apply Z.ltb_ge. rewrite !length_app in *. lia.
Qed.

Lemma getStream_text_from_utf8_exceeded (maxBuffer : Z) (cs : list Buffer) :
  forall st buffered,
    (Z.of_nat (List.length buffered) <= maxBuffer)%Z ->
    (maxBuffer
     < Z.of_nat
         (List.length
            (buffered ++ fst (utf8_write st (List.concat cs))
             ++ utf8_end (snd (utf8_write st (List.concat cs))))))%Z ->
    getStream_text_from maxBuffer (Utf8Decoder st) buffered cs None
    = MaxBufferError.
Proof.
  induction cs as [|c cs IH]; intros st buffered Hin Hout.
  - simpl in *.
    destruct (utf8_end st) as [|u out] eqn:Hend.
    + rewrite app_nil_r in Hout. lia.
    + simpl. apply Z.ltb_lt in Hout. now rewrite Hout.
  - simpl List.concat in *. rewrite utf8_write_app in Hout.
    simpl fst in *. simpl snd in *.
    simpl getStream_text_from.
    destruct (utf8_write st c) as [out st'] eqn:Hc. simpl fst in *.
    simpl snd in *. rewrite <- !app_assoc in Hout.
    destruct (negb (is_empty out)
              && (maxBuffer <? Z.of_nat (List.length (buffered ++ out)))%Z)
      eqn:Hcross; [reflexivity|].
    apply IH.
    + apply andb_false_iff in Hcross as [Hempty | Hwithin].
      * destruct out; [|discriminate]. now rewrite app_nil_r.
      * now apply Z.ltb_ge in Hwithin.
    + now rewrite <- !app_assoc.
Qed.

Section ReadRawBodyText.

Context {rt : Runtime}.

Variables (request : Request) (contentTypeInfo : ParsedMediaType).
Variable stream : Readable.

Hypothesis charset_utf8 :
  charset_of contentTypeInfo = js "utf-8"
  \/ charset_of contentTypeInfo = js "utf8".
Hypothesis stream_of_request :
  getStreamFromRequest request (encoding_of request) = Ok stream.
Hypothesis stream_ends : failure stream = None.

(** For a UTF-8 body the ceiling of the reader of
    parseRequestBodyIfNecessary.ts is on the code units of the text. *)
Lemma readRawBody_code_unit_ceiling :
  let text := utf8_decode (List.concat (chunks stream)) in
  ((Z.of_nat (List.length text) <= MAX_BUFFER_SIZE_KIB * UNIT_KIB)%Z ->
   readRawBody request contentTypeInfo = (Ok text, set_flowing request))
  /\
  ((MAX_BUFFER_SIZE_KIB * UNIT_KIB < Z.of_nat (List.length text))%Z ->
   readRawBody request contentTypeInfo
   = (Throw (httpError HTTP_STATUS_PAYLOAD_TOO_LARGE BODY_TOO_LARGE),
      set_flowing request)).
Proof.
  assert (Hsupported : isCharsetSupported (charset_of contentTypeInfo) = true).
  { destruct charset_utf8 as [-> | ->]; reflexivity. }
  assert (Hdecoder :
    StringDecoder_new (charset_of contentTypeInfo) = Utf8Decoder None).
  { destruct charset_utf8 as [-> | ->]; reflexivity. }
  assert (Htext :
    utf8_decode (List.concat (chunks stream))
    = [] ++ fst (utf8_write None (List.concat (chunks stream)))
      ++ utf8_end (snd (utf8_write None (List.concat (chunks stream))))).
  { unfold utf8_decode.
    now destruct (utf8_write None (List.concat (chunks stream))). }
  cbv zeta. unfold readRawBody.
  rewrite Hsupported, stream_of_request. simpl negb. cbv iota.
  unfold getStream_text. rewrite Hdecoder, stream_ends, Htext.
  split; intros Hsize.
  - now rewrite getStream_text_from_utf8_within.
  - rewrite getStream_text_from_utf8_exceeded; [reflexivity | | exact Hsize].
    change (MAX_BUFFER_SIZE_KIB * UNIT_KIB)%Z with 102400%Z. simpl. lia.
Qed.

End ReadRawBodyText.

(** On the fixture platform the whole materialization of the hearts
    request succeeds as long as the code units are within 100 KiB. *)
Lemma parseRequestBodyIfNecessary_hearts (n : nat) :
  (Z.of_nat (2 + n) <= 102400)%Z ->
  parseRequestBodyIfNecessary (rt := fixture_runtime) (hearts_request n)
  = (Ok tt,
     set_body (set_flowing (hearts_request n))
       (fixture_querystring_parse (hearts_text n))).
Proof.
  intros Hle. unfold parseRequestBodyIfNecessary.
  change (nonNull (body (hearts_request n))) with false.
  change (lookup (js "content-type") (headers (hearts_request n)))
    with (Some (js "application/x-www-form-urlencoded")).
  cbv beta iota.
  change (@contentType_parse fixture_runtime
            (js "application/x-www-form-urlencoded"))
    with (Ok form_type).
  cbv beta iota.
  change (jseqb (type form_type) CONTENT_TYPE_JSON) with false.
  change (jseqb (type form_type) CONTENT_TYPE_FORM_URL_ENCODED) with true.
  cbv beta iota.
  now rewrite readRawBody_hearts.
Qed.

(** C1 (the code at the failing input).  The form body [a=] followed by
    34133 hearts has 102401 bytes, one more than the ceiling of 100 KiB,
    and 34135 code units.  The reader of parseRequestBodyIfNecessary.ts
    counts code units: it returns the text and the materialization
    succeeds, where a measure in bytes gives 413.  The reader of the body
    parser counts bytes and fails with 413 "Request body too large." on the
    same request. *)
Theorem readRawBody_measures_code_units :
  forall rt : Runtime,
    Z.of_nat (List.length oversized_payload)
    = (MAX_BUFFER_SIZE_KIB * UNIT_KIB + 1)%Z /\
    readRawBody oversized_request form_type
    = (Ok (hearts_text (N.to_nat 34133)), set_flowing oversized_request) /\
    fst (parseRequestBodyIfNecessary (rt := fixture_runtime) oversized_request)
    = Ok tt /\
    Ebp.readRawBody form_type (100 * UNIT_KIB) oversized_request
    = (Throw (httpError HTTP_STATUS_PAYLOAD_TOO_LARGE BODY_TOO_LARGE),
       set_flowing oversized_request).
Proof.
  intros rt. unfold oversized_payload, oversized_request.
  split; [|split; [|split]].
  - rewrite hearts_payload_length.
    change (MAX_BUFFER_SIZE_KIB * UNIT_KIB + 1)%Z with 102401%Z. lia.
  - apply readRawBody_hearts. lia.
  - rewrite parseRequestBodyIfNecessary_hearts by lia. reflexivity.
  - apply Ebp_readRawBody_hearts.
    change (100 * UNIT_KIB)%Z with 102400%Z. lia.
Qed.

(** The difference on a small scale: two hearts are six bytes and two code
    units; with a ceiling of five, buffer mode rejects and text mode
    resolves. *)
Example getStream_modes_differ :
  getStream_buffer (mk_Readable [heart; heart] None) 5 = MaxBufferError /\
  getStream_text (mk_Readable [heart; heart] None) (js "utf-8") 5
  = Resolved [9829; 9829]%N.
Proof. split; reflexivity. Qed.

(** ** Unsupported charsets *)

Lemma isCharsetSupported_false (charset : jsstring) :
  charset <> js "utf-8" -> charset <> js "utf8" -> charset <> js "utf16le" ->
  isCharsetSupported charset = false /\ Ebp.isCharsetSupported charset = false.
Proof.
  intros H1 H2 H3. apply jseqb_neq in H1, H2, H3.
  unfold isCharsetSupported, Ebp.isCharsetSupported.
  now rewrite H1, H2, H3.
Qed.

Lemma statusCode_of_httpError (status : Z) (message : jsstring) :
  status_accepted status = true ->
  statusCode_of (httpError status message) = status.
Proof.
  intros H. unfold httpError, statusCode_of, normalize_status. simpl.
  now rewrite H.
Qed.

Section UnsupportedCharset.

Context {rt : Runtime}.

(** C5.  When the charset parameter of a request, lower-cased, is none of
    utf-8, utf8, utf16le, reading the body fails with status 415 and the
    message [Unsupported charset "<TOKEN>".] with the token in upper case,
    and the request is left as it was: its stream has not been put to flow.
    This holds for the reader of parseRequestBodyIfNecessary.ts, for the
    reader of the body parser whatever the ceiling, and for the
    materialization of a request with a JSON or form-urlencoded type. *)
Theorem unsupported_charset_rejected_before_reading :
  forall (req : Request) (contentTypeInfo : ParsedMediaType) (token : jsstring),
    lookup (js "charset") (parameters contentTypeInfo) = Some token ->
    toLowerCase token <> js "utf-8" ->
    toLowerCase token <> js "utf8" ->
    toLowerCase token <> js "utf16le" ->
    forall failure415,
      failure415
      = httpError 415
          (js "Unsupported charset " ++ dquote ++ toUpperCase token ++ dquote
           ++ js ".") ->
      statusCode_of failure415 = 415%Z /\
      readRawBody req contentTypeInfo = (Throw failure415, req) /\
      (forall maxSize,
          Ebp.readRawBody contentTypeInfo maxSize req = (Throw failure415, req)) /\
      (forall header,
          nonNull (body req) = false ->
          lookup (js "content-type") (headers req) = Some header ->
          contentType_parse header = Ok contentTypeInfo ->
          type contentTypeInfo = CONTENT_TYPE_JSON
          \/ type contentTypeInfo = CONTENT_TYPE_FORM_URL_ENCODED ->
          parseRequestBodyIfNecessary req = (Throw failure415, req)).
Proof.
  intros req cti token Hcharset H1 H2 H3 failure415 ->.
  destruct (isCharsetSupported_false H1 H2 H3) as [Hmain Hebp].
  assert (Hread :
    readRawBody req cti
    = (Throw (httpError 415
                (js "Unsupported charset " ++ dquote ++ toUpperCase token
                 ++ dquote ++ js ".")), req)).
  { unfold readRawBody, charset_of. rewrite Hcharset, Hmain. simpl.
    unfold UNSUPPORTED_CHARSET. now rewrite toUpperCase_toLowerCase. }
  split; [reflexivity|]. split; [exact Hread|]. split.
  - intros maxSize. unfold Ebp.readRawBody, charset_of.
    rewrite Hcharset, Hebp. simpl.
    unfold UNSUPPORTED_CHARSET. now rewrite toUpperCase_toLowerCase.
  - intros header Hnull Hheader Hparse Htype.
    unfold parseRequestBodyIfNecessary.
    rewrite Hnull, Hheader, Hparse.
    destruct Htype as [-> | ->].
    + rewrite jseqb_refl. now rewrite Hread.
    + change (jseqb CONTENT_TYPE_FORM_URL_ENCODED CONTENT_TYPE_JSON) with false.
      rewrite jseqb_refl. now rewrite Hread.
Qed.

End UnsupportedCharset.

(** The request of the test suite: a JSON body declared with
    [charset=utf-18]. *)
Lemma unsupported_charset_witness :
  let req :=
    mk_Request (js "/graphql")
      [(js "content-type", js "application/json; charset=utf-18")]
      VUndefined (mk_Readable [missing_id_text] None) false in
  let failure415 :=
    httpError 415
      (js "Unsupported charset " ++ dquote ++ js "UTF-18" ++ dquote ++ js ".") in
  readRawBody (rt := fixture_runtime) req
    (mk_ParsedMediaType CONTENT_TYPE_JSON [(js "charset", js "utf-18")])
  = (Throw failure415, req)
  /\ parseRequestBodyIfNecessary (rt := fixture_runtime) req
     = (Throw failure415, req).
Proof.
  intros req failure415.
  destruct (@unsupported_charset_rejected_before_reading fixture_runtime req
              (mk_ParsedMediaType CONTENT_TYPE_JSON [(js "charset", js "utf-18")])
              (js "utf-18") eq_refl
              ltac:(discriminate) ltac:(discriminate) ltac:(discriminate)
              failure415 eq_refl)
    as (_ & Hread & _ & Hparse).
  split; [exact Hread|].
  apply (Hparse (js "application/json; charset=utf-18"));
    [reflexivity | reflexivity | reflexivity | left; reflexivity].
Defined.

(** ** Materialization that has nothing to do *)

Section NoOp.

Context {rt : Runtime}.

Lemma parseRequestBodyIfNecessary_skips (request : Request) :
  nonNull (body request) = true
  \/ lookup (js "content-type") (headers request) = None ->
  parseRequestBodyIfNecessary request = (Ok tt, request).
Proof.
  intros Hskip. unfold parseRequestBodyIfNecessary.
  destruct Hskip as [Hbody | Hheader].
  - now rewrite Hbody.
  - rewrite Hheader. now destruct (nonNull (body request)).
Qed.

(** Once a materialization has left a non-null body, a second one is a
    no-op. *)
Lemma parseRequestBodyIfNecessary_twice (request request' : Request) :
  parseRequestBodyIfNecessary request = (Ok tt, request') ->
  nonNull (body request') = true ->
  parseRequestBodyIfNecessary request' = (Ok tt, request').
Proof.
  intros _ Hbody. apply parseRequestBodyIfNecessary_skips. now left.
Qed.

(** C8.  For a request whose body slot is already non-null, and for a
    request without a Content-Type header, parseRequestBodyIfNecessary
    returns with the request exactly as it was: same body, stream not put
    to flow.  Running it again changes nothing either.  The body parser
    does the same and hands the untouched exchange to its continuation. *)
Theorem parseRequestBodyIfNecessary_noop :
  forall request : Request,
    nonNull (body request) = true
    \/ lookup (js "content-type") (headers request) = None ->
    parseRequestBodyIfNecessary request = (Ok tt, request) /\
    parseRequestBodyIfNecessary (snd (parseRequestBodyIfNecessary request))
    = parseRequestBodyIfNecessary request /\
    (forall maxSize next x,
        req x = request ->
        Ebp.parse_body maxSize next x = (Ok tt, next x)).
Proof.
  intros request Hskip.
  pose proof (parseRequestBodyIfNecessary_skips request Hskip) as Hnoop.
  split; [exact Hnoop|]. split.
  - now rewrite Hnoop.
  - intros maxSize next x <-. unfold Ebp.parse_body.
    destruct Hskip as [Hbody | Hheader].
    + now rewrite Hbody.
    + rewrite Hheader. now destruct (nonNull (body (req x))).
Qed.

End NoOp.

(** A JSON request whose body an earlier middleware has parsed. *)
Lemma parseRequestBodyIfNecessary_noop_witness :
  let req :=
    mk_Request (js "/graphql") [(js "content-type", js "application/json")]
      (object_literal [(js "queryId", VStr (js "greetGuest"))])
      (mk_Readable [missing_id_text] None) false in
  nonNull (body req) = true /\
  parseRequestBodyIfNecessary (rt := fixture_runtime) req = (Ok tt, req).
Proof.
  intros req. split; [reflexivity|].
  apply (@parseRequestBodyIfNecessary_noop fixture_runtime req).
  left. reflexivity.
Defined.

(** ** Resolution of the query id *)

(** Past the strict-mode guards, with a string for the query id, the
    outcome is decided by the lookup alone. *)
Lemma getPersistedQuery_lookup (queryIdKey : jsstring) (queryMap : LooseQueryMap)
    (request : Request) (strict : bool) (queryId : jsstring) :
  strict && searchParams_has (searchParams_of request) (js "query") = false ->
  strict && isObject (body request)
    && has_property (js "query") (body request) = false ->
  queryId_of queryIdKey request = VStr queryId ->
  getPersistedQuery queryIdKey queryMap request strict
  = bind (lookup_persistedQuery queryMap queryId)
      (fun persistedQuery =>
         match persistedQuery with
         | VStr text => Ok (Some text)
         | _ => Throw (httpError HTTP_STATUS_BAD_REQUEST
                         (QUERY_ID_NOT_FOUND queryId))
         end).
Proof.
  intros Hsearch Hbody Hid. unfold getPersistedQuery.
  now rewrite Hsearch, Hbody, Hid.
Qed.

(** C2.  With a table for the query map and a query id that is not an own
    property of the table, getPersistedQuery fails with status 400 and the
    message [The provided query ID "<id>" did not match any persisted
    query.], whatever the table inherits under that name. *)
Theorem table_lookup_ignores_inherited :
  forall (queryIdKey : jsstring) (own inherited : props) (request : Request)
         (strict : bool) (queryId : jsstring),
    strict && searchParams_has (searchParams_of request) (js "query") = false ->
    strict && isObject (body request)
      && has_property (js "query") (body request) = false ->
    queryId_of queryIdKey request = VStr queryId ->
    hasOwnProperty (VObj own inherited) queryId = false ->
    getPersistedQuery queryIdKey (QueryMapTable own inherited) request strict
    = Throw (httpError 400
               (js "The provided query ID " ++ dquote ++ queryId ++ dquote
                ++ js " did not match any persisted query."))
    /\ statusCode_of
         (httpError 400
            (js "The provided query ID " ++ dquote ++ queryId ++ dquote
             ++ js " did not match any persisted query.")) = 400%Z.
Proof.
  intros queryIdKey own inherited request strict queryId Hs Hb Hid Hown.
  split; [|reflexivity].
  rewrite (getPersistedQuery_lookup _ _ _ _ Hs Hb Hid).
  unfold lookup_persistedQuery. now rewrite Hown.
Qed.

(** The request of the test suite: the id [toString], which every plain
    object inherits as a function. *)
Lemma table_lookup_ignores_inherited_witness :
  let request :=
    fixture_request (js "/graphql")
      (object_literal [(js "queryId", VStr (js "toString"))]) in
  get (VObj fixture_queryMap ObjectPrototype) (js "toString") = native /\
  hasOwnProperty (VObj fixture_queryMap ObjectPrototype) (js "toString") = false /\
  getPersistedQuery (js "queryId") (QueryMapTable fixture_queryMap ObjectPrototype)
    request false
  = Throw (httpError 400
             (js "The provided query ID " ++ dquote ++ js "toString" ++ dquote
              ++ js " did not match any persisted query.")).
Proof.
  intros request. split; [reflexivity|]. split; [reflexivity|].
  apply (table_lookup_ignores_inherited (js "queryId") fixture_queryMap
           ObjectPrototype request false (queryId := js "toString"));
    reflexivity.
Defined.

(** C3.  In strict mode getPersistedQuery first fails with status 400 and
    [Search params have "query" but only persisted queries are allowed.]
    when the search params have a [query] key; otherwise it fails with
    status 400 and [Request body has "query" but only persisted queries are
    allowed.] when the body is an object with a [query] key.  Neither
    outcome depends on the query id key, on the query map or on a query id
    being present; when both violations are present the first one is
    reported. *)
Theorem strict_guards_in_order :
  forall (queryIdKey : jsstring) (queryMap : LooseQueryMap) (request : Request),
    (searchParams_has (searchParams_of request) (js "query") = true ->
     getPersistedQuery queryIdKey queryMap request true
     = Throw (httpError 400
                (js "Search params have " ++ dquote ++ js "query" ++ dquote
                 ++ js " but only persisted queries are allowed.")))
    /\
    (searchParams_has (searchParams_of request) (js "query") = false ->
     isObject (body request) = true ->
     has_property (js "query") (body request) = true ->
     getPersistedQuery queryIdKey queryMap request true
     = Throw (httpError 400
                (js "Request body has " ++ dquote ++ js "query" ++ dquote
                 ++ js " but only persisted queries are allowed."))).
Proof.
  intros queryIdKey queryMap request. unfold getPersistedQuery. split.
  - intros Hsearch. now rewrite Hsearch.
  - intros Hsearch Hobj Hquery. now rewrite Hsearch, Hobj, Hquery.
Qed.

(** Query text in the search params and in the body, next to a valid query
    id: the search params are reported.  Query text in the body only, next
    to a valid query id in the search params: the body is reported. *)
Lemma strict_guards_in_order_witness :
  let table := QueryMapTable fixture_queryMap ObjectPrototype in
  let both :=
    fixture_request (js "/graphql?query=%7B+greet+%7D&queryId=greetGuest")
      (object_literal [(js "query", VStr (js "{ greet }"))]) in
  let body_only :=
    fixture_request (js "/graphql?queryId=greetGuest")
      (object_literal [(js "query", VStr (js "{ greet }"))]) in
  getPersistedQuery (js "queryId") table both true
  = Throw (httpError 400
             (js "Search params have " ++ dquote ++ js "query" ++ dquote
              ++ js " but only persisted queries are allowed."))
  /\ getPersistedQuery (js "queryId") table body_only true
     = Throw (httpError 400
                (js "Request body has " ++ dquote ++ js "query" ++ dquote
                 ++ js " but only persisted queries are allowed."))
  /\ getPersistedQuery (js "queryId") table body_only false
     = Ok (Some (js "{ greet }")).
Proof.
  intros table both body_only. split; [|split].
  - apply (proj1 (strict_guards_in_order (js "queryId") table both)).
    reflexivity.
  - apply (proj2 (strict_guards_in_order (js "queryId") table body_only));
      reflexivity.
  - reflexivity.
Defined.

(** ** The error response *)

Lemma JSON_stringify_error_result (e : error) :
  JSON_stringify (error_result e) = error_envelope (err_message e).
Proof.
  unfold error_envelope. simpl. now rewrite <- !app_assoc.
Qed.

Lemma JSON_stringify_Ebp_error_result (e : error) :
  JSON_stringify (Ebp.error_result e) = error_envelope (err_message e).
Proof.
  unfold error_envelope. simpl. now rewrite <- !app_assoc.
Qed.

(** What [sendJson] leaves on the response. *)
Lemma sendJson_response (response : Response) (payload : json) :
  let buffer := utf8_encode (JSON_stringify payload) in
  statusCode (sendJson response payload) = statusCode response /\
  getHeader (sendJson response payload) (js "Content-Type")
  = Some (js "application/json; charset=utf-8") /\
  getHeader (sendJson response payload) (js "Content-Length")
  = Some (String_of_N (N.of_nat (List.length buffer))) /\
  sent (sendJson response payload) = Some buffer.
Proof.
  unfold sendJson, getHeader, setHeader, res_end. simpl res_headers.
  change (toLowerCase (js "Content-Type")) with (js "content-type").
  change (toLowerCase (js "Content-Length")) with (js "content-length").
  repeat split.
  - rewrite lookup_update_other by discriminate.
    now rewrite lookup_update_same.
  - now rewrite lookup_update_same.
Qed.

(** The status [httpError(500, error)] settles on. *)
Lemma statusCode_of_httpError_of (e : error) :
  statusCode_of (httpError_of HTTP_STATUS_INTERNAL_SERVER_ERROR e)
  = match err_status e with
    | Some s => if (s =? 0)%Z then 500%Z else normalize_status s
    | None => 500%Z
    end.
Proof.
  unfold httpError_of, statusCode_of. simpl.
  destruct (err_status e) as [s|]; [|reflexivity].
  now destruct (s =? 0)%Z.
Qed.

(** The exchange after the [catch] block. *)
Lemma handle_failure_response (e : error) (x : Exchange) :
  let y := handle_failure e x in
  let buffer := utf8_encode (error_envelope (err_message e)) in
  req y = req x /\
  next_calls y = next_calls x /\
  statusCode (res y)
  = statusCode_of (httpError_of HTTP_STATUS_INTERNAL_SERVER_ERROR e) /\
  getHeader (res y) (js "Content-Type")
  = Some (js "application/json; charset=utf-8") /\
  getHeader (res y) (js "Content-Length")
  = Some (String_of_N (N.of_nat (List.length buffer))) /\
  sent (res y) = Some buffer.
Proof.
  unfold handle_failure. cbv zeta. simpl req. simpl next_calls. simpl res.
  split; [reflexivity|]. split; [reflexivity|].
  pose proof (sendJson_response
                (set_statusCode (res x)
                   (statusCode_of
                      (httpError_of HTTP_STATUS_INTERNAL_SERVER_ERROR e)))
                (error_result
                   (httpError_of HTTP_STATUS_INTERNAL_SERVER_ERROR e)))
    as (Hstatus & Htype & Hlength & Hsent).
  rewrite JSON_stringify_error_result in Hlength, Hsent.
  change (err_message (httpError_of HTTP_STATUS_INTERNAL_SERVER_ERROR e))
    with (err_message e) in Hlength, Hsent.
  exact (conj Hstatus (conj Htype (conj Hlength Hsent))).
Qed.

(** ** Objects under assignment *)

Lemma get_set_same (o : value) (k : jsstring) (v : value) :
  isObject o = true -> get (set o k v) k = v.
Proof.
  destruct o; try discriminate; intros _; unfold get; simpl;
    now rewrite lookup_update_same.
Qed.

Lemma get_set_other (o : value) (k k' : jsstring) (v : value) :
  k <> k' -> get (set o k' v) k = get o k.
Proof.
  intros Hk. destruct o; try reflexivity; unfold get; simpl;
    now rewrite lookup_update_other.
Qed.

Lemma hasOwnProperty_set_same (o : value) (k : jsstring) (v : value) :
  isObject o = true -> hasOwnProperty (set o k v) k = true.
Proof.
  destruct o; try discriminate; intros _; unfold hasOwnProperty, has_key;
    simpl; now rewrite lookup_update_same.
Qed.

Lemma hasOwnProperty_set_other (o : value) (k k' : jsstring) (v : value) :
  k <> k' -> hasOwnProperty (set o k' v) k = hasOwnProperty o k.
Proof.
  intros Hk. destruct o; try reflexivity; unfold hasOwnProperty, has_key;
    simpl; now rewrite lookup_update_other.
Qed.

Lemma isObject_set (o : value) (k : jsstring) (v : value) :
  isObject (set o k v) = isObject o.
Proof. now destruct o. Qed.

(** ** The middleware on a failure *)

Section FailurePath.

Context {rt : Runtime}.

(** Where the [try] block can throw, and what the middleware does then. *)
Lemma persistedQueriesMiddleware_failure (m : Middleware) (x : Exchange)
    (e : error) :
  (parsedOptions m = Throw e
   \/ (exists options,
          parsedOptions m = Ok options
          /\ fst (parseRequestBodyIfNecessary (req x)) = Throw e)
   \/ (exists options request',
          parsedOptions m = Ok options
          /\ parseRequestBodyIfNecessary (req x) = (Ok tt, request')
          /\ getPersistedQuery (queryIdKey options) (queryMap options)
               request' (strict options) = Throw e)) ->
  exists request',
    (parsedOptions m = Throw e -> request' = req x) /\
    forall next,
      persistedQueriesMiddleware m next x
      = handle_failure e (with_req x request').
Proof.
  intros Hfail. unfold persistedQueriesMiddleware, handle_request.
  destruct Hfail as [Hopt | [(options & Hopt & Hbody)
                            | (options & request' & Hopt & Hbody & Hquery)]].
  - exists (req x). split; [reflexivity|].
    intros k. rewrite Hopt. now destruct x.
  - rewrite Hopt.
    destruct (parseRequestBodyIfNecessary (req x)) as [r request'].
    simpl in Hbody. subst r. exists request'. split; [discriminate|].
    reflexivity.
  - rewrite Hopt, Hbody. exists request'. split; [discriminate|].
    intros k. unfold resolve_and_delegate. simpl req. now rewrite Hquery.
Qed.

(** C4.  A failure raised while the options are awaited, while the body is
    materialized or while the query is resolved ends the request with a
    response whose status code is the one [httpError(500, failure)] settles
    on (the status of the failure when it carries an accepted one, 500 when
    it carries none), with Content-Type [application/json; charset=utf-8],
    with Content-Length the decimal digits of the number of bytes of the
    UTF-8 payload, and with the payload [{"errors":[{"message":<text>}]}];
    the continuation plays no part in the outcome and its call count is
    unchanged. *)
Theorem failure_envelope :
  forall (m : Middleware) (x : Exchange) (e : error),
    (parsedOptions m = Throw e
     \/ (exists options,
            parsedOptions m = Ok options
            /\ fst (parseRequestBodyIfNecessary (req x)) = Throw e)
     \/ (exists options request',
            parsedOptions m = Ok options
            /\ parseRequestBodyIfNecessary (req x) = (Ok tt, request')
            /\ getPersistedQuery (queryIdKey options) (queryMap options)
                 request' (strict options) = Throw e)) ->
    forall next : Exchange -> Exchange,
      let y := persistedQueriesMiddleware m next x in
      let buffer := utf8_encode (error_envelope (err_message e)) in
      statusCode (res y) = statusCode_of (httpError_of 500 e) /\
      (err_status e = None -> statusCode (res y) = 500%Z) /\
      (forall s, err_status e = Some s -> s <> 0%Z ->
                 status_accepted s = true -> statusCode (res y) = s) /\
      getHeader (res y) (js "Content-Type")
      = Some (js "application/json; charset=utf-8") /\
      getHeader (res y) (js "Content-Length")
      = Some (String_of_N (N.of_nat (List.length buffer))) /\
      decimal_value (String_of_N (N.of_nat (List.length buffer)))
      = N.of_nat (List.length buffer) /\
      sent (res y) = Some buffer /\
      next_calls y = next_calls x /\
      (forall next', persistedQueriesMiddleware m next' x = y).
Proof.
  intros m x e Hfail next.
  destruct (persistedQueriesMiddleware_failure m x Hfail)
    as (request' & _ & Hrun).
  cbv zeta. rewrite (Hrun next).
  destruct (handle_failure_response e (with_req x request'))
    as (_ & Hnext & Hstatus & Htype & Hlength & Hsent).
  split; [exact Hstatus|]. split; [|split].
  - intros Hnone. rewrite Hstatus, statusCode_of_httpError_of.
    now rewrite Hnone.
  - intros s Hsome Hnz Hacc. rewrite Hstatus, statusCode_of_httpError_of.
    rewrite Hsome. apply Z.eqb_neq in Hnz. rewrite Hnz.
    unfold normalize_status. now rewrite Hacc.
  - split; [exact Htype|]. split; [exact Hlength|].
    split; [apply decimal_value_String_of_N|]. split; [exact Hsent|].
    split; [exact Hnext|]. intros next'. apply Hrun.
Qed.

End FailurePath.

(** End-to-end example 2 of the tests: an empty table and the id
    [missing]. *)
Lemma failure_envelope_witness :
  let m :=
    mk_Middleware
      (parseOptions (object_literal [(js "queryMap", object_literal [])])) in
  let x := fixture_exchange (js "/graphql?queryId=missing") VUndefined in
  let y := persistedQueriesMiddleware (rt := fixture_runtime) m (fun k => k) x in
  let message :=
    js "The provided query ID " ++ dquote ++ js "missing" ++ dquote
    ++ js " did not match any persisted query." in
  statusCode (res y) = 400%Z /\
  getHeader (res y) (js "Content-Length") = Some (js "95") /\
  sent (res y) = Some (utf8_encode (error_envelope message)) /\
  next_calls y = 0%nat.
Proof.
  intros m x y message.
  destruct (@failure_envelope fixture_runtime m x (httpError 400 message))
    with (next := fun k : Exchange => k)
    as (_ & _ & Hstatus & _ & Hlength & _ & Hsent & Hnext & _).
  - right. right.
    exists (mk_ParsedOptions (js "queryId")
              (QueryMapTable [] ObjectPrototype) false), (req x).
    repeat split.
  - split; [|split; [|split]].
    + apply (Hstatus 400%Z); [reflexivity | discriminate | reflexivity].
    + exact Hlength.
    + exact Hsent.
    + exact Hnext.
Defined.

(** ** A function for the query map *)

(** C6 as stated fails: a function that throws, or whose promise rejects,
    makes getPersistedQuery throw that very error, not the 400 failure of
    an unmatched id; the middleware then answers 500 with the error's own
    message. *)
Lemma callback_throw_is_not_a_400 :
  let boom := mk_error PlainError (js "boom") None in
  let throwing := QueryMapFn (fun _ => inr boom) in
  let rejecting := QueryMapFn (fun _ => inl (VPromise (inr boom) [])) in
  let request := fixture_request (js "/graphql?queryId=greetGuest") VUndefined in
  let unmatched :=
    httpError 400
      (js "The provided query ID " ++ dquote ++ js "greetGuest" ++ dquote
       ++ js " did not match any persisted query.") in
  let y :=
    persistedQueriesMiddleware (rt := fixture_runtime)
      (mk_Middleware (Ok (mk_ParsedOptions (js "queryId") throwing false)))
      (fun k => k) (mk_Exchange request fixture_response 0) in
  queryId_of (js "queryId") request = VStr (js "greetGuest") /\
  getPersistedQuery (js "queryId") throwing request false = Throw boom /\
  getPersistedQuery (js "queryId") rejecting request false = Throw boom /\
  getPersistedQuery (js "queryId") throwing request false <> Throw unmatched /\
  getPersistedQuery (js "queryId") rejecting request false <> Throw unmatched /\
  statusCode (res y) = 500%Z /\
  sent (res y) = Some (utf8_encode (error_envelope (js "boom"))).
Proof.
  cbv zeta. repeat split; try reflexivity; discriminate.
Qed.

(** What the middleware answers when resolving the query fails with [e]:
    the envelope of the message of [e], under the status that http-errors
    settles on, without calling [next]. *)
Lemma persistedQueriesMiddleware_resolution_failure {rt : Runtime}
    (m : Middleware) (options : ParsedOptions) (x : Exchange)
    (request' : Request) (e : error) (next : Exchange -> Exchange) :
  parsedOptions m = Ok options ->
  parseRequestBodyIfNecessary (req x) = (Ok tt, request') ->
  getPersistedQuery (queryIdKey options) (queryMap options) request'
    (strict options) = Throw e ->
  let y := persistedQueriesMiddleware m next x in
  sent (res y) = Some (utf8_encode (error_envelope (err_message e)))
  /\ next_calls y = next_calls x
  /\ statusCode (res y)
     = match err_status e with
       | Some s => if (s =? 0)%Z then 500%Z else normalize_status s
       | None => 500%Z
       end.
Proof.
  intros Hopt Hparse Hquery.
  destruct (@persistedQueriesMiddleware_failure rt m x e) as (r & _ & Hrun).
  { right. right. now exists options, request'. }
  cbv zeta. rewrite (Hrun next).
  destruct (handle_failure_response e (with_req x r))
    as (_ & Hcalls & Hstatus & _ & _ & Hsent).
  split; [exact Hsent|]. split; [exact Hcalls|].
  rewrite Hstatus. apply statusCode_of_httpError_of.
Qed.

(** C6, amended.  With a function for the query map, past the guards and
    with a string for the query id: when the function returns, or its
    promise resolves with, a value that is not a string (null and undefined
    among them), resolution fails with status 400 and [The provided query
    ID "<id>" did not match any persisted query.], the id verbatim, and
    that is what the middleware answers with; when the function throws or
    its promise rejects, getPersistedQuery throws that error unchanged, and
    the middleware answers with the message of that error in the error
    envelope, without calling [next], under the status of that error when
    it is one http-errors accepts, and under 500 when the error carries no
    status or one that http-errors does not accept. *)
Theorem callback_lookup_outcomes :
  forall (rt : Runtime) (m : Middleware) (options : ParsedOptions)
         (f : jsstring -> value + error) (x : Exchange)
         (request' : Request) (queryId : jsstring),
    parsedOptions m = Ok options ->
    queryMap options = QueryMapFn f ->
    parseRequestBodyIfNecessary (req x) = (Ok tt, request') ->
    strict options
      && searchParams_has (searchParams_of request') (js "query") = false ->
    strict options && isObject (body request')
      && has_property (js "query") (body request') = false ->
    queryId_of (queryIdKey options) request' = VStr queryId ->
    let unmatched :=
      js "The provided query ID " ++ dquote ++ queryId ++ dquote
      ++ js " did not match any persisted query." in
    (forall v,
        await_call f queryId = Ok v -> isString v = false ->
        getPersistedQuery (queryIdKey options) (QueryMapFn f) request'
          (strict options)
        = Throw (httpError 400 unmatched)
        /\ forall next,
             let y := persistedQueriesMiddleware m next x in
             statusCode (res y) = 400%Z
             /\ sent (res y) = Some (utf8_encode (error_envelope unmatched))
             /\ next_calls y = next_calls x)
    /\
    (forall e,
        await_call f queryId = Throw e ->
        getPersistedQuery (queryIdKey options) (QueryMapFn f) request'
          (strict options)
        = Throw e
        /\ forall next,
             let y := persistedQueriesMiddleware m next x in
             sent (res y)
             = Some (utf8_encode (error_envelope (err_message e)))
             /\ next_calls y = next_calls x
             /\ (err_status e = None -> statusCode (res y) = 500%Z)
             /\ (forall s,
                    err_status e = Some s -> status_accepted s = true ->
                    statusCode (res y) = s)
             /\ (forall s,
                    err_status e = Some s -> status_accepted s = false ->
                    statusCode (res y) = 500%Z)).
Proof.
  intros rt m options f x request' queryId Hopt Hmap Hparse Hs Hb Hid
         unmatched.
  pose proof (getPersistedQuery_lookup _ (QueryMapFn f) _ _ Hs Hb Hid)
    as Hlookup.
  cbn [lookup_persistedQuery] in Hlookup. split.
  - intros v Hcall Hv.
    assert (Hfail :
      getPersistedQuery (queryIdKey options) (QueryMapFn f) request'
        (strict options) = Throw (httpError 400 unmatched)).
    { rewrite Hlookup, Hcall. simpl. now destruct v. }
    split; [exact Hfail|]. intros next.
    rewrite <- Hmap in Hfail.
    destruct (persistedQueriesMiddleware_resolution_failure m x next
                Hopt Hparse Hfail) as (Hsent & Hcalls & Hstatus).
    split; [exact Hstatus|]. split; [exact Hsent | exact Hcalls].
  - intros e Hcall.
    assert (Hfail :
      getPersistedQuery (queryIdKey options) (QueryMapFn f) request'
        (strict options) = Throw e).
    { now rewrite Hlookup, Hcall. }
    split; [exact Hfail|]. intros next.
    rewrite <- Hmap in Hfail.
    destruct (persistedQueriesMiddleware_resolution_failure m x next
                Hopt Hparse Hfail) as (Hsent & Hcalls & Hstatus).
    split; [exact Hsent|]. split; [exact Hcalls|]. split; [|split].
    + intros Hnone. rewrite Hnone in Hstatus. exact Hstatus.
    + intros s Hsome Haccepted. rewrite Hsome in Hstatus.
      rewrite Hstatus. unfold normalize_status. rewrite Haccepted.
      destruct (s =? 0)%Z eqn:Hzero; [|reflexivity].
      apply Z.eqb_eq in Hzero. subst s. discriminate.
    + intros s Hsome Hrefused. rewrite Hsome in Hstatus.
      rewrite Hstatus. unfold normalize_status. rewrite Hrefused.
      now destruct (s =? 0)%Z.
Qed.

(** A function that returns null, as in the test suite; one that throws an
    error without a status; one whose promise rejects with an error of
    status 503; and one that throws an error of status 700. *)
Lemma callback_lookup_outcomes_witness :
  let x := fixture_exchange (js "/graphql?queryId=greetGuest") VUndefined in
  let answer f :=
    res (persistedQueriesMiddleware (rt := fixture_runtime)
           (mk_Middleware
              (Ok (mk_ParsedOptions (js "queryId") (QueryMapFn f) true)))
           (fun y => y) x) in
  let boom status := mk_error PlainError (js "boom") status in
  statusCode (answer (fun _ => inl VNull)) = 400%Z
  /\ sent (answer (fun _ => inl VNull))
     = Some (utf8_encode
               (error_envelope
                  (js "The provided query ID " ++ dquote ++ js "greetGuest"
                   ++ dquote ++ js " did not match any persisted query.")))
  /\ statusCode (answer (fun _ => inr (boom None))) = 500%Z
  /\ sent (answer (fun _ => inr (boom None)))
     = Some (utf8_encode (error_envelope (js "boom")))
  /\ statusCode
       (answer (fun _ => inl (VPromise (inr (boom (Some 503%Z))) [])))
     = 503%Z
  /\ statusCode (answer (fun _ => inr (boom (Some 700%Z)))) = 500%Z.
Proof.
  intros x answer boom.
  pose (outcomes f :=
    @callback_lookup_outcomes fixture_runtime
      (mk_Middleware
         (Ok (mk_ParsedOptions (js "queryId") (QueryMapFn f) true)))
      _ f x (req x) (js "greetGuest")
      eq_refl eq_refl eq_refl eq_refl eq_refl eq_refl).
  destruct (proj1 (outcomes (fun _ => inl VNull)) VNull eq_refl eq_refl)
    as (_ & Hnull).
  destruct (Hnull (fun y => y)) as (Hnull_status & Hnull_sent & _).
  destruct (proj2 (outcomes (fun _ => inr (boom None))) (boom None) eq_refl)
    as (_ & Hthrown).
  destruct (Hthrown (fun y => y)) as (Hthrown_sent & _ & Hthrown_status & _).
  destruct (proj2 (outcomes
                     (fun _ => inl (VPromise (inr (boom (Some 503%Z))) [])))
              (boom (Some 503%Z)) eq_refl) as (_ & Hrejected).
  destruct (Hrejected (fun y => y)) as (_ & _ & _ & Hcarried & _).
  destruct (proj2 (outcomes (fun _ => inr (boom (Some 700%Z))))
              (boom (Some 700%Z)) eq_refl) as (_ & Hodd).
  destruct (Hodd (fun y => y)) as (_ & _ & _ & _ & Hrefused).
  split; [exact Hnull_status|]. split; [exact Hnull_sent|].
  split; [exact (Hthrown_status eq_refl)|]. split; [exact Hthrown_sent|].
  split; [exact (Hcarried 503%Z eq_refl eq_refl)|].
  exact (Hrefused 700%Z eq_refl eq_refl).
Defined.

(** ** Configuration failures *)







(** ** The middleware on success *)

Lemma inject_query_frame (request : Request) (text : jsstring) :
  url (inject_query request text) = url request /\
  headers (inject_query request text) = headers request /\
  readable (inject_query request text) = readable request /\
  flowing (inject_query request text) = flowing request.
Proof.
  unfold inject_query. now destruct (isObject (body request)).
Qed.

Lemma inject_query_body (request : Request) (text : jsstring) :
  isObject (body (inject_query request text)) = true /\
  hasOwnProperty (body (inject_query request text)) (js "query") = true /\
  get (body (inject_query request text)) (js "query") = VStr text.
Proof.
  unfold inject_query. destruct (isObject (body request)) eqn:Hobj; simpl.
  - rewrite isObject_set, hasOwnProperty_set_same, get_set_same by exact Hobj.
    now rewrite Hobj.
  - repeat split.
Qed.

Section SuccessPath.

Context {rt : Runtime}.

(** What reading the body can do to the request: put its stream to flow. *)
Lemma readRawBody_frame (request request' : Request)
    (contentTypeInfo : ParsedMediaType) (r : result jsstring) :
  readRawBody request contentTypeInfo = (r, request') ->
  request' = request \/ request' = set_flowing request.
Proof.
  unfold readRawBody.
  destruct (negb (isCharsetSupported (charset_of contentTypeInfo))).
  { intros H. injection H as _ <-. now left. }
  destruct (getStreamFromRequest request (encoding_of request)) as [stream|e].
  2: { intros H. injection H as _ <-. now left. }
  destruct (getStream_text stream (charset_of contentTypeInfo)
              (MAX_BUFFER_SIZE_KIB * UNIT_KIB));
    intros H; injection H as _ <-; now right.
Qed.

(** What materialization can do to the request: assign the body slot and
    put the stream to flow.  Target, headers and stream content stay. *)
Lemma parseRequestBodyIfNecessary_frame (request request' : Request)
    (r : result unit) :
  parseRequestBodyIfNecessary request = (r, request') ->
  url request' = url request /\
  headers request' = headers request /\
  readable request' = readable request.
Proof.
  unfold parseRequestBodyIfNecessary.
  destruct (nonNull (body request)).
  { intros H. injection H as _ <-. auto. }
  destruct (lookup (js "content-type") (headers request)) as [header|].
  2: { intros H. injection H as _ <-. auto. }
  destruct (contentType_parse header) as [cti|e].
  2: { intros H. injection H as _ <-. auto. }
  destruct (jseqb (type cti) CONTENT_TYPE_JSON).
  { destruct (readRawBody request cti) as [[rawBody|e] request1] eqn:Hread;
      apply readRawBody_frame in Hread.
    - destruct (parseJsonObject rawBody); intros H; injection H as _ <-;
        destruct Hread as [-> | ->]; auto.
    - intros H; injection H as _ <-; destruct Hread as [-> | ->]; auto. }
  destruct (jseqb (type cti) CONTENT_TYPE_FORM_URL_ENCODED).
  { destruct (readRawBody request cti) as [[rawBody|e] request1] eqn:Hread;
      apply readRawBody_frame in Hread;
      intros H; injection H as _ <-; destruct Hread as [-> | ->]; auto. }
  intros H. injection H as _ <-. auto.
Qed.

(** The run of the middleware when every step succeeds. *)
Lemma persistedQueriesMiddleware_success (m : Middleware)
    (options : ParsedOptions) (next : Exchange -> Exchange) (x : Exchange)
    (request' : Request) (persistedQuery : option jsstring) :
  parsedOptions m = Ok options ->
  parseRequestBodyIfNecessary (req x) = (Ok tt, request') ->
  getPersistedQuery (queryIdKey options) (queryMap options) request'
    (strict options) = Ok persistedQuery ->
  persistedQueriesMiddleware m next x
  = next (mk_Exchange
            match persistedQuery with
            | Some text => inject_query request' text
            | None => request'
            end
            (res x) (S (next_calls x))).
Proof.
  intros Hopt Hbody Hquery.
  unfold persistedQueriesMiddleware, handle_request, resolve_and_delegate.
  rewrite Hopt, Hbody. simpl req. rewrite Hquery.
  now destruct persistedQuery.
Qed.

(** C9, amended.  When the options are there, the body is materialized and
    the resolver returns a string, the continuation is called, once, on an
    exchange whose body is an object holding that string as its own [query]
    property: the materialized body with [query] assigned when it was an
    object, the fresh object [{ query: <text> }] when it was not.  The
    response handed over is the response as it came.  Target, headers and
    stream content of the request are those that came; the body slot and
    the flowing of the stream are as the materialization left them, [query]
    apart.  When there was nothing to materialize (body already non-null,
    or no Content-Type) the request handed over is the request that came
    with [query] injected. *)
Theorem success_injects_query :
  forall (m : Middleware) (options : ParsedOptions)
         (next : Exchange -> Exchange) (x : Exchange)
         (request' : Request) (text : jsstring),
    parsedOptions m = Ok options ->
    parseRequestBodyIfNecessary (req x) = (Ok tt, request') ->
    getPersistedQuery (queryIdKey options) (queryMap options) request'
      (strict options) = Ok (Some text) ->
    let delegated :=
      mk_Exchange (inject_query request' text) (res x) (S (next_calls x)) in
      persistedQueriesMiddleware m next x = next delegated /\
      next_calls delegated = S (next_calls x) /\
      res delegated = res x /\
      isObject (body (req delegated)) = true /\
      hasOwnProperty (body (req delegated)) (js "query") = true /\
      get (body (req delegated)) (js "query") = VStr text /\
      (isObject (body request') = true ->
       body (req delegated) = set (body request') (js "query") (VStr text)) /\
      (isObject (body request') = false ->
       body (req delegated) = object_literal [(js "query", VStr text)]) /\
      (forall k, k <> js "query" -> isObject (body request') = true ->
                 get (body (req delegated)) k = get (body request') k) /\
      url (req delegated) = url (req x) /\
      headers (req delegated) = headers (req x) /\
      readable (req delegated) = readable (req x) /\
      flowing (req delegated) = flowing request' /\
      (nonNull (body (req x)) = true
       \/ lookup (js "content-type") (headers (req x)) = None ->
       req delegated = inject_query (req x) text).
Proof.
  intros m options next x request' text Hopt Hbody Hquery. cbv zeta.
  split.
  { exact (persistedQueriesMiddleware_success m next x Hopt Hbody Hquery). }
  simpl.
  destruct (inject_query_body request' text) as (Hobj & Hown & Hget).
  destruct (inject_query_frame request' text) as (Hurl & Hhead & Hread & Hflow).
  destruct (parseRequestBodyIfNecessary_frame _ Hbody)
    as (Hurl' & Hhead' & Hread').
  split; [reflexivity|]. split; [reflexivity|].
  split; [exact Hobj|]. split; [exact Hown|]. split; [exact Hget|].
  split; [|split; [|split]].
  - intros Hwas. unfold inject_query. now rewrite Hwas.
  - intros Hwas. unfold inject_query. now rewrite Hwas.
  - intros k Hk Hwas. unfold inject_query. rewrite Hwas. simpl.
    now apply get_set_other.
  - split; [congruence|]. split; [congruence|]. split; [congruence|].
    split; [exact Hflow|].
    intros Hskip. rewrite (parseRequestBodyIfNecessary_skips _ Hskip) in Hbody.
    now injection Hbody as <-.
Qed.

(** C10.  Outside strict mode, when the materialized body is an object
    that already has a [query] entry and the resolver returns persisted
    text, the continuation is called on the same body with [query]
    overwritten by that text: every other key reads as before, is an own
    property exactly when it was, and when [query] was an own property the
    keys of the body and their order are the same. *)
Theorem nonstrict_overwrites_body_query :
  forall (m : Middleware) (options : ParsedOptions)
         (next : Exchange -> Exchange) (x : Exchange)
         (request' : Request) (text : jsstring),
    parsedOptions m = Ok options ->
    strict options = false ->
    parseRequestBodyIfNecessary (req x) = (Ok tt, request') ->
    isObject (body request') = true ->
    has_property (js "query") (body request') = true ->
    getPersistedQuery (queryIdKey options) (queryMap options) request'
      false = Ok (Some text) ->
    let body' := set (body request') (js "query") (VStr text) in
    persistedQueriesMiddleware m next x
    = next (mk_Exchange (set_body request' body') (res x) (S (next_calls x))) /\
    get body' (js "query") = VStr text /\
    (forall k, k <> js "query" -> get body' k = get (body request') k) /\
    (forall k, k <> js "query" ->
               hasOwnProperty body' k = hasOwnProperty (body request') k) /\
    (hasOwnProperty (body request') (js "query") = true ->
     List.map fst (own_props body') = List.map fst (own_props (body request'))).
Proof.
  intros m options next x request' text Hopt Hstrict Hbody Hobj Hhas Hquery.
  cbv zeta. split; [|split; [|split; [|split]]].
  - rewrite <- Hstrict in Hquery.
    rewrite (persistedQueriesMiddleware_success m next x Hopt Hbody Hquery).
    unfold inject_query. now rewrite Hobj.
  - now apply get_set_same.
  - intros k Hk. now apply get_set_other.
  - intros k Hk. now apply hasOwnProperty_set_other.
  - unfold hasOwnProperty. destruct (body request'); try discriminate;
      simpl; apply update_keys.
Qed.

End SuccessPath.

(** A GET with the id in the search params and no body (end-to-end example
    1 of the tests), and a POST whose parsed body holds other entries. *)
Lemma success_injects_query_witness :
  let m :=
    mk_Middleware
      (parseOptions
         (object_literal [(js "queryMap", object_literal fixture_queryMap)])) in
  let x := fixture_exchange (js "/graphql?queryId=greetGuest") VUndefined in
  persistedQueriesMiddleware (rt := fixture_runtime) m (fun k => k) x
  = mk_Exchange
      (fixture_request (js "/graphql?queryId=greetGuest")
         (object_literal [(js "query", VStr (js "{ greet }"))]))
      fixture_response 1.
Proof.
  intros m x.
  destruct (@success_injects_query fixture_runtime m
              (mk_ParsedOptions (js "queryId")
                 (QueryMapTable fixture_queryMap ObjectPrototype) false)
              (fun k => k) x (req x) (js "{ greet }")
              eq_refl eq_refl eq_refl)
    as (Hrun & _).
  rewrite Hrun. reflexivity.
Defined.

(** A body that carries query text, an id and variables, outside strict
    mode: the query text is replaced, the rest stays. *)
Lemma nonstrict_overwrites_body_query_witness :
  let m :=
    mk_Middleware
      (parseOptions
         (object_literal [(js "queryMap", object_literal fixture_queryMap)])) in
  let sent_body :=
    object_literal
      [ (js "query", VStr (js "{ secret }"));
        (js "queryId", VStr (js "greetGuest"));
        (js "variables", object_literal []) ] in
  let x := fixture_exchange (js "/graphql") sent_body in
  persistedQueriesMiddleware (rt := fixture_runtime) m (fun k => k) x
  = mk_Exchange
      (fixture_request (js "/graphql")
         (object_literal
            [ (js "query", VStr (js "{ greet }"));
              (js "queryId", VStr (js "greetGuest"));
              (js "variables", object_literal []) ]))
      fixture_response 1.
Proof.
  intros m sent_body x.
  destruct (@nonstrict_overwrites_body_query fixture_runtime m
              (mk_ParsedOptions (js "queryId")
                 (QueryMapTable fixture_queryMap ObjectPrototype) false)
              (fun k => k) x (req x) (js "{ greet }")
              eq_refl eq_refl eq_refl eq_refl eq_refl eq_refl)
    as (Hrun & _).
  exact Hrun.
Defined.

(** C9 as stated fails on its last part: on success the request can differ
    from the one that came by more than [body.query].  A form-urlencoded
    POST with the body [queryId=greetGuest], not parsed before: the
    continuation is called and no response is written, and the request now
    has its stream read and a body holding [queryId] next to [query],
    which is not the request that came with [query] injected. *)
Lemma success_also_materializes_the_body :
  let m :=
    mk_Middleware
      (parseOptions
         (object_literal [(js "queryMap", object_literal fixture_queryMap)])) in
  let request :=
    mk_Request (js "/graphql")
      [(js "content-type", js "application/x-www-form-urlencoded")]
      VUndefined
      (mk_Readable [utf8_encode (js "queryId=greetGuest")] None) false in
  let x := mk_Exchange request fixture_response 0 in
  let y := persistedQueriesMiddleware (rt := fixture_runtime) m (fun k => k) x in
  next_calls y = 1%nat /\
  res y = fixture_response /\
  body (req y)
  = VObj [ (js "queryId", VStr (js "greetGuest"));
           (js "query", VStr (js "{ greet }")) ] [] /\
  flowing request = false /\
  flowing (req y) = true /\
  req y <> inject_query request (js "{ greet }").
Proof.
  cbv zeta. repeat split; try reflexivity; discriminate.
Qed.

(** ** The middleware over the body parser *)

(** The two [catch] blocks send the same response. *)
Lemma Ebp_handle_failure_eq (e : error) (x : Exchange) :
  Ebp.handle_failure e x = handle_failure e x.
Proof.
  unfold Ebp.handle_failure, handle_failure, sendJson.
  now rewrite JSON_stringify_error_result, JSON_stringify_Ebp_error_result.
Qed.

Section OverEbpProperties.

Context {rt : Runtime}.

(** The body parser either hands one exchange to its continuation, whatever
    the continuation, or fails before calling it; the response and the call
    count are then still those that came. *)
Lemma Ebp_parse_body_outcome (maxSize : Z) (x : Exchange) :
  (exists x',
      res x' = res x /\ next_calls x' = next_calls x
      /\ forall k, Ebp.parse_body maxSize k x = (Ok tt, k x'))
  \/ (exists e x',
         res x' = res x /\ next_calls x' = next_calls x
         /\ forall k, Ebp.parse_body maxSize k x = (Throw e, x')).
Proof.
  unfold Ebp.parse_body.
  destruct (nonNull (body (req x))).
  { left. exists x. auto. }
  destruct (lookup (js "content-type") (headers (req x))) as [header|].
  2: { left. exists x. auto. }
  destruct (contentType_parse header) as [cti|e].
  2: { right. exists e, x. auto. }
  destruct (jseqb (type cti) CONTENT_TYPE_JSON).
  { destruct (Ebp.readRawBody cti maxSize (req x)) as [[rawBody|e] request'].
    - destruct (parseJsonObject rawBody) as [parsed|e].
      + left. eexists (mk_Exchange _ _ _). simpl. auto.
      + right. eexists _, (mk_Exchange _ _ _). simpl. auto.
    - right. eexists _, (mk_Exchange _ _ _). simpl. auto. }
  destruct (jseqb (type cti) CONTENT_TYPE_FORM_URL_ENCODED).
  { destruct (Ebp.readRawBody cti maxSize (req x)) as [[rawBody|e] request'].
    - left. eexists (mk_Exchange _ _ _). simpl. auto.
    - right. eexists _, (mk_Exchange _ _ _). simpl. auto. }
  left. exists x. auto.
Qed.

Variables (m : OverEbp.Middleware) (maxSize : Z).

Hypothesis body_parser :
  OverEbp.bodyParserMiddleware m = Ebp.bodyParserMiddleware maxSize.

(** A failure of the body parser, of the options or of the resolution is
    answered with the error envelope, and the continuation plays no part. *)
Lemma OverEbp_failure_response (x : Exchange) (e : error) :
  ((exists x', forall k, Ebp.parse_body maxSize k x = (Throw e, x'))
   \/ (exists x',
          (forall k, Ebp.parse_body maxSize k x = (Ok tt, k x'))
          /\ (OverEbp.parsedOptions m = Throw e
              \/ exists options,
                   OverEbp.parsedOptions m = Ok options
                   /\ getPersistedQuery (queryIdKey options) (queryMap options)
                        (req x') (strict options) = Throw e))) ->
  exists x',
    forall next,
      OverEbp.persistedQueriesMiddleware m next x = handle_failure e x'.
Proof.
  unfold OverEbp.persistedQueriesMiddleware. rewrite body_parser.
  unfold Ebp.bodyParserMiddleware.
  intros [(x' & Hfail) | (x' & Hok & Hlater)]; exists x'; intros next.
  - rewrite Hfail. apply Ebp_handle_failure_eq.
  - rewrite Hok. unfold OverEbp.resolve.
    destruct Hlater as [Hopt | (options & Hopt & Hquery)]; rewrite Hopt.
    + reflexivity.
    + unfold resolve_and_delegate. now rewrite Hquery.
Qed.

(** On success the continuation is called on the materialized exchange with
    the query injected. *)
Lemma OverEbp_success_delegates (x x' : Exchange)
    (options : ParsedOptions) (text : jsstring) (next : Exchange -> Exchange) :
  (forall k, Ebp.parse_body maxSize k x = (Ok tt, k x')) ->
  OverEbp.parsedOptions m = Ok options ->
  getPersistedQuery (queryIdKey options) (queryMap options) (req x')
    (strict options) = Ok (Some text) ->
  OverEbp.persistedQueriesMiddleware m next x
  = next (mk_Exchange (inject_query (req x') text) (res x')
            (S (next_calls x'))).
Proof.
  intros Hok Hopt Hquery.
  unfold OverEbp.persistedQueriesMiddleware. rewrite body_parser.
  unfold Ebp.bodyParserMiddleware. rewrite Hok.
  unfold OverEbp.resolve, resolve_and_delegate.
  now rewrite Hopt, Hquery.
Qed.

End OverEbpProperties.

(** The body parser that [persistedQueries] builds has the default ceiling
    of 100 KiB. *)
Lemma OverEbp_persistedQueries_body_parser (rt : Runtime) (options : value)
    (c : OverEbp.Construction) :
  OverEbp.persistedQueries options = Ok c ->
  OverEbp.bodyParserMiddleware (OverEbp.middleware c)
  = Ebp.bodyParserMiddleware (100 * UNIT_KIB)
  /\ OverEbp.parsedOptions (OverEbp.middleware c) = parseOptions options.
Proof.
  unfold OverEbp.persistedQueries.
  destruct (assert (nonNull options) OPTIONS_MISSING); [|discriminate].
  simpl. intros H. injection H as <-. split; reflexivity.
Qed.

(** ** Examples *)

Example utf8_decode_heart : utf8_decode heart = [9829%N].
Proof. reflexivity. Qed.

Example utf8_encode_heart : utf8_encode [9829%N] = heart.
Proof. reflexivity. Qed.

Example utf8_decode_truncated :
  utf8_decode [97; 226; 153]%N = [97; 65533]%N.
Proof. reflexivity. Qed.

Example utf8_encode_surrogate_pair :
  utf8_encode [55357; 56832]%N = [240; 159; 152; 128]%N
  /\ utf8_decode [240; 159; 152; 128]%N = [55357; 56832]%N.
Proof. split; reflexivity. Qed.

Example utf16le_decode_hi : utf16le_decode [104; 0; 105; 0; 33]%N = js "hi".
Proof. reflexivity. Qed.

Example String_of_N_102400 : String_of_N 102400 = js "102400".
Proof. reflexivity. Qed.

Example toUpperCase_utf18 :
  toUpperCase (toLowerCase (js "utf-18")) = js "UTF-18".
Proof. reflexivity. Qed.

Example split_target :
  split 63%N (js "/graphql?a=1?b=2") = [js "/graphql"; js "a=1"; js "b=2"].
Proof. reflexivity. Qed.

Example URLSearchParams_decodes :
  URLSearchParams (Some (js "queryId=a%20b+c&x=%E2%99%A5&&y"))
  = [(js "queryId", js "a b c"); (js "x", [9829%N]); (js "y", [])].
Proof. reflexivity. Qed.

(** An escape that is not UTF-8 next to a character outside ASCII: the
    value is unescaped byte by byte. *)
Example URLSearchParams_malformed_escape :
  URLSearchParams (Some (js "queryId=%A5" ++ [233%N]))
  = [(js "queryId", [65533; 65533]%N)].
Proof. reflexivity. Qed.

Example URLSearchParams_stray_percent :
  URLSearchParams (Some (js "?b=%zz&c=%41%&d&=e"))
  = [(js "b", js "%zz"); (js "c", js "A%"); (js "d", []); ([], js "e")].
Proof. reflexivity. Qed.

Example JSON_stringify_escapes :
  JSON_stringify (JString (dquote ++ [10; 92]%N))
  = dquote ++ [92; 34; 92; 110; 92; 92]%N ++ dquote.
Proof. reflexivity. Qed.

Example parseOptions_defaults :
  parseOptions (object_literal [(js "queryMap", object_literal fixture_queryMap)])
  = Ok (mk_ParsedOptions (js "queryId")
          (QueryMapTable fixture_queryMap ObjectPrototype) false).
Proof. reflexivity. Qed.

Example parseOptions_rejected_promise :
  let failed := mk_error PlainError (js "Failed to resolve options.") None in
  parseOptions (VPromise (inr failed) []) = Throw failed.
Proof. reflexivity. Qed.

Example persistedQueries_requires_options :
  persistedQueries VUndefined = Throw (mk_error TypeError OPTIONS_MISSING None)
  /\ persistedQueries VNull = Throw (mk_error TypeError OPTIONS_MISSING None).
Proof. split; reflexivity. Qed.

(** End-to-end example 3 of the tests: query text in the body in strict
    mode. *)
Example strict_body_query_rejected :
  let m :=
    mk_Middleware
      (parseOptions
         (object_literal [ (js "queryMap", object_literal fixture_queryMap);
                           (js "strict", VBool true) ])) in
  let x :=
    fixture_exchange (js "/graphql")
      (object_literal [(js "query", VStr (js "{ greet }"))]) in
  let y := persistedQueriesMiddleware (rt := fixture_runtime) m (fun k => k) x in
  statusCode (res y) = 400%Z /\
  sent (res y) = Some (utf8_encode (error_envelope BODY_HAS_QUERY)) /\
  next_calls y = 0%nat.
Proof. repeat split. Qed.

(** Outside strict mode a request without id and without query text goes
    through untouched. *)
Example nonstrict_passes_through :
  let m :=
    mk_Middleware
      (parseOptions
         (object_literal [(js "queryMap", object_literal fixture_queryMap)])) in
  let x := fixture_exchange (js "/graphql") VUndefined in
  persistedQueriesMiddleware (rt := fixture_runtime) m (fun k => k) x
  = mk_Exchange (req x) (res x) 1.
Proof. reflexivity. Qed.

(** The JSON request of end-to-end example 2, read from its stream by the
    body parser and resolved by the middleware built over it. *)
Example OverEbp_missing_id :
  let request :=
    mk_Request (js "/graphql") [(js "content-type", js "application/json")]
      VUndefined (mk_Readable [utf8_encode missing_id_text] None) false in
  let x := mk_Exchange request fixture_response 0 in
  let m :=
    OverEbp.mk_Middleware
      (parseOptions (object_literal [(js "queryMap", object_literal [])]))
      (Ebp.bodyParserMiddleware (rt := fixture_runtime) (100 * UNIT_KIB)) in
  let y :=
    OverEbp.persistedQueriesMiddleware m (fun k => k) x in
  statusCode (res y) = 400%Z /\
  sent (res y)
  = Some (utf8_encode (error_envelope (QUERY_ID_NOT_FOUND (js "missing")))) /\
  next_calls y = 0%nat /\
  flowing (req y) = true.
Proof. repeat split. Qed.

(* ===================================================================== *)
(* ===================================================================== *)
(** * Further properties *)
(* ===================================================================== *)
(* ===================================================================== *)

(** ** The two readers *)

Lemma isCharsetSupported_Ebp (charset : jsstring) :
  Ebp.isCharsetSupported charset = isCharsetSupported charset.
Proof.
  unfold Ebp.isCharsetSupported, isCharsetSupported.
  destruct (jseqb charset (js "utf-8")), (jseqb charset (js "utf8"));
    reflexivity.
Qed.

Section Encodings.

Context {rt : Runtime}.

(** X1.  With a supported charset, a Content-Encoding header that,
    lower-cased, is none of deflate, gzip, identity makes both readers fail
    with status 415 and the message [Unsupported Content-Encoding:
    "<token>".], the token in lower case, and leaves the request as it was:
    nothing is piped or read. *)
Theorem unsupported_encoding_rejected_before_reading :
  forall (request : Request) (contentTypeInfo : ParsedMediaType)
         (header : jsstring),
    isCharsetSupported (charset_of contentTypeInfo) = true ->
    lookup (js "content-encoding") (headers request) = Some header ->
    toLowerCase header <> js "deflate" ->
    toLowerCase header <> js "gzip" ->
    toLowerCase header <> js "identity" ->
    let failure415 :=
      httpError 415
        (js "Unsupported Content-Encoding: " ++ dquote ++ toLowerCase header
         ++ dquote ++ js ".") in
    statusCode_of failure415 = 415%Z /\
    readRawBody request contentTypeInfo = (Throw failure415, request) /\
    (forall maxSize,
        Ebp.readRawBody contentTypeInfo maxSize request
        = (Throw failure415, request)).
Proof.
  intros request cti header Hcharset Hheader H1 H2 H3. cbv zeta.
  apply jseqb_neq in H1, H2, H3.
  split; [reflexivity|]. split.
  - unfold readRawBody, getStreamFromRequest, encoding_of.
    now rewrite Hcharset, Hheader, H1, H2, H3.
  - intros maxSize.
    unfold Ebp.readRawBody, Ebp.getDecompressedStream, encoding_of.
    now rewrite isCharsetSupported_Ebp, Hcharset, Hheader, H1, H2, H3.
Qed.

End Encodings.

(** The header [BR] on a JSON request. *)
Lemma unsupported_encoding_witness :
  let request :=
    stream_request
      [ (js "content-type", js "application/json");
        (js "content-encoding", js "BR") ]
      (mk_Readable [missing_id_text] None) in
  readRawBody (rt := fixture_runtime) request
    (mk_ParsedMediaType CONTENT_TYPE_JSON [])
  = (Throw (httpError 415
              (js "Unsupported Content-Encoding: " ++ dquote ++ js "br"
               ++ dquote ++ js ".")), request).
Proof.
  intros request.
  apply (@unsupported_encoding_rejected_before_reading fixture_runtime request
           (mk_ParsedMediaType CONTENT_TYPE_JSON []) (js "BR"));
    try reflexivity; discriminate.
Defined.

(** get-stream in buffer mode on a stream that ends in an error. *)
Lemma getStream_buffer_from_failed (maxBuffer : Z) (msg : jsstring)
    (cs : list Buffer) :
  forall buffered,
    (Z.of_nat (List.length buffered + List.length (List.concat cs)) <= maxBuffer)%Z ->
    getStream_buffer_from maxBuffer buffered cs (Some msg) = StreamError msg.
Proof.
  induction cs as [|c cs IH]; intros buffered Hle; simpl in *.
  - reflexivity.
  - rewrite length_app in Hle.
    replace (maxBuffer <? Z.of_nat (List.length (buffered ++ c)))%Z with false.
    + rewrite andb_false_r. apply IH. rewrite length_app. lia.
    + symmetry. apply Z.ltb_ge. rewrite length_app. lia.
Qed.

(** What a resolved read in buffer mode tells. *)
Lemma getStream_buffer_from_resolved (maxBuffer : Z) (cs : list Buffer) :
  forall buffered fail_ result,
    getStream_buffer_from maxBuffer buffered cs fail_ = Resolved result ->
    fail_ = None /\
    result = buffered ++ List.concat cs /\
    ((Z.of_nat (List.length result) <= maxBuffer)%Z \/ List.concat cs = []).
Proof.
  induction cs as [|c cs IH]; intros buffered fail_ result H; simpl in *.
  - destruct fail_; [discriminate|]. injection H as <-.
    rewrite app_nil_r. auto.
  - destruct (negb (is_empty c)
              && (maxBuffer <? Z.of_nat (List.length (buffered ++ c)))%Z)
      eqn:Hcross; [discriminate|].
    destruct (IH _ _ _ H) as (Hfail & Hresult & Hsize).
    split; [exact Hfail|]. split; [now rewrite Hresult, app_assoc|].
    destruct Hsize as [Hsize | Hrest]; [now left|].
    apply andb_false_iff in Hcross as [Hempty | Hwithin].
    + destruct c; [|discriminate]. right. exact Hrest.
    + left. apply Z.ltb_ge in Hwithin.
      rewrite Hresult, Hrest, app_nil_r. exact Hwithin.
Qed.

Section ByteCeiling.

Context {rt : Runtime}.

(** X2.  The reader of the body parser, with a supported charset, a
    supported encoding and a ceiling that is not negative: a decoded stream
    that ends and totals at most [maxSize] bytes is returned as its text,
    and a decoded stream of more than [maxSize] bytes fails with status 413
    and [Request body too large.], however the stream ends.  Either way the
    outcome depends on the concatenation of the chunks only. *)
Theorem Ebp_readRawBody_byte_ceiling :
  forall (contentTypeInfo : ParsedMediaType) (maxSize : Z)
         (request : Request) (stream : Readable),
    Ebp.isCharsetSupported (charset_of contentTypeInfo) = true ->
    Ebp.getDecompressedStream request (encoding_of request) = Ok stream ->
    (0 <= maxSize)%Z ->
    (failure stream = None ->
     (Z.of_nat (List.length (List.concat (chunks stream))) <= maxSize)%Z ->
     Ebp.readRawBody contentTypeInfo maxSize request
     = (Ok (Buffer_toString (List.concat (chunks stream))
              (charset_of contentTypeInfo)),
        set_flowing request))
    /\
    ((maxSize < Z.of_nat (List.length (List.concat (chunks stream))))%Z ->
     Ebp.readRawBody contentTypeInfo maxSize request
     = (Throw (httpError 413 (js "Request body too large.")),
        set_flowing request)).
Proof.
  intros cti maxSize request stream Hcharset Hstream Hpos. split.
  - intros Hend Hle. now apply Ebp_readRawBody_within with (stream := stream).
  - intros Hgt. now apply Ebp_readRawBody_exceeded with (stream := stream).
Qed.

(** X3.  The same reader on a decoded stream that ends in an error: within
    the ceiling the failure is status 400 with [Invalid request body:
    <message>.]; once the ceiling has been crossed the failure is the 413,
    the later error of the stream notwithstanding. *)
Theorem Ebp_readRawBody_stream_error :
  forall (contentTypeInfo : ParsedMediaType) (maxSize : Z)
         (request : Request) (stream : Readable) (message : jsstring),
    Ebp.isCharsetSupported (charset_of contentTypeInfo) = true ->
    Ebp.getDecompressedStream request (encoding_of request) = Ok stream ->
    failure stream = Some message ->
    (0 <= maxSize)%Z ->
    ((Z.of_nat (List.length (List.concat (chunks stream))) <= maxSize)%Z ->
     Ebp.readRawBody contentTypeInfo maxSize request
     = (Throw (httpError 400
                 (js "Invalid request body: " ++ message ++ js ".")),
        set_flowing request))
    /\
    ((maxSize < Z.of_nat (List.length (List.concat (chunks stream))))%Z ->
     Ebp.readRawBody contentTypeInfo maxSize request
     = (Throw (httpError 413 (js "Request body too large.")),
        set_flowing request)).
Proof.
  intros cti maxSize request stream message Hcharset Hstream Hfail Hpos.
  split.
  - intros Hle. unfold Ebp.readRawBody.
    rewrite Hcharset, Hstream. simpl negb. cbv iota.
    unfold getStream_buffer. rewrite Hfail.
    now rewrite getStream_buffer_from_failed.
  - intros Hgt. now apply Ebp_readRawBody_exceeded with (stream := stream).
Qed.

End ByteCeiling.

(** A form body in two chunks of seven bytes in all, under ceilings of
    seven and of six. *)
Lemma Ebp_readRawBody_byte_ceiling_witness :
  let request :=
    stream_request
      [(js "content-type", js "application/x-www-form-urlencoded")]
      (mk_Readable [js "foo="; js "bar"] None) in
  Ebp.readRawBody (rt := fixture_runtime) form_type 7 request
  = (Ok (js "foo=bar"), set_flowing request)
  /\ Ebp.readRawBody (rt := fixture_runtime) form_type 6 request
     = (Throw (httpError 413 (js "Request body too large.")),
        set_flowing request).
Proof.
  intros request. split.
  - apply (proj1 (@Ebp_readRawBody_byte_ceiling fixture_runtime form_type 7
                    request (readable request) eq_refl eq_refl
                    ltac:(discriminate)));
      [reflexivity | discriminate].
  - apply (proj2 (@Ebp_readRawBody_byte_ceiling fixture_runtime form_type 6
                    request (readable request) eq_refl eq_refl
                    ltac:(discriminate))).
    reflexivity.
Defined.

(** A gzip body the inflater gives up on. *)
Lemma Ebp_readRawBody_stream_error_witness :
  let request :=
    stream_request
      [ (js "content-type", js "application/x-www-form-urlencoded");
        (js "content-encoding", js "gzip") ]
      (mk_Readable [js "foo=bar"] None) in
  Ebp.readRawBody (rt := fixture_runtime) form_type 102400 request
  = (Throw (httpError 400
              (js "Invalid request body: incorrect header check.")),
     set_flowing request).
Proof.
  intros request.
  apply (proj1 (@Ebp_readRawBody_stream_error fixture_runtime form_type 102400
                  request (fixture_zlib (readable request))
                  (js "incorrect header check")
                  eq_refl eq_refl eq_refl ltac:(discriminate))).
  discriminate.
Defined.

(** ** The older reader against the reader of the body parser *)

(** The UTF-8 decoder never yields more code units than it was given
    bytes. *)
Lemma utf8_lead_length (b : byte) :
  (List.length (fst (utf8_lead b))
   + List.length (utf8_end (snd (utf8_lead b))) <= 1)%nat.
Proof.
  unfold utf8_lead.
  repeat match goal with
         | |- context [if ?c then _ else _] => destruct c
         end; simpl; lia.
Qed.

Lemma units_of_code_point_length (cp : N) :
  (List.length (units_of_code_point cp) <= 2)%nat.
Proof.
  unfold units_of_code_point. destruct (cp <? 65536)%N; simpl; lia.
Qed.

Lemma utf8_write_length (bs : Buffer) :
  forall st,
    (List.length (fst (utf8_write st bs))
     + List.length (utf8_end (snd (utf8_write st bs)))
     <= List.length (utf8_end st) + List.length bs)%nat.
Proof.
  induction bs as [|b bs IH]; intros st.
  - simpl. lia.
  - simpl utf8_write. destruct st as [p|].
    + destruct ((pending_lower p <=? b)%N && (b <=? pending_upper p)%N).
      * destruct (pending_needed p) as [|[|n]].
        -- specialize (IH None).
           destruct (utf8_write None bs) as [rest st'']. simpl in *.
           rewrite length_app.
           pose proof (units_of_code_point_length
                         (N.lor (N.shiftl (pending_bits p) 6) (N.land b 63))).
           lia.
        -- specialize (IH None).
           destruct (utf8_write None bs) as [rest st'']. simpl in *.
           rewrite length_app.
           pose proof (units_of_code_point_length
                         (N.lor (N.shiftl (pending_bits p) 6) (N.land b 63))).
           lia.
        -- specialize
             (IH (Some (mk_pending
                          (N.lor (N.shiftl (pending_bits p) 6) (N.land b 63))
                          (S n) 128 191))).
           simpl in *. lia.
      * pose proof (utf8_lead_length b) as Hlead.
        destruct (utf8_lead b) as [out st']. specialize (IH st').
        destruct (utf8_write st' bs) as [rest st'']. simpl in *.
        rewrite length_app. lia.
    + pose proof (utf8_lead_length b) as Hlead.
      destruct (utf8_lead b) as [out st']. specialize (IH st').
      destruct (utf8_write st' bs) as [rest st'']. simpl in *.
      rewrite length_app. lia.
Qed.

Lemma utf8_decode_length (bs : Buffer) :
  (List.length (utf8_decode bs) <= List.length bs)%nat.
Proof.
  unfold utf8_decode. pose proof (utf8_write_length bs None) as H.
  destruct (utf8_write None bs) as [out st]. simpl in *.
  rewrite length_app. lia.
Qed.

(** ASCII bytes decode to themselves, one unit each. *)
Lemma utf8_write_ascii_all (bs : Buffer) :
  Forall (fun b => (b <= 127)%N) bs -> utf8_write None bs = (bs, None).
Proof.
  induction 1 as [|b bs Hb _ IH]; [reflexivity|].
  now rewrite utf8_write_ascii, IH.
Qed.

Lemma utf8_decode_ascii (bs : Buffer) :
  Forall (fun b => (b <= 127)%N) bs -> utf8_decode bs = bs.
Proof.
  intros H. unfold utf8_decode. rewrite (utf8_write_ascii_all H).
  apply app_nil_r.
Qed.

Lemma Forall_ascii_concat (cs : list Buffer) :
  Forall (Forall (fun b => (b <= 127)%N)) cs ->
  Forall (fun b => (b <= 127)%N) (List.concat cs).
Proof.
  induction 1 as [|c cs Hc _ IH]; simpl; [constructor|].
  apply Forall_app. now split.
Qed.

(** On ASCII chunks text mode and buffer mode run alike. *)
Lemma getStream_text_from_ascii (maxBuffer : Z) (fail_ : option jsstring)
    (cs : list Buffer) :
  Forall (Forall (fun b => (b <= 127)%N)) cs ->
  forall buffered,
    getStream_text_from maxBuffer (Utf8Decoder None) buffered cs fail_
    = getStream_buffer_from maxBuffer buffered cs fail_.
Proof.
  induction 1 as [|c cs Hc _ IH]; intros buffered.
  - simpl. destruct fail_; [reflexivity|]. now rewrite app_nil_r.
  - simpl. rewrite (utf8_write_ascii_all Hc). cbv zeta.
    now rewrite IH.
Qed.

Section ReadersCompared.

Context {rt : Runtime}.

Variables (request : Request) (contentTypeInfo : ParsedMediaType).

Hypothesis charset_utf8 :
  charset_of contentTypeInfo = js "utf-8"
  \/ charset_of contentTypeInfo = js "utf8".

Lemma utf8_charset_facts :
  isCharsetSupported (charset_of contentTypeInfo) = true
  /\ StringDecoder_new (charset_of contentTypeInfo) = Utf8Decoder None
  /\ forall buffer,
       Buffer_toString buffer (charset_of contentTypeInfo) = utf8_decode buffer.
Proof.
  destruct charset_utf8 as [-> | ->]; repeat split.
Qed.

(** X4.  For a body declared as UTF-8 and a decoded stream that ends, the
    reader of parseRequestBodyIfNecessary.ts returns the text when it has
    at most 102400 code units and fails with status 413 when it has more,
    whatever the chunking.  A body of at most 102400 bytes is therefore
    always returned. *)
Theorem readRawBody_ceiling_in_code_units :
  forall stream : Readable,
    getStreamFromRequest request (encoding_of request) = Ok stream ->
    failure stream = None ->
    let bytes := List.concat (chunks stream) in
    ((Z.of_nat (List.length (utf8_decode bytes)) <= 102400)%Z ->
     readRawBody request contentTypeInfo
     = (Ok (utf8_decode bytes), set_flowing request))
    /\
    ((102400 < Z.of_nat (List.length (utf8_decode bytes)))%Z ->
     readRawBody request contentTypeInfo
     = (Throw (httpError 413 (js "Request body too large.")),
        set_flowing request))
    /\
    ((Z.of_nat (List.length bytes) <= 102400)%Z ->
     readRawBody request contentTypeInfo
     = (Ok (utf8_decode bytes), set_flowing request)).
Proof.
  intros stream Hstream Hend. cbv zeta.
  destruct (readRawBody_code_unit_ceiling request contentTypeInfo
              charset_utf8 Hstream Hend) as [Hwithin Hexceeded].
  split; [exact Hwithin|]. split; [exact Hexceeded|].
  intros Hbytes. apply Hwithin.
  pose proof (utf8_decode_length (List.concat (chunks stream))).
  change (MAX_BUFFER_SIZE_KIB * UNIT_KIB)%Z with 102400%Z. lia.
Qed.

(** X5.  Whatever UTF-8 body the reader of the body parser returns under
    the ceiling of 100 KiB, the reader of parseRequestBodyIfNecessary.ts
    returns too, with the same text and the same request. *)
Theorem Ebp_readRawBody_accepts_less :
  forall (text : jsstring) (request' : Request),
    Ebp.readRawBody contentTypeInfo (100 * UNIT_KIB) request
    = (Ok text, request') ->
    readRawBody request contentTypeInfo = (Ok text, request').
Proof.
  intros text request' Hread.
  destruct utf8_charset_facts as (Hsupported & _ & Hdecode).
  unfold Ebp.readRawBody in Hread.
  rewrite isCharsetSupported_Ebp, Hsupported in Hread. simpl negb in Hread.
  cbv iota in Hread.
  change (Ebp.getDecompressedStream request (encoding_of request))
    with (getStreamFromRequest request (encoding_of request)) in Hread.
  destruct (getStreamFromRequest request (encoding_of request))
    as [stream|e] eqn:Hstream; [|discriminate].
  unfold getStream_buffer in Hread.
  destruct (getStream_buffer_from (100 * UNIT_KIB) [] (chunks stream)
              (failure stream)) as [buffer| |msg] eqn:Hbuffer;
    try discriminate.
  injection Hread as <- <-.
  apply getStream_buffer_from_resolved in Hbuffer
    as (Hend & Hresult & Hsize).
  simpl in Hresult. subst buffer. rewrite Hdecode.
  destruct (readRawBody_code_unit_ceiling request contentTypeInfo
              charset_utf8 Hstream Hend) as [Hwithin _].
  apply Hwithin.
  pose proof (utf8_decode_length (List.concat (chunks stream))) as Hunits.
  change (MAX_BUFFER_SIZE_KIB * UNIT_KIB)%Z with 102400%Z.
  change (100 * UNIT_KIB)%Z with 102400%Z in Hsize.
  destruct Hsize as [Hsize | Hnil]; [lia|].
  rewrite Hnil. simpl. lia.
Qed.

(** X6.  On a UTF-8 body of ASCII bytes the two readers agree, on what
    they return and on how they fail, whatever the chunking and however
    the stream ends. *)
Theorem readers_agree_on_ascii :
  forall stream : Readable,
    getStreamFromRequest request (encoding_of request) = Ok stream ->
    Forall (Forall (fun b => (b <= 127)%N)) (chunks stream) ->
    readRawBody request contentTypeInfo
    = Ebp.readRawBody contentTypeInfo (100 * UNIT_KIB) request.
Proof.
  intros stream Hstream Hascii.
  destruct utf8_charset_facts as (Hsupported & Hdecoder & Hdecode).
  unfold readRawBody, Ebp.readRawBody.
  rewrite isCharsetSupported_Ebp, Hsupported. simpl negb. cbv iota.
  change (Ebp.getDecompressedStream request (encoding_of request))
    with (getStreamFromRequest request (encoding_of request)).
  rewrite Hstream. unfold getStream_text, getStream_buffer.
  rewrite Hdecoder, (getStream_text_from_ascii _ _ Hascii (@nil byte)).
  change (MAX_BUFFER_SIZE_KIB * UNIT_KIB)%Z with (100 * UNIT_KIB)%Z.
  destruct (getStream_buffer_from (100 * UNIT_KIB) [] (chunks stream)
              (failure stream)) as [buffer| |msg] eqn:Hbuffer;
    try reflexivity.
  apply getStream_buffer_from_resolved in Hbuffer as (_ & Hresult & _).
  simpl in Hresult. subst buffer.
  now rewrite Hdecode, (utf8_decode_ascii (Forall_ascii_concat Hascii)).
Qed.

End ReadersCompared.

(** A form body whose last character is split between two chunks: five
    bytes, three code units. *)
Lemma readRawBody_ceiling_in_code_units_witness :
  let request :=
    stream_request
      [(js "content-type", js "application/x-www-form-urlencoded")]
      (mk_Readable [[97; 61; 226; 153]%N; [165]%N] None) in
  readRawBody (rt := fixture_runtime) request form_type
  = (Ok [97; 61; 9829]%N, set_flowing request).
Proof.
  intros request.
  apply (proj1 (@readRawBody_ceiling_in_code_units fixture_runtime request
                  form_type (or_introl eq_refl) (readable request)
                  eq_refl eq_refl)).
  discriminate.
Defined.

(** The same body through both readers. *)
Lemma Ebp_readRawBody_accepts_less_witness :
  let request :=
    stream_request
      [(js "content-type", js "application/x-www-form-urlencoded")]
      (mk_Readable [[97; 61; 226; 153]%N; [165]%N] None) in
  Ebp.readRawBody (rt := fixture_runtime) form_type (100 * UNIT_KIB) request
  = (Ok [97; 61; 9829]%N, set_flowing request)
  /\ readRawBody (rt := fixture_runtime) request form_type
     = (Ok [97; 61; 9829]%N, set_flowing request).
Proof.
  intros request.
  assert (Hread :
    Ebp.readRawBody (rt := fixture_runtime) form_type (100 * UNIT_KIB) request
    = (Ok [97; 61; 9829]%N, set_flowing request)) by reflexivity.
  split; [exact Hread|].
  exact (@Ebp_readRawBody_accepts_less fixture_runtime request form_type
           (or_introl eq_refl) _ _ Hread).
Defined.

(** An ASCII form body in two chunks whose stream breaks off: both
    readers fail with the same error. *)
Lemma readers_agree_on_ascii_witness :
  let request :=
    stream_request
      [(js "content-type", js "application/x-www-form-urlencoded")]
      (mk_Readable [js "foo="; js "bar"] (Some (js "aborted"))) in
  readRawBody (rt := fixture_runtime) request form_type
  = Ebp.readRawBody (rt := fixture_runtime) form_type (100 * UNIT_KIB) request
  /\ readRawBody (rt := fixture_runtime) request form_type
     = (Throw (httpError 400 (js "Invalid request body: aborted.")),
        set_flowing request).
Proof.
  intros request. split; [|reflexivity].
  apply (@readers_agree_on_ascii fixture_runtime request form_type
           (or_introl eq_refl) (readable request) eq_refl).
  vm_compute. repeat constructor; discriminate.
Defined.

(** ** Parsing the body *)

Lemma starts_with_brace_iff (json : jsstring) :
  starts_with_brace json = true
  <-> exists ws rest,
        Forall (fun c => c = 32 \/ c = 9 \/ c = 10 \/ c = 13)%N ws
        /\ json = ws ++ 123%N :: rest.
Proof.
  induction json as [|c json IH].
  - split; [discriminate|]. intros (ws & rest & _ & Heq).
    destruct ws; discriminate.
  - cbn [starts_with_brace].
    destruct ((c =? 32) || (c =? 9) || (c =? 10) || (c =? 13))%N eqn:Hws.
    + assert (Hc : (c = 32 \/ c = 9 \/ c = 10 \/ c = 13)%N).
      { bool_to_prop; lia. }
      rewrite IH. split.
      * intros (ws & rest & Hall & ->). exists (c :: ws), rest.
        split; [now constructor | reflexivity].
      * intros (ws & rest & Hall & Heq). destruct ws as [|c' ws].
        -- injection Heq as -> _. lia.
        -- injection Heq as <- ->. inversion Hall; subst.
           now exists ws, rest.
    + assert (Hc : ~ (c = 32 \/ c = 9 \/ c = 10 \/ c = 13)%N).
      { bool_to_prop; lia. }
      split.
      * intros Hbrace. apply N.eqb_eq in Hbrace as ->.
        now exists [], json.
      * intros (ws & rest & Hall & Heq). destruct ws as [|c' ws].
        -- injection Heq as -> _. reflexivity.
        -- injection Heq as <- _. inversion Hall; subst. contradiction.
Qed.

(** X7.  [parseJsonObject] returns a value exactly when the text is, after
    any run of spaces, tabs, line feeds and carriage returns, at an opening
    brace, and [JSON.parse] returns that value for the whole text. *)
Theorem parseJsonObject_accepts :
  forall (rt : Runtime) (text : jsstring) (v : value),
    parseJsonObject text = Ok v
    <-> (exists ws rest,
            Forall (fun c => c = 32 \/ c = 9 \/ c = 10 \/ c = 13)%N ws
            /\ text = ws ++ 123%N :: rest)
        /\ JSON_parse text = Some v.
Proof.
  intros rt text v. rewrite <- starts_with_brace_iff. unfold parseJsonObject.
  destruct (starts_with_brace text); simpl.
  - destruct (JSON_parse text) as [v'|]; split.
    + intros [= ->]. now split.
    + now intros [_ [= ->]].
    + discriminate.
    + now intros [_ ?].
  - split; [discriminate | now intros [? _]].
Qed.

Lemma readRawBody_failure {rt : Runtime} (request request' : Request)
    (contentTypeInfo : ParsedMediaType) (e : error) :
  readRawBody request contentTypeInfo = (Throw e, request') ->
  exists status message,
    e = httpError status message
    /\ (status = 415 \/ status = 413 \/ status = 400)%Z.
Proof.
  unfold readRawBody.
  destruct (negb (isCharsetSupported (charset_of contentTypeInfo))).
  { intros [= <- _]. eexists _, _. split; [reflexivity | now left]. }
  destruct (getStreamFromRequest request (encoding_of request))
    as [stream|e0] eqn:Hstream.
  - destruct (getStream_text stream (charset_of contentTypeInfo)
                (MAX_BUFFER_SIZE_KIB * UNIT_KIB)) as [text| |message].
    + discriminate.
    + intros [= <- _]. eexists _, _. split; [reflexivity|]. right. now left.
    + intros [= <- _]. eexists _, _. split; [reflexivity|]. right. now right.
  - intros [= <- _]. unfold getStreamFromRequest in Hstream.
    destruct (jseqb (encoding_of request) (js "deflate")); [discriminate|].
    destruct (jseqb (encoding_of request) (js "gzip")); [discriminate|].
    destruct (jseqb (encoding_of request) (js "identity")); [discriminate|].
    injection Hstream as <-. eexists _, _. split; [reflexivity | now left].
Qed.

(** X8.  When reading the body fails the body slot of the request is left
    as it was, and the failure is either the one of the content-type
    parser, met before anything is read, or an HTTP error of status 415,
    413 or 400. *)
Theorem parseRequestBodyIfNecessary_failure :
  forall (rt : Runtime) (request request' : Request) (e : error),
    parseRequestBodyIfNecessary request = (Throw e, request') ->
    body request' = body request
    /\ ((exists header,
            lookup (js "content-type") (headers request) = Some header
            /\ contentType_parse header = Throw e
            /\ request' = request)
        \/ (exists status message,
               e = httpError status message
               /\ (status = 415 \/ status = 413 \/ status = 400)%Z)).
Proof.
  intros rt request request' e. unfold parseRequestBodyIfNecessary.
  destruct (nonNull (body request)); [discriminate|].
  destruct (lookup (js "content-type") (headers request)) as [header|];
    [|discriminate].
  destruct (contentType_parse header) as [contentTypeInfo|e0] eqn:Hparse.
  2:{ intros [= <- <-]. split; [reflexivity|]. left. now exists header. }
  assert (Hread : forall r request1,
             readRawBody request contentTypeInfo = (r, request1) ->
             body request1 = body request).
  { intros r request1 H.
    destruct (readRawBody_frame _ _ H) as [-> | ->]; reflexivity. }
  destruct (jseqb (type contentTypeInfo) CONTENT_TYPE_JSON).
  - destruct (readRawBody request contentTypeInfo) as [[rawBody|e1] request1]
      eqn:Hraw.
    + destruct (parseJsonObject rawBody); [discriminate|].
      intros [= <- <-]. split; [exact (Hread _ _ eq_refl)|].
      right. eexists _, _. split; [reflexivity | now right; right].
    + intros [= <- <-]. split; [exact (Hread _ _ eq_refl)|].
      right. exact (readRawBody_failure _ _ Hraw).
  - destruct (jseqb (type contentTypeInfo) CONTENT_TYPE_FORM_URL_ENCODED);
      [|discriminate].
    destruct (readRawBody request contentTypeInfo) as [[rawBody|e1] request1]
      eqn:Hraw; [discriminate|].
    intros [= <- <-]. split; [exact (Hread _ _ eq_refl)|].
    right. exact (readRawBody_failure _ _ Hraw).
Qed.

(** A JSON body that is an array: status 400, body slot untouched. *)
Lemma parseRequestBodyIfNecessary_failure_witness :
  let request :=
    stream_request [(js "content-type", js "application/json")]
      (mk_Readable [js "[1, 2]"] None) in
  parseRequestBodyIfNecessary (rt := fixture_runtime) request
  = (Throw (httpError 400 (js "Request body is not a valid JSON object.")),
     set_flowing request)
  /\ body (set_flowing request) = body request.
Proof.
  intros request.
  assert (Hfail :
    parseRequestBodyIfNecessary (rt := fixture_runtime) request
    = (Throw (httpError 400 (js "Request body is not a valid JSON object.")),
       set_flowing request)) by reflexivity.
  split; [exact Hfail|].
  exact (proj1 (@parseRequestBodyIfNecessary_failure fixture_runtime
                  request _ _ Hfail)).
Defined.

(** X9.  A body whose content type is neither JSON nor a URL-encoded form
    is not read: the request is left as it was, whatever charset and
    content encoding it declares. *)
Theorem parseRequestBodyIfNecessary_other_content_type :
  forall (rt : Runtime) (request : Request) (header : jsstring)
         (contentTypeInfo : ParsedMediaType),
    lookup (js "content-type") (headers request) = Some header ->
    contentType_parse header = Ok contentTypeInfo ->
    type contentTypeInfo <> js "application/json" ->
    type contentTypeInfo <> js "application/x-www-form-urlencoded" ->
    parseRequestBodyIfNecessary request = (Ok tt, request).
Proof.
  intros rt request header contentTypeInfo Hheader Hparse Hjson Hform.
  unfold parseRequestBodyIfNecessary.
  destruct (nonNull (body request)); [reflexivity|].
  rewrite Hheader, Hparse.
  change CONTENT_TYPE_JSON with (js "application/json").
  change CONTENT_TYPE_FORM_URL_ENCODED
    with (js "application/x-www-form-urlencoded").
  rewrite (proj2 (jseqb_neq _ _) Hjson), (proj2 (jseqb_neq _ _) Hform).
  reflexivity.
Qed.

(** A GraphQL text, compressed in a way that is not supported and in a
    charset that is not supported. *)
Lemma parseRequestBodyIfNecessary_other_content_type_witness :
  let request :=
    stream_request
      [ (js "content-type", js "application/graphql; charset=ascii");
        (js "content-encoding", js "br") ]
      (mk_Readable [js "{ greet }"] None) in
  parseRequestBodyIfNecessary (rt := graphql_runtime) request
  = (Ok tt, request).
Proof.
  intros request.
  apply (@parseRequestBodyIfNecessary_other_content_type graphql_runtime
           request (js "application/graphql; charset=ascii")
           (mk_ParsedMediaType (js "application/graphql")
              [(js "charset", js "ascii")])
           eq_refl eq_refl);
    discriminate.
Defined.

(** ** Resolving the persisted query *)

(** X10.  Every failure of [getPersistedQuery] is an HTTP error of status
    400 with one of four messages, or what the callback threw or rejected
    with.  The two guards and the demand for an id fail in strict mode
    only; with a table for the query map the one failure outside strict
    mode is the id that matches no persisted query. *)
Theorem getPersistedQuery_failures :
  forall (queryIdKey : jsstring) (queryMap : LooseQueryMap)
         (request : Request) (strict : bool) (e : error),
    getPersistedQuery queryIdKey queryMap request strict = Throw e ->
    (strict = true
     /\ (e = httpError 400 SEARCH_PARAMS_HAVE_QUERY
         \/ e = httpError 400 BODY_HAS_QUERY
         \/ e = httpError 400 (MUST_PROVIDE_QUERY_ID queryIdKey)))
    \/ (exists queryId,
           queryId_of queryIdKey request = VStr queryId
           /\ (e = httpError 400 (QUERY_ID_NOT_FOUND queryId)
               \/ exists f,
                    queryMap = QueryMapFn f
                    /\ await_call f queryId = Throw e)).
Proof.
  intros queryIdKey queryMap request strict e. unfold getPersistedQuery.
  destruct (strict && searchParams_has (searchParams_of request) (js "query"))
    eqn:Hsearch.
  { intros [= <-]. left. apply andb_true_iff in Hsearch as [-> _].
    split; [reflexivity | now left]. }
  destruct (strict && isObject (body request)
            && has_property (js "query") (body request)) eqn:Hbody.
  { intros [= <-]. left. apply andb_true_iff in Hbody as [Hbody _].
    apply andb_true_iff in Hbody as [-> _].
    split; [reflexivity | right; now left]. }
  destruct (queryId_of queryIdKey request) as [| | | |queryId| | |] eqn:Hid;
    try (destruct strict; [|discriminate]; intros [= <-]; left;
         split; [reflexivity | right; now right]).
  intros Hlookup. right. exists queryId. split; [reflexivity|].
  destruct queryMap as [f|own inherited]; cbn [lookup_persistedQuery] in Hlookup.
  - destruct (await_call f queryId) as [v|e'] eqn:Hcall; simpl in Hlookup.
    + left. destruct v; try discriminate; now injection Hlookup as <-.
    + right. injection Hlookup as <-. now exists f.
  - left.
    destruct (hasOwnProperty (VObj own inherited) queryId); simpl in Hlookup;
      [destruct (get (VObj own inherited) queryId)|];
      try discriminate; now injection Hlookup as <-.
Qed.

(** An id that the table does not have, outside strict mode. *)
Lemma getPersistedQuery_failures_witness :
  let request := fixture_request (js "/graphql?queryId=unknown") VUndefined in
  let table := QueryMapTable fixture_queryMap ObjectPrototype in
  let e := httpError 400 (QUERY_ID_NOT_FOUND (js "unknown")) in
  getPersistedQuery (js "queryId") table request false = Throw e
  /\ ((false = true
       /\ (e = httpError 400 SEARCH_PARAMS_HAVE_QUERY
           \/ e = httpError 400 BODY_HAS_QUERY
           \/ e = httpError 400 (MUST_PROVIDE_QUERY_ID (js "queryId"))))
      \/ (exists queryId,
             queryId_of (js "queryId") request = VStr queryId
             /\ (e = httpError 400 (QUERY_ID_NOT_FOUND queryId)
                 \/ exists f,
                      table = QueryMapFn f
                      /\ await_call f queryId = Throw e))).
Proof.
  intros request table e.
  assert (Hfail :
    getPersistedQuery (js "queryId") table request false = Throw e)
    by reflexivity.
  split; [exact Hfail|].
  exact (@getPersistedQuery_failures (js "queryId") table request false e
           Hfail).
Defined.

(** X11.  What strict mode accepts, the other mode accepts with the same
    text, and it is always a text: strict mode never hands a request on
    without a persisted query. *)
Theorem strict_accepts_less :
  forall (queryIdKey : jsstring) (queryMap : LooseQueryMap)
         (request : Request) (persistedQuery : option jsstring),
    getPersistedQuery queryIdKey queryMap request true = Ok persistedQuery ->
    getPersistedQuery queryIdKey queryMap request false = Ok persistedQuery
    /\ exists text, persistedQuery = Some text.
Proof.
  intros queryIdKey queryMap request persistedQuery.
  unfold getPersistedQuery. cbn [andb].
  destruct (searchParams_has (searchParams_of request) (js "query"));
    [discriminate|].
  destruct (isObject (body request)
            && has_property (js "query") (body request)); [discriminate|].
  destruct (queryId_of queryIdKey request); try discriminate.
  intros Hlookup. split; [exact Hlookup|].
  destruct (lookup_persistedQuery queryMap s) as [v|e]; [|discriminate].
  simpl in Hlookup. destruct v; try discriminate.
  injection Hlookup as <-. now eexists.
Qed.

Lemma strict_accepts_less_witness :
  let request := fixture_request (js "/graphql?queryId=greetGuest") VUndefined in
  let table := QueryMapTable fixture_queryMap ObjectPrototype in
  getPersistedQuery (js "queryId") table request true
  = Ok (Some (js "{ greet }"))
  /\ getPersistedQuery (js "queryId") table request false
     = Ok (Some (js "{ greet }")).
Proof.
  intros request table.
  assert (Hstrict :
    getPersistedQuery (js "queryId") table request true
    = Ok (Some (js "{ greet }"))) by reflexivity.
  split; [exact Hstrict|].
  exact (proj1 (@strict_accepts_less (js "queryId") table request _ Hstrict)).
Defined.

(** X12.  With a table for the query map, past the guards, the query of an
    id is returned exactly when the table has the id as an own property
    whose value is a string; that string is the result. *)
Theorem table_lookup_success :
  forall (queryIdKey : jsstring) (own inherited : props) (request : Request)
         (strict : bool) (queryId : jsstring)
         (persistedQuery : option jsstring),
    strict && searchParams_has (searchParams_of request) (js "query") = false ->
    strict && isObject (body request)
      && has_property (js "query") (body request) = false ->
    queryId_of queryIdKey request = VStr queryId ->
    (getPersistedQuery queryIdKey (QueryMapTable own inherited) request strict
     = Ok persistedQuery
     <-> exists text,
           lookup queryId own = Some (VStr text)
           /\ persistedQuery = Some text).
Proof.
  intros queryIdKey own inherited request strict queryId persistedQuery
         Hsearch Hbody Hid.
  rewrite (getPersistedQuery_lookup _ _ _ _ Hsearch Hbody Hid).
  cbn [lookup_persistedQuery]. unfold hasOwnProperty, has_key, get.
  cbn [own_props inherited_props].
  destruct (lookup queryId own) as [v|]; simpl.
  - destruct v; split;
      try discriminate;
      try (intros (text & Hown & _); discriminate).
    + intros [= <-]. now eexists.
    + now intros (text & [= ->] & ->).
  - split; [discriminate | now intros (text & Hown & _)].
Qed.

(** A table with an entry that is not a string. *)
Lemma table_lookup_success_witness :
  let request := fixture_request (js "/graphql?queryId=like") VUndefined in
  let own := [(js "count", VNum 3); (js "like", VStr (js "{ like }"))] in
  getPersistedQuery (js "queryId") (QueryMapTable own ObjectPrototype)
    request true = Ok (Some (js "{ like }")).
Proof.
  intros request own.
  apply (proj2 (@table_lookup_success (js "queryId") own ObjectPrototype
                  request true (js "like") (Some (js "{ like }"))
                  eq_refl eq_refl eq_refl)).
  now exists (js "{ like }").
Defined.

(** X13.  An id in the search params is the id: whatever the body holds
    under the key is not looked at, and the body plays no part beyond the
    guard of strict mode. *)
Theorem search_params_id_shadows_body :
  forall (queryIdKey : jsstring) (queryMap : LooseQueryMap)
         (request : Request) (strict : bool) (queryId : jsstring)
         (b : value),
    searchParams_get (searchParams_of request) queryIdKey = Some queryId ->
    strict && isObject (body request)
      && has_property (js "query") (body request) = false ->
    strict && isObject b && has_property (js "query") b = false ->
    getPersistedQuery queryIdKey queryMap (set_body request b) strict
    = getPersistedQuery queryIdKey queryMap request strict.
Proof.
  intros queryIdKey queryMap request strict queryId b Hget Hbody Hb.
  unfold getPersistedQuery, queryId_of.
  change (searchParams_of (set_body request b))
    with (searchParams_of request).
  change (body (set_body request b)) with b.
  now rewrite Hget, Hbody, Hb.
Qed.

(** An empty id in the search params, a valid one in the body: the empty
    one is looked up. *)
Lemma search_params_id_shadows_body_witness :
  let request := fixture_request (js "/graphql?queryId=") VUndefined in
  let b := object_literal [(js "queryId", VStr (js "greetGuest"))] in
  let table := QueryMapTable fixture_queryMap ObjectPrototype in
  getPersistedQuery (js "queryId") table (set_body request b) true
  = getPersistedQuery (js "queryId") table request true
  /\ getPersistedQuery (js "queryId") table (set_body request b) true
     = Throw (httpError 400 (QUERY_ID_NOT_FOUND [])).
Proof.
  intros request b table. split; [|reflexivity].
  exact (@search_params_id_shadows_body (js "queryId") table request true
           [] b eq_refl eq_refl eq_refl).
Defined.

(** [split] on a string without the separator, and up to its first
    occurrence. *)
Lemma split_go_without (sep : codeunit) (s : jsstring) :
  ~ In sep s -> forall cur, split_go sep cur s = [List.rev cur ++ s].
Proof.
  induction s as [|c s IH]; intros Hnot cur; simpl.
  - now rewrite app_nil_r.
  - destruct (N.eqb_spec c sep) as [-> | Hne].
    + exfalso. apply Hnot. now left.
    + rewrite IH by (intros Hin; apply Hnot; now right).
      simpl. now rewrite <- app_assoc.
Qed.

Lemma split_go_first (sep : codeunit) (a b : jsstring) :
  ~ In sep a ->
  forall cur,
    split_go sep cur (a ++ sep :: b)
    = (List.rev cur ++ a) :: split_go sep [] b.
Proof.
  induction a as [|c a IH]; intros Hnot cur; simpl.
  - rewrite N.eqb_refl. now rewrite app_nil_r.
  - destruct (N.eqb_spec c sep) as [-> | Hne].
    + exfalso. apply Hnot. now left.
    + rewrite IH by (intros Hin; apply Hnot; now right).
      simpl. now rewrite <- app_assoc.
Qed.

(** X14.  The search params are read from what stands between the first
    and the second question mark of the target: a target without a
    question mark has none, and what follows a second question mark is
    left out. *)
Theorem searchParams_of_target :
  forall (request : Request) (path query : jsstring),
    ~ In 63%N path ->
    ~ In 63%N query ->
    (url request = path -> searchParams_of request = [])
    /\ (url request = path ++ 63%N :: query ->
        searchParams_of request = URLSearchParams (Some query))
    /\ (forall rest,
           url request = path ++ 63%N :: query ++ 63%N :: rest ->
           searchParams_of request = URLSearchParams (Some query)).
Proof.
  intros request path query Hpath Hquery. unfold searchParams_of, split.
  split; [|split].
  - intros ->. now rewrite (@split_go_without 63%N path Hpath).
  - intros ->. rewrite (@split_go_first 63%N path query Hpath).
    now rewrite (@split_go_without 63%N query Hquery).
  - intros rest ->.
    rewrite (@split_go_first 63%N path (query ++ 63%N :: rest) Hpath).
    now rewrite (@split_go_first 63%N query rest Hquery).
Qed.

(** A query text behind a second question mark: strict mode does not see
    it. *)
Lemma searchParams_of_target_witness :
  let request :=
    fixture_request (js "/graphql?queryId=like?query=%7B+like+%7D")
      VUndefined in
  searchParams_of request = [(js "queryId", js "like")]
  /\ getPersistedQuery (js "queryId")
       (QueryMapTable fixture_queryMap ObjectPrototype) request true
     = Ok (Some (js "mutation LikeMutation { like }")).
Proof.
  intros request. split; [|reflexivity].
  assert (Hpath : ~ In 63%N (js "/graphql")).
  { vm_compute. intuition discriminate. }
  assert (Hquery : ~ In 63%N (js "queryId=like")).
  { vm_compute. intuition discriminate. }
  exact (proj2 (proj2 (@searchParams_of_target request (js "/graphql")
                         (js "queryId=like") Hpath Hquery))
           (js "query=%7B+like+%7D") eq_refl).
Defined.

(** X15.  A request with no query id, past the guards: outside strict mode
    it is handed on as the body parsing left it, whatever the query map,
    and in strict mode it is answered with status 400 and the message that
    names the key. *)
Theorem request_without_query_id :
  forall (rt : Runtime) (m : Middleware) (options : ParsedOptions)
         (next : Exchange -> Exchange) (x : Exchange) (request' : Request),
    parsedOptions m = Ok options ->
    parseRequestBodyIfNecessary (req x) = (Ok tt, request') ->
    (forall queryId,
        queryId_of (queryIdKey options) request' <> VStr queryId) ->
    (strict options = false ->
     persistedQueriesMiddleware m next x
     = next (mk_Exchange request' (res x) (S (next_calls x))))
    /\
    (strict options = true ->
     searchParams_has (searchParams_of request') (js "query") = false ->
     isObject (body request')
       && has_property (js "query") (body request') = false ->
     let failure :=
       httpError 400
         (js "Request must provide a query ID under " ++ dquote
          ++ queryIdKey options ++ dquote
          ++ js " key either in search params or request body.") in
     persistedQueriesMiddleware m next x
     = handle_failure failure (with_req x request')
     /\ statusCode (res (persistedQueriesMiddleware m next x)) = 400%Z
     /\ next_calls (persistedQueriesMiddleware m next x) = next_calls x).
Proof.
  intros rt m options next x request' Hopt Hparse Hid.
  split.
  - intros Hstrict.
    rewrite (@persistedQueriesMiddleware_success rt m options next x request'
               None Hopt Hparse); [reflexivity|].
    unfold getPersistedQuery. rewrite Hstrict. cbn [andb].
    destruct (queryId_of (queryIdKey options) request') eqn:Hq;
      try reflexivity.
    now elim (Hid s).
  - intros Hstrict Hsearch Hbody failure.
    assert (Hmw :
      persistedQueriesMiddleware m next x
      = handle_failure failure (with_req x request')).
    { unfold persistedQueriesMiddleware, handle_request, resolve_and_delegate.
      rewrite Hopt, Hparse. cbn [req with_req].
      unfold getPersistedQuery. rewrite Hstrict. cbn [andb].
      rewrite Hsearch, Hbody.
      destruct (queryId_of (queryIdKey options) request') eqn:Hq;
        try reflexivity.
      now elim (Hid s). }
    split; [exact Hmw|]. rewrite Hmw.
    destruct (handle_failure_response failure (with_req x request'))
      as (_ & Hcalls & Hstatus & _).
    split; [|exact Hcalls].
    rewrite Hstatus. reflexivity.
Qed.

(** A request that carries nothing, outside strict mode and in it. *)
Lemma request_without_query_id_witness :
  let x := fixture_exchange (js "/graphql") VUndefined in
  let table := QueryMapTable fixture_queryMap ObjectPrototype in
  let lax := mk_Middleware (Ok (mk_ParsedOptions (js "queryId") table false)) in
  let strict := mk_Middleware (Ok (mk_ParsedOptions (js "id") table true)) in
  persistedQueriesMiddleware (rt := fixture_runtime) lax (fun y => y) x
  = mk_Exchange (req x) (res x) 1
  /\ sent (res (persistedQueriesMiddleware (rt := fixture_runtime) strict
                  (fun y => y) x))
     = Some (utf8_encode
               (error_envelope
                  (js "Request must provide a query ID under " ++ dquote
                   ++ js "id" ++ dquote
                   ++ js " key either in search params or request body."))).
Proof.
  intros x table lax strict. split.
  - apply (proj1 (@request_without_query_id fixture_runtime lax _
                    (fun y => y) x (req x) eq_refl eq_refl
                    ltac:(discriminate)) eq_refl).
  - rewrite (proj1 (proj2 (@request_without_query_id fixture_runtime strict _
                             (fun y => y) x (req x) eq_refl eq_refl
                             ltac:(discriminate))
                      eq_refl eq_refl eq_refl)).
    reflexivity.
Defined.

(** ** The middleware as a whole *)

Lemma normalize_status_accepted (status : Z) :
  status_accepted (normalize_status status) = true.
Proof.
  unfold normalize_status.
  destruct (status_accepted status) eqn:Haccepted;
    [exact Haccepted | reflexivity].
Qed.

Lemma with_req_req (x : Exchange) : with_req x (req x) = x.
Proof. now destruct x. Qed.

(** X16.  On every request the middleware of index.ts does one of two
    things, and which one does not depend on the continuation: it calls the
    continuation once, with the response as it came, or it does not call
    it and sends the error envelope, under a status that http-errors
    accepts. *)
Theorem persistedQueriesMiddleware_outcome :
  forall (rt : Runtime) (m : Middleware) (x : Exchange),
    (exists request',
        forall next,
          persistedQueriesMiddleware m next x
          = next (mk_Exchange request' (res x) (S (next_calls x))))
    \/ (exists e request',
           forall next,
             let y := persistedQueriesMiddleware m next x in
             y = handle_failure e (with_req x request')
             /\ next_calls y = next_calls x
             /\ sent (res y)
                = Some (utf8_encode (error_envelope (err_message e)))
             /\ status_accepted (statusCode (res y)) = true).
Proof.
  intros rt m x.
  assert (Hfailure : forall e request' y,
             y = handle_failure e (with_req x request') ->
             y = handle_failure e (with_req x request')
             /\ next_calls y = next_calls x
             /\ sent (res y)
                = Some (utf8_encode (error_envelope (err_message e)))
             /\ status_accepted (statusCode (res y)) = true).
  { intros e request' y ->. split; [reflexivity|].
    destruct (handle_failure_response e (with_req x request'))
      as (_ & Hcalls & Hstatus & _ & _ & Hsent).
    split; [exact Hcalls|]. split; [exact Hsent|].
    rewrite Hstatus. apply normalize_status_accepted. }
  unfold persistedQueriesMiddleware, handle_request.
  destruct (parsedOptions m) as [options|e].
  2:{ right. exists e, (req x). intros next. apply Hfailure.
      now rewrite with_req_req. }
  destruct (parseRequestBodyIfNecessary (req x)) as [[[]|e] request'].
  2:{ right. exists e, request'. intros next. now apply Hfailure. }
  unfold resolve_and_delegate. cbn [req with_req].
  destruct (getPersistedQuery (queryIdKey options) (queryMap options)
              request' (strict options)) as [[text|]|e].
  - left. exists (inject_query request' text). reflexivity.
  - left. exists request'. reflexivity.
  - right. exists e, request'. intros next. now apply Hfailure.
Qed.

(** The bytes of a text are at least as many as its code units, and the
    same when the text is ASCII. *)
Lemma utf8_of_code_point_length (cp : N) :
  (1 <= List.length (utf8_of_code_point cp))%nat
  /\ ((65536 <= cp)%N -> List.length (utf8_of_code_point cp) = 4%nat).
Proof.
  unfold utf8_of_code_point. split.
  - destruct (cp <? 128)%N, (cp <? 2048)%N, (cp <? 65536)%N; simpl; lia.
  - intros Hcp.
    destruct (N.ltb_spec cp 128); [lia|].
    destruct (N.ltb_spec cp 2048); [lia|].
    destruct (N.ltb_spec cp 65536); [lia | reflexivity].
Qed.

Lemma utf8_encode_length_bounded (n : nat) :
  forall s : jsstring,
    (List.length s <= n)%nat ->
    (List.length s <= List.length (utf8_encode s))%nat.
Proof.
  induction n as [|n IH]; intros s Hn.
  - destruct s; [simpl; lia | simpl in Hn; lia].
  - destruct s as [|c rest]; [simpl; lia|].
    cbn [utf8_encode]. simpl List.length in Hn.
    pose proof (proj1 (utf8_of_code_point_length REPLACEMENT)) as Hrep.
    pose proof (proj1 (utf8_of_code_point_length c)) as Hc.
    assert (Hrest : (List.length rest <= List.length (utf8_encode rest))%nat)
      by (apply IH; lia).
    destruct (is_high_surrogate c).
    + destruct rest as [|d rest'].
      * simpl List.length at 1. lia.
      * destruct (is_low_surrogate d).
        -- rewrite length_app.
           rewrite (proj2 (utf8_of_code_point_length
                             (65536 + N.shiftl (c - 55296) 10 + (d - 56320))))
             by lia.
           assert (List.length rest' <= List.length (utf8_encode rest'))%nat
             by (apply IH; simpl in Hn; lia).
           simpl List.length at 1. lia.
        -- rewrite length_app. simpl List.length at 1.
           simpl List.length in Hrest at 1. lia.
    + destruct (is_low_surrogate c); rewrite length_app;
        simpl List.length at 1; lia.
Qed.

Lemma utf8_encode_ascii (s : jsstring) :
  Forall (fun c => (c <= 127)%N) s -> utf8_encode s = s.
Proof.
  induction 1 as [|c s Hc _ IH]; [reflexivity|].
  cbn [utf8_encode]. unfold is_high_surrogate, is_low_surrogate.
  destruct (N.leb_spec 55296 c); [lia|].
  destruct (N.leb_spec 56320 c); [lia|]. cbn [andb].
  unfold utf8_of_code_point. destruct (N.ltb_spec c 128); [|lia].
  simpl. now rewrite IH.
Qed.

(** X17.  [sendJson] keeps the status and every header other than
    Content-Type and Content-Length, and ends the response with the UTF-8
    bytes of the JSON text.  Content-Length counts those bytes: at least
    the length of the text, and that length when the text is ASCII. *)
Theorem sendJson_frame :
  forall (response : Response) (payload : json),
    let text := JSON_stringify payload in
    let sentResponse := sendJson response payload in
    statusCode sentResponse = statusCode response
    /\ (forall name,
           toLowerCase name <> js "content-type" ->
           toLowerCase name <> js "content-length" ->
           getHeader sentResponse name = getHeader response name)
    /\ sent sentResponse = Some (utf8_encode text)
    /\ getHeader sentResponse (js "content-length")
       = Some (String_of_N (N.of_nat (List.length (utf8_encode text))))
    /\ (List.length text <= List.length (utf8_encode text))%nat
    /\ (Forall (fun c => (c <= 127)%N) text ->
        getHeader sentResponse (js "content-length")
        = Some (String_of_N (N.of_nat (List.length text)))).
Proof.
  intros response payload text sentResponse.
  destruct (sendJson_response response payload)
    as (Hstatus & _ & Hlength & Hsent).
  cbv zeta in Hlength, Hsent.
  split; [exact Hstatus|]. split.
  { intros name Htype Hlen. unfold sentResponse, sendJson, getHeader, setHeader.
    cbn [res_end res_headers statusCode sent].
    change (toLowerCase (js "Content-Length")) with (js "content-length").
    change (toLowerCase (js "Content-Type")) with (js "content-type").
    rewrite lookup_update_other by exact Hlen.
    now rewrite lookup_update_other by exact Htype. }
  split; [exact Hsent|]. split; [exact Hlength|]. split.
  { exact (@utf8_encode_length_bounded (List.length text) text (le_n _)). }
  intros Hascii.
  rewrite <- (utf8_encode_ascii Hascii) at 1. exact Hlength.
Qed.

(** ** The middleware mounted twice *)

Lemma update_update_same {V : Type} (k : jsstring) (v : V) ps :
  update k v (update k v ps) = update k v ps.
Proof.
  induction ps as [|[k' v'] ps IH]; simpl.
  - now rewrite jseqb_refl.
  - destruct (jseqb k k') eqn:E; simpl.
    + now rewrite jseqb_refl.
    + now rewrite E, IH.
Qed.

Lemma inject_query_twice (request : Request) (text : jsstring) :
  inject_query (inject_query request text) text = inject_query request text.
Proof.
  unfold inject_query at 2 3.
  destruct (isObject (body request)) eqn:Hobject.
  - unfold inject_query. cbn [body set_body].
    rewrite isObject_set, Hobject. unfold set_body. cbn.
    destruct (body request); try discriminate; cbn [set];
      now rewrite update_update_same.
  - reflexivity.
Qed.

Lemma searchParams_of_inject_query (request : Request) (text : jsstring) :
  searchParams_of (inject_query request text) = searchParams_of request.
Proof.
  unfold searchParams_of. now rewrite (proj1 (inject_query_frame request text)).
Qed.

Lemma queryId_of_inject_query (queryIdKey : jsstring) (request : Request)
    (text queryId : jsstring) :
  queryIdKey <> js "query" ->
  queryId_of queryIdKey request = VStr queryId ->
  queryId_of queryIdKey (inject_query request text) = VStr queryId.
Proof.
  intros Hkey. unfold queryId_of. rewrite searchParams_of_inject_query.
  destruct (searchParams_get (searchParams_of request) queryIdKey);
    [trivial|].
  unfold inject_query.
  destruct (isObject (body request)) eqn:Hobject; [|discriminate].
  cbn [body set_body]. rewrite isObject_set, Hobject.
  now rewrite get_set_other.
Qed.

(** X18.  When the middleware stands twice in front of the same handler
    and the first one injects a query: outside strict mode, with a query id
    key other than [query], the second one resolves the same text and the
    handler gets the request of the first, after two calls of [next]; in
    strict mode the second one rejects the request of the first, for the
    query text in its body. *)
Theorem persistedQueriesMiddleware_mounted_twice :
  forall (rt : Runtime) (m : Middleware) (options : ParsedOptions)
         (next : Exchange -> Exchange) (x : Exchange) (request' : Request)
         (text : jsstring),
    parsedOptions m = Ok options ->
    parseRequestBodyIfNecessary (req x) = (Ok tt, request') ->
    getPersistedQuery (queryIdKey options) (queryMap options) request'
      (strict options) = Ok (Some text) ->
    (strict options = false ->
     queryIdKey options <> js "query" ->
     persistedQueriesMiddleware m (persistedQueriesMiddleware m next) x
     = next (mk_Exchange (inject_query request' text) (res x)
               (S (S (next_calls x)))))
    /\
    (strict options = true ->
     persistedQueriesMiddleware m (persistedQueriesMiddleware m next) x
     = handle_failure
         (httpError 400
            (js "Request body has " ++ dquote ++ js "query" ++ dquote
             ++ js " but only persisted queries are allowed."))
         (mk_Exchange (inject_query request' text) (res x)
            (S (next_calls x)))).
Proof.
  intros rt m options next x request' text Hopt Hparse Hquery.
  pose (first := mk_Exchange (inject_query request' text) (res x)
                   (S (next_calls x))).
  assert (Hfirst : forall k,
             persistedQueriesMiddleware m k x = k first).
  { intros k.
    exact (persistedQueriesMiddleware_success m k x Hopt Hparse Hquery). }
  destruct (inject_query_body request' text) as (Hobject & Hown & _).
  assert (Hskip :
    parseRequestBodyIfNecessary (req first)
    = (Ok tt, inject_query request' text)).
  { apply parseRequestBodyIfNecessary_skips. left. cbn [req first].
    now destruct (body (inject_query request' text)). }
  rewrite Hfirst. split.
  - intros Hstrict Hkey. rewrite Hstrict in Hquery.
    assert (Hagain :
      getPersistedQuery (queryIdKey options) (queryMap options)
        (inject_query request' text) (strict options) = Ok (Some text)).
    { rewrite Hstrict. revert Hquery. unfold getPersistedQuery. cbn [andb].
      destruct (queryId_of (queryIdKey options) request') as [| | | |queryId| | |]
        eqn:Hid; try discriminate.
      now rewrite (queryId_of_inject_query _ text Hkey Hid). }
    rewrite (persistedQueriesMiddleware_success m next first Hopt Hskip
               Hagain).
    cbn [res next_calls first]. now rewrite inject_query_twice.
  - intros Hstrict. rewrite Hstrict in Hquery.
    unfold persistedQueriesMiddleware, handle_request, resolve_and_delegate.
    rewrite Hopt, Hskip. cbn [req with_req].
    unfold getPersistedQuery. rewrite Hstrict. cbn [andb].
    rewrite searchParams_of_inject_query.
    revert Hquery. unfold getPersistedQuery. cbn [andb].
    destruct (searchParams_has (searchParams_of request') (js "query"));
      [discriminate|].
    intros _. rewrite Hobject. unfold has_property.
    unfold hasOwnProperty in Hown. rewrite Hown. reflexivity.
Qed.

(** The id [greetGuest] in the search params, through two middlewares
    with the same options. *)
Lemma persistedQueriesMiddleware_mounted_twice_witness :
  let x := fixture_exchange (js "/graphql?queryId=greetGuest") VUndefined in
  let table := QueryMapTable fixture_queryMap ObjectPrototype in
  let lax := mk_Middleware (Ok (mk_ParsedOptions (js "queryId") table false)) in
  let strict := mk_Middleware (Ok (mk_ParsedOptions (js "queryId") table true)) in
  let injected :=
    fixture_request (js "/graphql?queryId=greetGuest")
      (object_literal [(js "query", VStr (js "{ greet }"))]) in
  persistedQueriesMiddleware (rt := fixture_runtime) lax
    (persistedQueriesMiddleware (rt := fixture_runtime) lax (fun y => y)) x
  = mk_Exchange injected fixture_response 2
  /\ statusCode
       (res (persistedQueriesMiddleware (rt := fixture_runtime) strict
               (persistedQueriesMiddleware (rt := fixture_runtime) strict
                  (fun y => y)) x))
     = 400%Z.
Proof.
  intros x table lax strict injected. split.
  - apply (proj1 (@persistedQueriesMiddleware_mounted_twice fixture_runtime
                    lax _ (fun y => y) x (req x) (js "{ greet }")
                    eq_refl eq_refl eq_refl) eq_refl).
    discriminate.
  - rewrite (proj2 (@persistedQueriesMiddleware_mounted_twice fixture_runtime
                      strict _ (fun y => y) x (req x) (js "{ greet }")
                      eq_refl eq_refl eq_refl) eq_refl).
    reflexivity.
Defined.

(** ** The two generations of index.ts *)

Section Generations.

Context {rt : Runtime}.

Variables (legacy : Middleware) (later : OverEbp.Middleware).
Variable x : Exchange.

Hypothesis body_parser :
  OverEbp.bodyParserMiddleware later
  = Ebp.bodyParserMiddleware (100 * UNIT_KIB).

(** What the body parser does, whatever continuation it is given, read
    off its run with the identity. *)
Lemma Ebp_parse_body_continuation (maxSize : Z) (k : Exchange -> Exchange) :
  Ebp.parse_body maxSize k x
  = match Ebp.parse_body maxSize (fun y => y) x with
    | (Ok _, x') => (Ok tt, k x')
    | (Throw e, x') => (Throw e, x')
    end.
Proof.
  unfold Ebp.parse_body. cbv zeta.
  destruct (nonNull (body (req x))); [reflexivity|].
  destruct (lookup (js "content-type") (headers (req x))) as [header|];
    [|reflexivity].
  destruct (contentType_parse header) as [contentTypeInfo|e]; [|reflexivity].
  destruct (jseqb (type contentTypeInfo) CONTENT_TYPE_JSON).
  - destruct (Ebp.readRawBody contentTypeInfo maxSize (req x))
      as [[rawBody|e] request']; [|reflexivity].
    now destruct (parseJsonObject rawBody).
  - destruct (jseqb (type contentTypeInfo) CONTENT_TYPE_FORM_URL_ENCODED);
      [|reflexivity].
    now destruct (Ebp.readRawBody contentTypeInfo maxSize (req x))
      as [[rawBody|e] request'].
Qed.

(** Where the readers agree, the body parser is
    [parseRequestBodyIfNecessary] followed by the continuation. *)
Lemma Ebp_parse_body_as_legacy (k : Exchange -> Exchange) :
  (forall header contentTypeInfo,
      lookup (js "content-type") (headers (req x)) = Some header ->
      contentType_parse header = Ok contentTypeInfo ->
      Ebp.readRawBody contentTypeInfo (100 * UNIT_KIB) (req x)
      = readRawBody (req x) contentTypeInfo) ->
  Ebp.parse_body (100 * UNIT_KIB) k x
  = match parseRequestBodyIfNecessary (req x) with
    | (Ok _, request') => (Ok tt, k (with_req x request'))
    | (Throw e, request') => (Throw e, with_req x request')
    end.
Proof.
  intros Hagree. unfold Ebp.parse_body, parseRequestBodyIfNecessary.
  cbv zeta.
  destruct (nonNull (body (req x))); [now rewrite with_req_req|].
  destruct (lookup (js "content-type") (headers (req x))) as [header|];
    [|now rewrite with_req_req].
  destruct (contentType_parse header) as [contentTypeInfo|e] eqn:Hparse;
    [|now rewrite with_req_req].
  rewrite (Hagree header contentTypeInfo eq_refl Hparse).
  destruct (jseqb (type contentTypeInfo) CONTENT_TYPE_JSON).
  - destruct (readRawBody (req x) contentTypeInfo)
      as [[rawBody|e] request']; [|reflexivity].
    now destruct (parseJsonObject rawBody).
  - destruct (jseqb (type contentTypeInfo) CONTENT_TYPE_FORM_URL_ENCODED);
      [|now rewrite with_req_req].
    now destruct (readRawBody (req x) contentTypeInfo)
      as [[rawBody|e] request'].
Qed.

(** X19.  With the same options, parsed without failure, the index.ts
    that reads the body itself and the index.ts that reads it through the
    body parser treat a request alike whenever the two readers agree on
    its body. *)
Theorem generations_agree :
  forall options : ParsedOptions,
    parsedOptions legacy = Ok options ->
    OverEbp.parsedOptions later = Ok options ->
    (forall header contentTypeInfo,
        lookup (js "content-type") (headers (req x)) = Some header ->
        contentType_parse header = Ok contentTypeInfo ->
        Ebp.readRawBody contentTypeInfo (100 * UNIT_KIB) (req x)
        = readRawBody (req x) contentTypeInfo) ->
    forall next,
      OverEbp.persistedQueriesMiddleware later next x
      = persistedQueriesMiddleware legacy next x.
Proof.
  intros options Hlegacy Hlater Hagree next.
  unfold OverEbp.persistedQueriesMiddleware. rewrite body_parser.
  unfold Ebp.bodyParserMiddleware.
  rewrite (Ebp_parse_body_as_legacy _ Hagree).
  unfold persistedQueriesMiddleware, handle_request. rewrite Hlegacy.
  destruct (parseRequestBodyIfNecessary (req x)) as [[[]|e] request'].
  - unfold OverEbp.resolve. now rewrite Hlater.
  - apply Ebp_handle_failure_eq.
Qed.

(** X20.  When the options fail, the index.ts that reads the body itself
    answers with that failure at once and leaves the request alone; the
    index.ts over the body parser reads the body first, and a failure of
    the body is what it answers with. *)
Theorem generations_differ_on_failed_options :
  forall e : error,
    parsedOptions legacy = Throw e ->
    OverEbp.parsedOptions later = Throw e ->
    forall next,
      persistedQueriesMiddleware legacy next x = handle_failure e x
      /\ OverEbp.persistedQueriesMiddleware later next x
         = match Ebp.parse_body (100 * UNIT_KIB) (fun y => y) x with
           | (Ok _, x') => handle_failure e x'
           | (Throw e', x') => handle_failure e' x'
           end.
Proof.
  intros e Hlegacy Hlater next. split.
  - unfold persistedQueriesMiddleware, handle_request. now rewrite Hlegacy.
  - unfold OverEbp.persistedQueriesMiddleware. rewrite body_parser.
    unfold Ebp.bodyParserMiddleware. rewrite Ebp_parse_body_continuation.
    destruct (Ebp.parse_body (100 * UNIT_KIB) (fun y => y) x)
      as [[[]|e'] x'].
    + unfold OverEbp.resolve. now rewrite Hlater.
    + apply Ebp_handle_failure_eq.
Qed.

End Generations.

(** A form body with the id [greetGuest]. *)
Lemma generations_agree_witness :
  let x :=
    mk_Exchange
      (stream_request
         [(js "content-type", js "application/x-www-form-urlencoded")]
         (mk_Readable [js "queryId="; js "greetGuest"] None))
      fixture_response 0 in
  let options :=
    mk_ParsedOptions (js "queryId")
      (QueryMapTable fixture_queryMap ObjectPrototype) true in
  let legacy := mk_Middleware (Ok options) in
  let later :=
    OverEbp.mk_Middleware (Ok options)
      (Ebp.bodyParserMiddleware (rt := fixture_runtime) (100 * UNIT_KIB)) in
  OverEbp.persistedQueriesMiddleware later (fun y => y) x
  = persistedQueriesMiddleware (rt := fixture_runtime) legacy (fun y => y) x
  /\ get (body (req (persistedQueriesMiddleware (rt := fixture_runtime)
                       legacy (fun y => y) x))) (js "query")
     = VStr (js "{ greet }").
Proof.
  intros x options legacy later. split; [|reflexivity].
  apply (@generations_agree fixture_runtime legacy later x eq_refl options
           eq_refl eq_refl).
  intros header contentTypeInfo [= <-] [= <-]. reflexivity.
Defined.

(** Options that are a number, and a JSON body in a charset that is not
    supported: status 500 from the one, 415 from the other. *)
Lemma generations_differ_on_failed_options_witness :
  let x :=
    mk_Exchange
      (stream_request
         [(js "content-type", js "application/json; charset=utf-18")]
         (mk_Readable [missing_id_text] None))
      fixture_response 0 in
  let failed := parseOptions (VNum 1) in
  let legacy := mk_Middleware failed in
  let later :=
    OverEbp.mk_Middleware failed
      (Ebp.bodyParserMiddleware (rt := fixture_runtime) (100 * UNIT_KIB)) in
  statusCode (res (persistedQueriesMiddleware (rt := fixture_runtime)
                     legacy (fun y => y) x)) = 500%Z
  /\ statusCode (res (OverEbp.persistedQueriesMiddleware later
                        (fun y => y) x)) = 415%Z.
Proof.
  intros x failed legacy later.
  destruct (@generations_differ_on_failed_options fixture_runtime legacy
              later x eq_refl
              (mk_error TypeError OPTIONS_NOT_OBJECT None) eq_refl eq_refl
              (fun y => y)) as [Hlegacy Hlater].
  rewrite Hlegacy, Hlater. split; reflexivity.
Defined.

(** ** Options and construction *)

(** X21.  [parseOptions] fails in four ways only: with what the promise of
    the options rejects with, with the TypeError for options that are not
    an object, with what the promise of the query map rejects with, and
    with the TypeError for a query map that is neither an object nor a
    function.  No value of [queryIdKey] or [strict] makes it fail. *)
Theorem parseOptions_failures :
  forall (options : value) (e : error),
    parseOptions options = Throw e ->
    await options = Throw e
    \/ (exists o,
           await options = Ok o /\ isObject o = false
           /\ e = mk_error TypeError OPTIONS_NOT_OBJECT None)
    \/ (exists o,
           await options = Ok o /\ isObject o = true
           /\ await (get o (js "queryMap")) = Throw e)
    \/ (exists o queryMap,
           await options = Ok o /\ isObject o = true
           /\ await (get o (js "queryMap")) = Ok queryMap
           /\ isObject queryMap || isFunction queryMap = false
           /\ e = mk_error TypeError QUERY_MAP_INVALID None).
Proof.
  intros options e. unfold parseOptions.
  destruct (await options) as [o|e0]; cbn [bind].
  2:{ intros [= <-]. now left. }
  unfold assert at 1. destruct (isObject o) eqn:Hobject; cbn [negb bind].
  2:{ intros [= <-]. right. left. now exists o. }
  destruct (await (get o (js "queryMap"))) as [queryMap|e0] eqn:Hmap;
    cbn [bind].
  2:{ intros [= <-]. right. right. left. now exists o. }
  unfold assert.
  destruct (isObject queryMap || isFunction queryMap) eqn:Hvalid;
    cbn [negb bind].
  - now destruct queryMap.
  - intros [= <-]. right. right. right. now exists o, queryMap.
Qed.

(** Options whose query map is a promise that rejects. *)
Lemma parseOptions_failures_witness :
  let rejection := mk_error PlainError (js "no query map") None in
  let options :=
    object_literal [(js "queryMap", VPromise (inr rejection) []);
                    (js "queryIdKey", VNum 7)] in
  parseOptions options = Throw rejection
  /\ exists o,
       await options = Ok o /\ isObject o = true
       /\ await (get o (js "queryMap")) = Throw rejection.
Proof.
  intros rejection options.
  assert (Hfail : parseOptions options = Throw rejection) by reflexivity.
  split; [exact Hfail|].
  destruct (parseOptions_failures options Hfail)
    as [Habs | [(o & Hawait & Habs & _) | [Hmap | (o & qm & Hawait & _ & Habs & _)]]].
  - discriminate.
  - injection Hawait as <-. discriminate.
  - exact Hmap.
  - injection Hawait as <-. discriminate.
Defined.

(** X22.  Constructing the middleware throws for options that are null or
    undefined and for nothing else: any other value gives a middleware that
    holds the outcome of [parseOptions], and the failure of that outcome,
    if it is one, is the one thing logged.  Both generations of index.ts
    do so, the later one next to a body parser with the ceiling of
    100 KiB. *)
Theorem persistedQueries_construction :
  forall (rt : Runtime) (options : value),
    (nonNull options = false ->
     persistedQueries options
     = Throw (mk_error TypeError OPTIONS_MISSING None)
     /\ OverEbp.persistedQueries options
        = Throw (mk_error TypeError OPTIONS_MISSING None))
    /\
    (nonNull options = true ->
     exists logged,
       persistedQueries options
       = Ok (mk_Construction (mk_Middleware (parseOptions options)) logged)
       /\ OverEbp.persistedQueries options
          = Ok (OverEbp.mk_Construction
                  (OverEbp.mk_Middleware (parseOptions options)
                     (Ebp.bodyParserMiddleware 102400))
                  logged)
       /\ (forall e, parseOptions options = Throw e -> logged = [e])
       /\ (forall parsed, parseOptions options = Ok parsed -> logged = [])).
Proof.
  intros rt options. unfold persistedQueries, OverEbp.persistedQueries.
  split; intros Hoptions; unfold assert; rewrite Hoptions; cbn [negb bind].
  - now split.
  - eexists. split; [reflexivity|]. split; [reflexivity|].
    split.
    + now intros e ->.
    + now intros parsed ->.
Qed.

Lemma persistedQueries_construction_witness :
  persistedQueries VNull = Throw (mk_error TypeError OPTIONS_MISSING None)
  /\ exists logged,
       persistedQueries (VStr (js "queries.json"))
       = Ok (mk_Construction
               (mk_Middleware (parseOptions (VStr (js "queries.json"))))
               logged)
       /\ logged = [mk_error TypeError OPTIONS_NOT_OBJECT None].
Proof.
  split.
  - exact (proj1 (proj1 (persistedQueries_construction fixture_runtime VNull)
                    eq_refl)).
  - destruct (proj2 (persistedQueries_construction fixture_runtime
                       (VStr (js "queries.json"))) eq_refl)
      as (logged & Hlegacy & _ & Hfailed & _).
    exists logged. split; [exact Hlegacy|].
    exact (Hfailed _ eq_refl).
Defined.

(** X23.  [bodyParser] called without options, or with an object whose
    [maxSize] is not a number, takes the ceiling of 102400 bytes; a number
    under [maxSize] is taken as it is, whatever its sign; options that are
    given and are not an object, null among them, are a TypeError. *)
Theorem Ebp_bodyParser_options :
  forall rt : Runtime,
    Ebp.bodyParser VUndefined = Ok (Ebp.bodyParserMiddleware 102400)
    /\ (forall options,
           options <> VUndefined -> isObject options = false ->
           Ebp.bodyParser options
           = Throw (mk_error TypeError
                      (js "The options passed to the bodyParser middleware must be an object.")
                      None))
    /\ (forall options n,
           isObject options = true ->
           get options (js "maxSize") = VNum n ->
           Ebp.bodyParser options = Ok (Ebp.bodyParserMiddleware n))
    /\ (forall options,
           isObject options = true ->
           isNumber (get options (js "maxSize")) = false ->
           Ebp.bodyParser options = Ok (Ebp.bodyParserMiddleware 102400)).
Proof.
  intros rt. split; [reflexivity|]. split; [|split].
  - intros options Hgiven Hobject. unfold Ebp.bodyParser, Ebp.parseOptions.
    destruct options; try discriminate; try reflexivity.
    now elim Hgiven.
  - intros options n Hobject Hsize. unfold Ebp.bodyParser, Ebp.parseOptions.
    destruct options; try discriminate; unfold assert;
      rewrite ?Hobject; cbn [isObject negb bind]; now rewrite Hsize.
  - intros options Hobject Hsize. unfold Ebp.bodyParser, Ebp.parseOptions.
    destruct options; try discriminate; unfold assert;
      cbn [isObject negb bind];
      now destruct (get _ (js "maxSize")).
Qed.

(** X24.  On every request the body parser does one of two things, and
    which one does not depend on the continuation: it runs the
    continuation, with the response as it came, or it does not run it and
    sends the error envelope, under a status that http-errors accepts. *)
Theorem Ebp_bodyParserMiddleware_outcome :
  forall (rt : Runtime) (maxSize : Z) (x : Exchange),
    (exists x',
        res x' = res x /\ next_calls x' = next_calls x
        /\ forall next, Ebp.bodyParserMiddleware maxSize next x = next x')
    \/ (exists e x',
           forall next,
             let y := Ebp.bodyParserMiddleware maxSize next x in
             y = Ebp.handle_failure e x'
             /\ next_calls y = next_calls x
             /\ sent (res y)
                = Some (utf8_encode (error_envelope (err_message e)))
             /\ status_accepted (statusCode (res y)) = true).
Proof.
  intros rt maxSize x. unfold Ebp.bodyParserMiddleware.
  destruct (Ebp_parse_body_outcome maxSize x)
    as [(x' & Hres & Hcalls & Hrun) | (e & x' & Hres & Hcalls & Hrun)].
  - left. exists x'. split; [exact Hres|]. split; [exact Hcalls|].
    intros next. now rewrite Hrun.
  - right. exists e, x'. intros next. cbv zeta. rewrite Hrun.
    split; [reflexivity|]. rewrite Ebp_handle_failure_eq.
    destruct (handle_failure_response e x')
      as (_ & Hcalls' & Hstatus & _ & _ & Hsent).
    split; [now rewrite Hcalls'|]. split; [exact Hsent|].
    rewrite Hstatus. apply normalize_status_accepted.
Qed.
